(** * DirShell terminal: the output interpreter, the directory-report
      extractor and the key-input recorder of [src/terminal.py]

    The development embeds these pieces of [src/terminal.py]:

    - [TerminalWidget.handle_output], the loop that renders PTY output into
      the widget's [QTextDocument] through a [QTextCursor];
    - [TerminalTab._extract_directories] and [_find_osc_terminator], the scan
      for [ESC ] 1337 ; CurrentDir = ... BEL] reports;
    - [TerminalWidget.send_command], [keyPressEvent] and [_record_command],
      the input side;
    - [TerminalTab.set_directory], [go_back] and [go_forward], the directory
      history of a tab;
    - [TerminalApp.new_tab], [_on_tab_changed], [close_tab] and [_tab_title],
      the tab bar;
    - [TerminalTab._unique_destination], [apply_permission_preset] and
      [_git_root_for_path], helpers of the file tree;

    and [VideoPlayerDialog._format_time] of [src/dialogs/video_player.py].

    Characters are Unicode code points of the Latin-1 range, represented by
    [ascii] (code points 0..255); a Python [str] is a [list ascii]. *)

From Stdlib Require Import Ascii String List ZArith Lia Bool Arith.
From Stdlib Require Import ZifyBool.
From Stdlib Require DecimalString DecimalNat.
Import ListNotations.

Local Open Scope char_scope.
Local Open Scope list_scope.

(** ** Characters *)

Definition CR  : ascii := "013".
Definition LF  : ascii := "010".
Definition BS  : ascii := "008".
Definition DEL : ascii := "127".
Definition BEL : ascii := "007".
Definition ESC : ascii := "027".

Definition code (c : ascii) : nat := nat_of_ascii c.

(** [in_range lo hi c]: the code point of [c] lies in [lo..hi]. *)
Definition in_range (lo hi : nat) (c : ascii) : bool :=
  ((lo <=? code c) && (code c <=? hi))%nat.

(** Python's [str.isalpha] on one character of the Latin-1 range: the
    letters of general categories Lu, Ll and Lo, that is A-Z, a-z, U+00AA,
    U+00B5, U+00BA, U+00C0..U+00D6, U+00D8..U+00F6 and U+00F8..U+00FF. *)
Definition isalpha (c : ascii) : bool :=
  in_range 65 90 c || in_range 97 122 c
  || (code c =? 170)%nat || (code c =? 181)%nat || (code c =? 186)%nat
  || in_range 192 214 c || in_range 216 246 c || in_range 248 255 c.

(** [char in ("\b", "\x7f")]. *)
Definition is_backspace (c : ascii) : bool :=
  Ascii.eqb c BS || Ascii.eqb c DEL.

(** ** The text document and its cursor (Qt's [QTextDocument], [QTextCursor])

    A [QTextDocument] is a sequence of characters in which consecutive blocks
    (the lines of the terminal) are separated by a paragraph separator
    (U+2029 in [selectedText]).  A cursor is a position between two elements,
    [0 <= position <= length document].  The cursors [handle_output] keeps
    between two iterations never hold a selection, so one position is
    enough. *)

Inductive qchar : Type :=
| QChar (c : ascii)
| ParSep.

Definition is_sep (q : qchar) : bool :=
  match q with ParSep => true | QChar _ => false end.

Record Terminal : Type := {
  document : list qchar;   (* self.document() *)
  position : nat           (* self._cursor.position() *)
}.

Definition well_formed (t : Terminal) : Prop :=
  position t <= length (document t).

(** Number of leading elements of [l] before its first separator. *)
Fixpoint run_length (l : list qchar) : nat :=
  match l with
  | QChar _ :: l' => S (run_length l')
  | _ => 0
  end.

(** [movePosition(StartOfBlock)], [movePosition(EndOfBlock)]: the position of
    the start, of the end, of the block that holds position [p]. *)
Definition startOfBlock (d : list qchar) (p : nat) : nat :=
  p - run_length (rev (firstn p d)).

Definition endOfBlock (d : list qchar) (p : nat) : nat :=
  p + run_length (skipn p d).

(** [removeSelectedText] for a selection between positions [a <= b]. *)
Definition removeRange (d : list qchar) (a b : nat) : list qchar :=
  firstn a d ++ skipn b d.

Definition insertAt (d : list qchar) (p : nat) (q : qchar) : list qchar :=
  firstn p d ++ q :: skipn p d.

(** [document.blockCount()]. *)
Definition blockCount (d : list qchar) : nat :=
  S (length (filter is_sep d)).

(** [document.findBlockByNumber(n).position()], for [n < blockCount d]. *)
Fixpoint blockPosition (d : list qchar) (n : nat) : nat :=
  match n, d with
  | 0, _ => 0
  | S _, [] => 0
  | S n', ParSep :: d' => S (blockPosition d' n')
  | S _, QChar _ :: d' => S (blockPosition d' n)
  end.

(** [_cursor_to_line_start], [_cursor_to_line_end]. *)
Definition cursor_to_line_start (t : Terminal) : Terminal :=
  {| document := document t;
     position := startOfBlock (document t) (position t) |}.

Definition cursor_to_line_end (t : Terminal) : Terminal :=
  {| document := document t;
     position := endOfBlock (document t) (position t) |}.

(** [cursor.insertBlock()]: a separator is inserted at the cursor, which ends
    behind it. *)
Definition insertBlock (t : Terminal) : Terminal :=
  {| document := insertAt (document t) (position t) ParSep;
     position := S (position t) |}.

(** [cursor.insertText(char)] for one character that is neither a line feed
    nor a carriage return. *)
Definition insertText (c : ascii) (t : Terminal) : Terminal :=
  {| document := insertAt (document t) (position t) (QChar c);
     position := S (position t) |}.

(** [cursor.deletePreviousChar()]: removes the element before the cursor,
    character or separator; nothing at position 0. *)
Definition deletePreviousChar (t : Terminal) : Terminal :=
  match position t with
  | 0 => t
  | S p => {| document := removeRange (document t) p (S p); position := p |}
  end.

(** A cursor that selects from [anchor] to [target] and then calls
    [removeSelectedText]: the cursor ends at the lower end. *)
Definition removeSelection (t : Terminal) (anchor target : nat) : Terminal :=
  {| document := removeRange (document t) (Nat.min anchor target)
                                         (Nat.max anchor target);
     position := Nat.min anchor target |}.

(** *** What a call comes to

    A count or an index of Qt is a C [int].  PyQt raises [OverflowError]
    for an argument that does not fit one, and a document has at most
    [INT_MAX] blocks, [blockCount()] being one too. *)

Definition INT_MAX : Z := 2147483647.

Inductive Failure : Type :=
| OverflowError   (* raised by PyQt for an argument beyond a C int *)
| IndexError      (* raised by an index outside a Python list *)
| Endless.        (* a loop of the call that has no end *)

(** The call returns, it fails, or the fuel of the model ran out before its
    loop ended. *)
Inductive Outcome (A : Type) : Type :=
| Returns (a : A)
| Fails (f : Failure)
| OutOfFuel.

Arguments Returns {A} a.
Arguments Fails {A} f.
Arguments OutOfFuel {A}.

(** [movePosition(Right, MoveAnchor, n)]: [n] single steps, each to the next
    position of the document (over a block boundary too); stops at the end
    of the document, and does not move for [n <= 0].  The count [n] has to
    fit a C [int]. *)
Definition moveRight (d : list qchar) (p : nat) (n : Z) : Outcome nat :=
  if ((n <? - INT_MAX - 1) || (INT_MAX <? n))%Z then Fails OverflowError
  else Returns (Nat.min (p + Z.to_nat n) (length d)).

(** ** Python helpers used by [handle_output] *)

Fixpoint text_eqb (a b : list ascii) : bool :=
  match a, b with
  | [], [] => true
  | x :: a', y :: b' => Ascii.eqb x y && text_eqb a' b'
  | _, _ => false
  end.

(** [s.split(sep)] for a one-character separator: never the empty list. *)
Fixpoint split_on (sep : ascii) (s : list ascii) : list (list ascii) :=
  match s with
  | [] => [[]]
  | c :: s' =>
      if Ascii.eqb c sep then [] :: split_on sep s'
      else match split_on sep s' with
           | p :: ps => (c :: p) :: ps
           | [] => [[c]]
           end
  end.

(** Whitespace that [int] skips around the number: tab, line feed, vertical
    tab, form feed, carriage return, space, U+0085 and U+00A0. *)
Definition int_space (c : ascii) : bool :=
  in_range 9 13 c || (code c =? 32)%nat || (code c =? 133)%nat || (code c =? 160)%nat.

Definition is_digit (c : ascii) : bool := in_range 48 57 c.

Fixpoint lstrip (sp : ascii -> bool) (s : list ascii) : list ascii :=
  match s with
  | c :: s' => if sp c then lstrip sp s' else s
  | [] => []
  end.

Definition strip_with (sp : ascii -> bool) (s : list ascii) : list ascii :=
  rev (lstrip sp (rev (lstrip sp s))).

(** Decimal digits with single underscores between digits; [after_digit]
    says whether the previous character was a digit. *)
Fixpoint digits_value (acc : Z) (after_digit : bool) (s : list ascii)
  : option Z :=
  match s with
  | [] => if after_digit then Some acc else None
  | c :: s' =>
      if is_digit c
      then digits_value (10 * acc + Z.of_nat (code c - 48)) true s'
      else if Ascii.eqb c "_" && after_digit
           then digits_value acc false s'
           else None
  end.

(** [int(s)] in base 10; [None] stands for [ValueError].  The value is not
    bounded: the limit that Python 3.11 puts on the number of digits is left
    out. *)
Definition py_int (s : list ascii) : option Z :=
  match strip_with int_space s with
  | c :: r =>
      if Ascii.eqb c "-" then option_map Z.opp (digits_value 0 false r)
      else if Ascii.eqb c "+" then digits_value 0 false r
      else digits_value 0 false (c :: r)
  | [] => None
  end.

(** The inner loop of the CSI branch,
    [while i < len(text) and not text[i].isalpha()]: the parameters read and
    the text left, which is empty or starts with the command letter. *)
Fixpoint read_params (s : list ascii) : list ascii * list ascii :=
  match s with
  | [] => ([], [])
  | c :: s' =>
      if isalpha c then ([], s)
      else let (params, rest) := read_params s' in (c :: params, rest)
  end.

(** The inner loop of the OSC branch: the text left behind the first BEL or
    the first [ESC \], empty when there is none. *)
Fixpoint skip_osc (s : list ascii) : list ascii :=
  match s with
  | [] => []
  | c :: s' =>
      if Ascii.eqb c BEL then s'
      else if Ascii.eqb c ESC then
        match s' with
        | c2 :: s'' => if Ascii.eqb c2 "\" then s'' else skip_osc s'
        | [] => skip_osc s'
        end
      else skip_osc s'
  end.

(** ** [TerminalWidget.handle_output] *)

(** [mode = params or "0"]. *)
Definition mode_of (params : list ascii) : list ascii :=
  match params with [] => ["0"] | _ => params end.

(** [command == "K"]. *)
Definition erase_in_line (params : list ascii) (t : Terminal) : Terminal :=
  let mode := mode_of params in
  let d := document t in
  let p := position t in
  if text_eqb mode ["0"] then removeSelection t p (endOfBlock d p)
  else if text_eqb mode ["1"] then removeSelection t p (startOfBlock d p)
  else if text_eqb mode ["2"] then
    let s := startOfBlock d p in removeSelection t s (endOfBlock d s)
  else t.

(** [command == "J"]; [self.clear()] leaves one empty block. *)
Definition erase_in_display (params : list ascii) (t : Terminal) : Terminal :=
  let mode := mode_of params in
  let d := document t in
  let p := position t in
  if text_eqb mode ["0"] || text_eqb mode [] then removeSelection t p (length d)
  else if text_eqb mode ["1"] then removeSelection t p 0
  else if text_eqb mode ["2"] || text_eqb mode ["3"] then
    {| document := []; position := 0 |}
  else t.

(** The [row, col] of [command in ("H", "f")]. *)
Definition parse_position (params : list ascii) : Z * Z :=
  match params with
  | [] => (1, 1)%Z
  | _ =>
      match split_on ";" params with
      | [p0; p1] =>
          match py_int p0, py_int p1 with
          | Some r, Some c => (Z.max r 1, Z.max c 1)
          | _, _ => (1, 1)%Z
          end
      | _ => (1, 1)%Z
      end
  end.

(** [command in ("H", "f")]: empty blocks are appended at the end of the
    document while [blockCount() < row], then the cursor goes to the start of
    block [row - 1] and [col - 1] steps to the right.  For a [row] beyond
    [INT_MAX] the test [blockCount() < row] never fails, so the loop that
    appends the blocks has no end; for a [row] within, [row - 1] fits the
    argument of [findBlockByNumber], and the steps of [movePosition] are
    taken when [col - 1] fits. *)
Definition cursor_position (params : list ascii) (t : Terminal)
  : Outcome Terminal :=
  let (row, col) := parse_position params in
  if (INT_MAX <? row)%Z then Fails Endless
  else
    let d := document t in
    let d' := d ++ repeat ParSep (Z.to_nat row - blockCount d) in
    let start := blockPosition d' (Z.to_nat row - 1) in
    match moveRight d' start (col - 1) with
    | Returns p => Returns {| document := d'; position := p |}
    | Fails f => Fails f
    | OutOfFuel => OutOfFuel
    end.

Definition csi_dispatch (command : ascii) (params : list ascii)
  (t : Terminal) : Outcome Terminal :=
  if Ascii.eqb command "K" then Returns (erase_in_line params t)
  else if Ascii.eqb command "J" then Returns (erase_in_display params t)
  else if Ascii.eqb command "H" || Ascii.eqb command "f"
       then cursor_position params t
       else Returns t.

(** "Normal printable characters": the preview cursor selects the element to
    the right; it is removed unless the step fails (end of the document) or
    the selected text is the paragraph separator; then the character is
    inserted. *)
Definition write_char (c : ascii) (t : Terminal) : Terminal :=
  let d := document t in
  let p := position t in
  let d1 := match nth_error d p with
            | Some (QChar _) => removeRange d p (S p)
            | Some ParSep => d
            | None => d
            end in
  insertText c {| document := d1; position := p |}.

(** The backspace branch before the look-ahead:
    [if cursor.position() > 0: cursor.deletePreviousChar()]. *)
Definition backspace (t : Terminal) : Terminal :=
  if (0 <? position t)%nat then deletePreviousChar t else t.

(** The [while i < len(text)] loop on [s = text[i:]]; every test of the loop
    on [i] and [len(text)] is a test on [s].  One unit of [fuel] is one
    iteration.  A failure of the cursor-position branch leaves the loop and
    the call. *)
Fixpoint handle_loop (fuel : nat) (s : list ascii) (t : Terminal)
  : Outcome Terminal :=
  match s with
  | [] => Returns t
  | char :: rest =>
    match fuel with
    | 0 => OutOfFuel
    | S fuel' =>
      if Ascii.eqb char CR then
        handle_loop fuel' rest (cursor_to_line_start t)
      else if Ascii.eqb char LF then
        handle_loop fuel' rest (insertBlock (cursor_to_line_end t))
      else if is_backspace char then
        match rest with
        | c1 :: c2 :: rest' =>
            if Ascii.eqb c1 " " && is_backspace c2
            then handle_loop fuel' rest' (backspace t)
            else handle_loop fuel' rest (backspace t)
        | _ => handle_loop fuel' rest (backspace t)
        end
      else if Ascii.eqb char BEL then
        handle_loop fuel' rest t
      else if Ascii.eqb char ESC then
        match rest with
        | [] => Returns t
        | next_char :: rest1 =>
            if Ascii.eqb next_char "[" then
              match read_params rest1 with
              | (_, []) => Returns t
              | (params, command :: rest2) =>
                  match csi_dispatch command params t with
                  | Returns t' => handle_loop fuel' rest2 t'
                  | Fails f => Fails f
                  | OutOfFuel => OutOfFuel
                  end
              end
            else if Ascii.eqb next_char "]" then
              handle_loop fuel' (skip_osc rest1) t
            else handle_loop fuel' rest1 t
        end
      else handle_loop fuel' rest (write_char char t)
    end
  end.

Definition handle_output (s : list ascii) (t : Terminal)
  : Outcome Terminal :=
  handle_loop (length s) s t.

(** ** Views of the document: the lines and the cursor's line and column *)

(** The blocks of the document, in order. *)
Fixpoint blocks (d : list qchar) : list (list ascii) :=
  match d with
  | [] => [[]]
  | ParSep :: d' => [] :: blocks d'
  | QChar c :: d' =>
      match blocks d' with
      | b :: bs => (c :: b) :: bs
      | [] => [[c]]
      end
  end.

Definition lines (t : Terminal) : list string :=
  map string_of_list_ascii (blocks (document t)).

Definition cursor_line (t : Terminal) : nat :=
  length (filter is_sep (firstn (position t) (document t))).

Definition cursor_column (t : Terminal) : nat :=
  position t - startOfBlock (document t) (position t).

(** The document that shows the given lines. *)
Fixpoint doc_of_blocks (bs : list (list ascii)) : list qchar :=
  match bs with
  | [] => []
  | [b] => map QChar b
  | b :: bs' => map QChar b ++ ParSep :: doc_of_blocks bs'
  end.

Definition doc_of_lines (ls : list string) : list qchar :=
  doc_of_blocks (map list_ascii_of_string ls).

Definition empty_terminal : Terminal := {| document := []; position := 0 |}.

Definition mkTerminal (d : list qchar) (p : nat) : Terminal :=
  {| document := d; position := p |}.

(** The text of the block that holds the cursor. *)
Definition current_line (t : Terminal) : list qchar :=
  let d := document t in
  let s := startOfBlock d (position t) in
  firstn (endOfBlock d (position t) - s) (skipn s d).

(** ** [TerminalTab._extract_directories] *)

(** [OSC_DIR_PREFIX = "\x1b]1337;CurrentDir="]. *)
Definition OSC_DIR_PREFIX : list ascii :=
  ESC :: list_ascii_of_string "]1337;CurrentDir=".

Fixpoint starts_with (m s : list ascii) : bool :=
  match m, s with
  | [], _ => true
  | x :: m', y :: s' => Ascii.eqb x y && starts_with m' s'
  | _ :: _, [] => false
  end.

(** [s.find(m)]: the index of the first occurrence of [m] in [s], [None] for
    Python's -1.  On [s = text[index:]] it is [text.find(m, index) - index]. *)
Fixpoint find (m s : list ascii) : option nat :=
  if starts_with m s then Some 0
  else match s with
       | [] => None
       | _ :: s' => option_map S (find m s')
       end.

(** [_find_osc_terminator(text, start)] on [s = text[start:]]: the offset of
    the terminator from [start] and its length; [None] for [(-1, 0)]. *)
Fixpoint find_osc_terminator (s : list ascii) : option (nat * nat) :=
  match s with
  | [] => None
  | c :: s' =>
      if Ascii.eqb c BEL then Some (0, 1)
      else if Ascii.eqb c ESC
              && match s' with c2 :: _ => Ascii.eqb c2 "\" | [] => false end
      then Some (0, 2)
      else match find_osc_terminator s' with
           | Some (e, l) => Some (S e, l)
           | None => None
           end
  end.

(** The [while True] loop of [_extract_directories] on [s = text[index:]],
    returning the directories appended from this iteration on.  One unit of
    [fuel] is one completed iteration; [None] when the fuel runs out. *)
Fixpoint extract_loop (fuel : nat) (s : list ascii)
  : option (list (list ascii)) :=
  match find OSC_DIR_PREFIX s with
  | None => Some []
  | Some start =>
      let body := skipn (start + length OSC_DIR_PREFIX) s in
      match find_osc_terminator body with
      | None => Some []
      | Some (end_, terminator_length) =>
          match fuel with
          | 0 => None
          | S fuel' =>
              option_map (cons (firstn end_ body))
                (extract_loop fuel' (skipn (end_ + terminator_length) body))
          end
      end
  end.

Definition extract_directories (s : list ascii) : option (list (list ascii)) :=
  extract_loop (length s) s.

(** ** [TerminalTab.handle_output]: one fragment goes to the interpreter and
    to the extractor; the directories found are the fragment's
    directory-change events, in order. *)

Record Tab : Type := {
  terminal : Terminal;
  directory_events : list (list ascii)
}.

Definition tab_handle_output (s : list ascii) (tab : Tab) : Outcome Tab :=
  match handle_output s (terminal tab) with
  | Returns t' =>
      match extract_directories s with
      | Some dirs =>
          Returns {| terminal := t';
                     directory_events := directory_events tab ++ dirs |}
      | None => OutOfFuel
      end
  | Fails f => Fails f
  | OutOfFuel => OutOfFuel
  end.

(** The fragments of the reader thread, delivered in order; a fragment on
    which the call fails is the last one handled. *)
Fixpoint feed (fragments : list (list ascii)) (tab : Tab) : Outcome Tab :=
  match fragments with
  | [] => Returns tab
  | s :: fragments' =>
      match tab_handle_output s tab with
      | Returns tab' => feed fragments' tab'
      | Fails f => Fails f
      | OutOfFuel => OutOfFuel
      end
  end.

(** ** The input side: [send_command], [keyPressEvent], [_record_command] *)

(** [str.encode()]: UTF-8 of code points below 256. *)
Definition encode_char (c : ascii) : list Byte.byte :=
  let n := N_of_ascii c in
  if (n <? 128)%N then [byte_of_ascii c]
  else [byte_of_ascii (ascii_of_N (192 + n / 64));
        byte_of_ascii (ascii_of_N (128 + n mod 64))].

Definition encode (s : list ascii) : list Byte.byte :=
  flat_map encode_char s.

(** A bytes literal of the source whose bytes are all below 128. *)
Definition bytes_of (s : string) : list Byte.byte :=
  map byte_of_ascii (list_ascii_of_string s).

(** The keys [keyPressEvent] tells apart; [Key_Other] is any other key. *)
Inductive Key : Type :=
| Key_Return | Key_Enter | Key_Backspace | Key_Tab
| Key_Left | Key_Right | Key_Up | Key_Down
| Key_Home | Key_End | Key_PageUp | Key_PageDown
| Key_Delete | Key_Insert | Key_Escape
| Key_Other.

(** [inherited] is what [QTextEdit.keyPressEvent], the handler of the base
    class, does with the event: the selected text and the clipboard text it
    leaves, from those it finds (a cut, for one, empties the selection and
    puts it on the clipboard). *)
Record QKeyEvent : Type := {
  matches_copy : bool;     (* event.matches(QKeySequence.StandardKey.Copy) *)
  matches_paste : bool;    (* event.matches(QKeySequence.StandardKey.Paste) *)
  key : Key;               (* event.key() *)
  event_text : list ascii; (* event.text() *)
  inherited : list ascii -> list ascii -> list ascii * list ascii
                           (* super().keyPressEvent(event) *)
}.

(** What the input side reads and writes. *)
Record Widget : Type := {
  pty : list (list Byte.byte);           (* the os.write calls on self.fd *)
  input_buffer : list ascii;             (* self._input_buffer *)
  command_executed : list (list ascii);  (* command_executed.emit calls *)
  selection : list ascii;                (* self.textCursor().selectedText() *)
  clipboard : list ascii                 (* QApplication.clipboard().text() *)
}.

(** [os.write(self.fd, data)]. *)
Definition os_write (data : list Byte.byte) (w : Widget) : Widget :=
  {| pty := pty w ++ [data];
     input_buffer := input_buffer w;
     command_executed := command_executed w;
     selection := selection w;
     clipboard := clipboard w |}.

Definition set_input_buffer (b : list ascii) (w : Widget) : Widget :=
  {| pty := pty w;
     input_buffer := b;
     command_executed := command_executed w;
     selection := selection w;
     clipboard := clipboard w |}.

(** [super().keyPressEvent(event)]: the handler of [QTextEdit] knows nothing
    of the PTY, the input buffer and the signal. *)
Definition super_keyPressEvent (event : QKeyEvent) (w : Widget) : Widget :=
  let (sel, clip) := inherited event (selection w) (clipboard w) in
  {| pty := pty w;
     input_buffer := input_buffer w;
     command_executed := command_executed w;
     selection := sel;
     clipboard := clip |}.

(** [self.setTextCursor(cursor)] with the cursor that [handle_output] ends
    with: the cursor of the widget is replaced by one without a selection. *)
Definition setTextCursor (w : Widget) : Widget :=
  {| pty := pty w;
     input_buffer := input_buffer w;
     command_executed := command_executed w;
     selection := [];
     clipboard := clipboard w |}.

(** [self.copy()]: the selected text goes to the clipboard. *)
Definition copy (w : Widget) : Widget :=
  {| pty := pty w;
     input_buffer := input_buffer w;
     command_executed := command_executed w;
     selection := selection w;
     clipboard := selection w |}.

(** Whitespace of [str.strip()]: code points 9..13, 28..32, U+0085, U+00A0. *)
Definition py_isspace (c : ascii) : bool :=
  in_range 9 13 c || in_range 28 32 c
  || (code c =? 133)%nat || (code c =? 160)%nat.

(** [_record_command]. *)
Definition record_command (command : list ascii) (w : Widget) : Widget :=
  match strip_with py_isspace command with
  | [] => w
  | stripped =>
      {| pty := pty w;
         input_buffer := input_buffer w;
         command_executed := command_executed w ++ [stripped];
         selection := selection w;
         clipboard := clipboard w |}
  end.

(** [command.endswith("\n")]. *)
Definition ends_with_newline (command : list ascii) : bool :=
  match rev command with
  | c :: _ => Ascii.eqb c LF
  | [] => false
  end.

(** [send_command]. *)
Definition send_command (command : list ascii) (add_newline : bool)
  (w : Widget) : Widget :=
  let txt :=
    command ++ (if add_newline && negb (ends_with_newline command)
                then [LF] else []) in
  let w1 := os_write (encode txt) w in
  if add_newline then record_command command w1 else w1.

(** [special_mappings]. *)
Definition special_mappings (k : Key) : option (list Byte.byte) :=
  match k with
  | Key_Backspace => Some [byte_of_ascii BS]
  | Key_Tab => Some [byte_of_ascii "009"]
  | Key_Left => Some (byte_of_ascii ESC :: bytes_of "[D")
  | Key_Right => Some (byte_of_ascii ESC :: bytes_of "[C")
  | Key_Up => Some (byte_of_ascii ESC :: bytes_of "[A")
  | Key_Down => Some (byte_of_ascii ESC :: bytes_of "[B")
  | Key_Home => Some (byte_of_ascii ESC :: bytes_of "[H")
  | Key_End => Some (byte_of_ascii ESC :: bytes_of "[F")
  | Key_PageUp => Some (byte_of_ascii ESC :: bytes_of "[5~")
  | Key_PageDown => Some (byte_of_ascii ESC :: bytes_of "[6~")
  | Key_Delete => Some (byte_of_ascii ESC :: bytes_of "[3~")
  | Key_Insert => Some (byte_of_ascii ESC :: bytes_of "[2~")
  | Key_Escape => Some [byte_of_ascii ESC]
  | Key_Return | Key_Enter | Key_Other => None
  end.

Definition is_empty {A : Type} (l : list A) : bool :=
  match l with [] => true | _ => false end.

(** [keyPressEvent]. *)
Definition keyPressEvent (event : QKeyEvent) (w : Widget) : Widget :=
  if matches_copy event then
    if negb (is_empty (selection w)) then copy w
    else set_input_buffer [] (os_write [byte_of_ascii "003"] w)
  else if matches_paste event then
    let txt := clipboard w in
    if negb (is_empty txt)
    then set_input_buffer (input_buffer w ++ txt) (os_write (encode txt) w)
    else w
  else
    match key event with
    | Key_Return | Key_Enter =>
        let w1 := os_write [byte_of_ascii CR] w in
        set_input_buffer [] (record_command (input_buffer w1) w1)
    | Key_Backspace =>
        let w1 := if negb (is_empty (input_buffer w))
                  then set_input_buffer (removelast (input_buffer w)) w
                  else w in
        os_write [byte_of_ascii BS] w1
    | k =>
        match special_mappings k with
        | Some data => os_write data w
        | None =>
            let txt := event_text event in
            if negb (is_empty txt)
            then set_input_buffer (input_buffer w ++ txt)
                                  (os_write (encode txt) w)
            else super_keyPressEvent event w
        end
    end.

(** Control characters: general category Cc, U+0000..U+001F and
    U+007F..U+009F. *)
Definition is_control (c : ascii) : bool :=
  in_range 0 31 c || in_range 127 159 c.

Definition control_free (s : list ascii) : Prop :=
  Forall (fun c => is_control c = false) s.

(** ** Fragment boundaries at which neither scan is cut

    [handle_output] and [_extract_directories] start afresh on every
    fragment.  The two predicates below say that a fragment ends where
    nothing is pending. *)

(** An OSC body that holds its terminator, BEL or [ESC \]. *)
Fixpoint osc_terminated (s : list ascii) : bool :=
  match s with
  | [] => false
  | c :: s' =>
      if Ascii.eqb c BEL then true
      else if Ascii.eqb c ESC then
        match s' with
        | c2 :: _ => if Ascii.eqb c2 "\" then true else osc_terminated s'
        | [] => false
        end
      else osc_terminated s'
  end.

(** The walk of [handle_loop] over [s], without the document: [true] when
    the loop leaves [s] by [i == len(text)] behind a complete unit, that is
    not by one of the two [break]s, not inside an OSC sequence without
    terminator, and not behind a backspace whose test of [text[i + 1]] and
    [text[i + 2]] ran over the end of [s]. *)
Fixpoint at_rest_loop (fuel : nat) (s : list ascii) : bool :=
  match s with
  | [] => true
  | char :: rest =>
    match fuel with
    | 0 => false
    | S fuel' =>
      if Ascii.eqb char CR then at_rest_loop fuel' rest
      else if Ascii.eqb char LF then at_rest_loop fuel' rest
      else if is_backspace char then
        match rest with
        | c1 :: c2 :: rest' =>
            if Ascii.eqb c1 " " && is_backspace c2
            then at_rest_loop fuel' rest'
            else at_rest_loop fuel' rest
        | [c1] => if Ascii.eqb c1 " " then false else at_rest_loop fuel' rest
        | [] => false
        end
      else if Ascii.eqb char BEL then at_rest_loop fuel' rest
      else if Ascii.eqb char ESC then
        match rest with
        | [] => false
        | next_char :: rest1 =>
            if Ascii.eqb next_char "[" then
              match read_params rest1 with
              | (_, []) => false
              | (_, _ :: rest2) => at_rest_loop fuel' rest2
              end
            else if Ascii.eqb next_char "]" then
              osc_terminated rest1 && at_rest_loop fuel' (skip_osc rest1)
            else at_rest_loop fuel' rest1
        end
      else at_rest_loop fuel' rest
    end
  end.

Definition at_rest (s : list ascii) : bool := at_rest_loop (length s) s.

(** A row and a column that the cursor-position branch can go to: the row
    and the count of steps [col - 1] fit a C [int]. *)
Definition position_fits (params : list ascii) : bool :=
  let (row, col) := parse_position params in
  ((row <=? INT_MAX) && (col - 1 <=? INT_MAX))%Z.

Definition csi_fits (command : ascii) (params : list ascii) : bool :=
  if Ascii.eqb command "H" || Ascii.eqb command "f"
  then position_fits params
  else true.

(** The walk of [handle_loop] over [s], without the document: [true] when
    every cursor-position sequence that the loop meets has a row and a
    column that fit. *)
Fixpoint positions_fit_loop (fuel : nat) (s : list ascii) : bool :=
  match s with
  | [] => true
  | char :: rest =>
    match fuel with
    | 0 => true
    | S fuel' =>
      if Ascii.eqb char CR then positions_fit_loop fuel' rest
      else if Ascii.eqb char LF then positions_fit_loop fuel' rest
      else if is_backspace char then
        match rest with
        | c1 :: c2 :: rest' =>
            if Ascii.eqb c1 " " && is_backspace c2
            then positions_fit_loop fuel' rest'
            else positions_fit_loop fuel' rest
        | _ => positions_fit_loop fuel' rest
        end
      else if Ascii.eqb char BEL then positions_fit_loop fuel' rest
      else if Ascii.eqb char ESC then
        match rest with
        | [] => true
        | next_char :: rest1 =>
            if Ascii.eqb next_char "[" then
              match read_params rest1 with
              | (_, []) => true
              | (params, command :: rest2) =>
                  csi_fits command params && positions_fit_loop fuel' rest2
              end
            else if Ascii.eqb next_char "]" then
              positions_fit_loop fuel' (skip_osc rest1)
            else positions_fit_loop fuel' rest1
        end
      else positions_fit_loop fuel' rest
    end
  end.

Definition positions_fit (s : list ascii) : bool :=
  positions_fit_loop (length s) s.

(** An outcome that goes with the answer of the walk: the call returns when
    every position fits, and otherwise fails on Qt's [int]. *)
Definition as_walked {A : Type} (fits : bool) (o : Outcome A) : Prop :=
  if fits then exists a, o = Returns a
  else exists f, o = Fails f /\ (f = OverflowError \/ f = Endless).

(** Some non-empty suffix of [s] is a proper prefix of [m]: an occurrence of
    [m] may have begun at the end of [s]. *)
Fixpoint marker_begun (m s : list ascii) : bool :=
  match s with
  | [] => false
  | _ :: s' =>
      (starts_with s m && (length s <? length m)%nat) || marker_begun m s'
  end.

(** The walk of [extract_loop] over [s]: [true] when every report found in
    [s] has its terminator in [s] and the text behind the last report holds
    neither the marker nor the beginning of one at its end. *)
Fixpoint reports_closed_loop (fuel : nat) (s : list ascii) : bool :=
  match find OSC_DIR_PREFIX s with
  | None => negb (marker_begun OSC_DIR_PREFIX s)
  | Some start =>
      let body := skipn (start + length OSC_DIR_PREFIX) s in
      match find_osc_terminator body with
      | None => false
      | Some (end_, terminator_length) =>
          match fuel with
          | 0 => false
          | S fuel' =>
              reports_closed_loop fuel'
                (skipn (end_ + terminator_length) body)
          end
      end
  end.

Definition reports_closed (s : list ascii) : bool :=
  reports_closed_loop (length s) s.

(** A fragment behind which the stream may be cut. *)
Definition cut_safe (s : list ascii) : Prop :=
  at_rest s = true /\ reports_closed s = true.

(** The characters that reach the last branch of the loop, "Normal printable
    characters". *)
Definition is_plain (c : ascii) : bool :=
  negb (Ascii.eqb c CR || Ascii.eqb c LF || is_backspace c
        || Ascii.eqb c BEL || Ascii.eqb c ESC).

Definition bind {A B : Type} (o : Outcome A) (f : A -> Outcome B)
  : Outcome B :=
  match o with
  | Returns a => f a
  | Fails e => Fails e
  | OutOfFuel => OutOfFuel
  end.

(** The commands the CSI branch acts on. *)
Definition recognized_command (c : ascii) : bool :=
  Ascii.eqb c "K" || Ascii.eqb c "J" || Ascii.eqb c "H" || Ascii.eqb c "f".

(** Parameters of a CSI sequence: no character of them is a letter. *)
Definition no_letter (params : list ascii) : bool :=
  forallb (fun c => negb (isalpha c)) params.

(** The directories of two scans, one after the other. *)
Definition both {A : Type} (o1 o2 : option (list A)) : option (list A) :=
  match o1, o2 with
  | Some l1, Some l2 => Some (l1 ++ l2)
  | _, _ => None
  end.

(** ** States, events and fragments of the examples *)

Definition empty_tab : Tab :=
  {| terminal := empty_terminal; directory_events := [] |}.

(** The stream "x" ESC "]1337;CurrentDir=/tmp" BEL, cut inside the marker. *)
Definition report_cut_in_marker : list (list ascii) :=
  [ list_ascii_of_string "x" ++ ESC :: list_ascii_of_string "]1337;Cur";
    list_ascii_of_string "rentDir=/tmp" ++ [BEL] ].

(** The stream "ab" ESC "[2J" "c", cut between ESC and "[". *)
Definition clear_cut_after_escape : list (list ascii) :=
  [ list_ascii_of_string "ab" ++ [ESC];
    list_ascii_of_string "[2Jc" ].

(** The stream "one" CR LF, a report of "/srv", "two", cut behind the BEL. *)
Definition report_cut_behind : list (list ascii) :=
  [ list_ascii_of_string "one" ++ CR :: LF :: ESC
      :: list_ascii_of_string "]1337;CurrentDir=/srv" ++ [BEL] ].

(** The fragment "a" ESC "]1337;CurrentDir=/tmp/x" BEL "b". *)
Definition report_fragment : list ascii :=
  list_ascii_of_string "a"
  ++ ESC :: list_ascii_of_string "]1337;CurrentDir=/tmp/x"
  ++ BEL :: list_ascii_of_string "b".

Definition ctrl_c : QKeyEvent :=
  {| matches_copy := true; matches_paste := false;
     key := Key_Other; event_text := ["003"];
     inherited := fun sel clip => (sel, clip) |}.

Definition typing_ls : Widget :=
  {| pty := [bytes_of "l"; bytes_of "s"];
     input_buffer := list_ascii_of_string "ls";
     command_executed := [];
     selection := list_ascii_of_string "total 0";
     clipboard := [] |}.

Definition paste_event : QKeyEvent :=
  {| matches_copy := false; matches_paste := true;
     key := Key_Other; event_text := ["022"];
     inherited := fun sel clip => (sel, clip) |}.

Definition ctrl_d : QKeyEvent :=
  {| matches_copy := false; matches_paste := false;
     key := Key_Other; event_text := ["004"];
     inherited := fun sel clip => (sel, clip) |}.

Definition clipboard_two_lines : Widget :=
  {| pty := []; input_buffer := []; command_executed := [];
     selection := [];
     clipboard := list_ascii_of_string "ls" ++ [LF] |}.

Definition typed_l : QKeyEvent :=
  {| matches_copy := false; matches_paste := false;
     key := Key_Other; event_text := list_ascii_of_string "l";
     inherited := fun sel clip => (sel, clip) |}.

(** The sequence ESC [ 3 ; 5 H. *)
Definition cup_3_5 : list ascii := ESC :: list_ascii_of_string "[3;5H".

(** ** More views and helpers for the properties of the interpreter *)

(** The fragments of a list, handed to [handle_output] one after the other. *)
Fixpoint run_fragments (fragments : list (list ascii)) (t : Terminal)
  : Outcome Terminal :=
  match fragments with
  | [] => Returns t
  | s :: fragments' => bind (handle_output s t) (run_fragments fragments')
  end.

(** Neither BEL nor ESC occurs in [s]. *)
Definition no_bel_esc (s : list ascii) : bool :=
  forallb (fun c => negb (Ascii.eqb c BEL || Ascii.eqb c ESC)) s.

(** The characters of the document, without the line breaks. *)
Fixpoint characters (d : list qchar) : list ascii :=
  match d with
  | [] => []
  | QChar c :: d' => c :: characters d'
  | ParSep :: d' => characters d'
  end.

(** ** Key events of the input side *)

(** A key press that carries the one character [c] and is none of the keys
    that [keyPressEvent] treats apart. *)
Definition typed (c : ascii) : QKeyEvent :=
  {| matches_copy := false; matches_paste := false;
     key := Key_Other; event_text := [c];
     inherited := fun sel clip => (sel, clip) |}.

Definition return_key : QKeyEvent :=
  {| matches_copy := false; matches_paste := false;
     key := Key_Return; event_text := [CR];
     inherited := fun sel clip => (sel, clip) |}.

Definition backspace_key : QKeyEvent :=
  {| matches_copy := false; matches_paste := false;
     key := Key_Backspace; event_text := [BS];
     inherited := fun sel clip => (sel, clip) |}.

(** The Tab key: its text is the tab character. *)
Definition tab_key : QKeyEvent :=
  {| matches_copy := false; matches_paste := false;
     key := Key_Tab; event_text := ["009"];
     inherited := fun sel clip => (sel, clip) |}.

(** A key press that types: it matches neither the copy nor the paste
    binding, and its key is none of Return, Enter and Backspace. *)
Definition is_typing (event : QKeyEvent) : bool :=
  negb (matches_copy event) && negb (matches_paste event)
  && match key event with
     | Key_Return | Key_Enter | Key_Backspace => false
     | _ => true
     end.

(** What such a key press adds to the input buffer, and the bytes it
    writes: a key of [special_mappings] adds nothing and writes its
    mapping, any other key adds its text and writes it encoded. *)
Definition buffered (event : QKeyEvent) : list ascii :=
  match special_mappings (key event) with
  | Some _ => []
  | None => event_text event
  end.

Definition written (event : QKeyEvent) : list Byte.byte :=
  match special_mappings (key event) with
  | Some data => data
  | None => encode (event_text event)
  end.

(** Key presses, one after the other. *)
Definition press_keys (events : list QKeyEvent) (w : Widget) : Widget :=
  fold_left (fun w' event => keyPressEvent event w') events w.

(** The keys "l", Tab, "s". *)
Definition l_tab_s : list QKeyEvent := [typed "l"; tab_key; typed "s"].

(** A text that is not empty and neither starts nor ends with whitespace. *)
Definition is_trimmed (s : list ascii) : bool :=
  match s, rev s with
  | c :: _, c' :: _ => negb (py_isspace c) && negb (py_isspace c')
  | _, _ => false
  end.

Definition blank_buffer : Widget :=
  {| pty := []; input_buffer := list_ascii_of_string "   ";
     command_executed := [list_ascii_of_string "ls -l"];
     selection := []; clipboard := [] |}.

Definition fresh_widget : Widget :=
  {| pty := []; input_buffer := []; command_executed := [];
     selection := []; clipboard := [] |}.

(** ** Python lists with an integer index, and [shlex.quote] *)

(** [l[i]]: from the end for a negative [i]; [None] stands for
    [IndexError]. *)
Definition py_index {A : Type} (l : list A) (i : Z) : option A :=
  if (0 <=? i)%Z then nth_error l (Z.to_nat i)
  else if (- Z.of_nat (length l) <=? i)%Z
       then nth_error l (Z.to_nat (Z.of_nat (length l) + i))
       else None.

(** [l[:k]]: all but the last [-k] elements for a negative [k]. *)
Definition py_take {A : Type} (l : list A) (k : Z) : list A :=
  if (0 <=? k)%Z then firstn (Z.to_nat k) l
  else firstn (Z.to_nat (Z.of_nat (length l) + k)) l.

(** The characters [shlex.quote] leaves unquoted: [[A-Za-z0-9_@%+=:,./-]]. *)
Definition shell_safe (c : ascii) : bool :=
  in_range 48 57 c || in_range 65 90 c || in_range 97 122 c
  || existsb (Ascii.eqb c) (list_ascii_of_string "_@%+=:,./-").

(** [s.replace("'", "'\"'\"'")]; the double quote is character 34. *)
Fixpoint replace_quotes (s : list ascii) : list ascii :=
  match s with
  | [] => []
  | c :: s' =>
      if Ascii.eqb c "'"
      then "'" :: "034" :: "'" :: "034" :: "'" :: replace_quotes s'
      else c :: replace_quotes s'
  end.

(** [shlex.quote(s)]. *)
Definition shlex_quote (s : list ascii) : list ascii :=
  match s with
  | [] => ["'"; "'"]
  | _ => if forallb shell_safe s then s
         else "'" :: replace_quotes s ++ ["'"]
  end.

(** ** [TerminalTab]: the directory history and the wiring of the terminal *)

(** What the navigation of a tab reads and writes.  [command_executed] of
    [widget] is also the tab's [command_history]: [_on_command_executed]
    appends every emitted command to it. *)
Record TabState : Type := {
  screen : Terminal;                      (* self.terminal, output side *)
  widget : Widget;                        (* self.terminal, input side *)
  history : list (list ascii);            (* self.history *)
  history_index : Z;                      (* self.history_index *)
  current_directory : list ascii;         (* self.current_directory *)
  directory_changed : list (list ascii);  (* directory_changed.emit calls *)
  location_path : list ascii              (* self.location_bar.set_path *)
}.

Definition set_location (p : list ascii) (st : TabState) : TabState :=
  {| screen := screen st; widget := widget st; history := history st;
     history_index := history_index st;
     current_directory := current_directory st;
     directory_changed := directory_changed st;
     location_path := p |}.

Definition set_history_index (i : Z) (st : TabState) : TabState :=
  {| screen := screen st; widget := widget st; history := history st;
     history_index := i;
     current_directory := current_directory st;
     directory_changed := directory_changed st;
     location_path := location_path st |}.

(** The terminal after [handle_output] has returned: the document and cursor
    it leaves, and the widget's cursor replaced by it. *)
Definition set_screen (t : Terminal) (st : TabState) : TabState :=
  {| screen := t; widget := setTextCursor (widget st);
     history := history st;
     history_index := history_index st;
     current_directory := current_directory st;
     directory_changed := directory_changed st;
     location_path := location_path st |}.

Section Navigation.

(** The file system and the process, as the tab sees them. *)
Variable abspath : list ascii -> list ascii.   (* os.path.abspath *)
Variable isdir : list ascii -> bool.           (* os.path.isdir *)
Variable getcwd : list ascii.                  (* os.getcwd() *)

(** The [if record_history:] block of [set_directory]: the history and the
    index it leaves; [None] stands for [IndexError]. *)
Definition record_directory (directory : list ascii) (st : TabState)
  : option (list (list ascii) * Z) :=
  let i := history_index st in
  let appended :=
    Some (py_take (history st) (i + 1) ++ [directory], (i + 1)%Z) in
  if (0 <=? i)%Z && negb (is_empty (py_take (history st) (i + 1))) then
    match py_index (history st) i with
    | None => None
    | Some entry =>
        if text_eqb entry directory then Some (history st, i) else appended
    end
  else appended.

(** [set_directory]: the value returned and the state left; [None] stands
    for [IndexError]. *)
Definition set_directory (path : list ascii)
  (record_history update_terminal show_error : bool) (st : TabState)
  : option (bool * TabState) :=
  let directory := abspath path in
  if negb (isdir directory) then
    if show_error then
      let i := history_index st in
      let current :=
        if (0 <=? i)%Z && (i <? Z.of_nat (length (history st)))%Z
        then py_index (history st) i
        else Some getcwd in
      match current with
      | Some c => Some (false, set_location c st)
      | None => None
      end
    else Some (false, st)
  else
    match (if record_history then record_directory directory st
           else Some (history st, history_index st)) with
    | None => None
    | Some (h, i) =>
        Some (true,
              {| screen := screen st;
                 widget :=
                   if update_terminal
                   then send_command
                          (list_ascii_of_string "cd " ++ shlex_quote directory)
                          true (widget st)
                   else widget st;
                 history := h;
                 history_index := i;
                 current_directory := directory;
                 directory_changed := directory_changed st ++ [directory];
                 location_path := directory |})
    end.

(** [go_back] and [go_forward]. *)
Definition go_back (st : TabState) : option TabState :=
  if (0 <? history_index st)%Z then
    let st1 := set_history_index (history_index st - 1) st in
    match py_index (history st1) (history_index st1) with
    | None => None
    | Some path => option_map snd (set_directory path false true false st1)
    end
  else Some st.

Definition go_forward (st : TabState) : option TabState :=
  if (history_index st <? Z.of_nat (length (history st)) - 1)%Z then
    let st1 := set_history_index (history_index st + 1) st in
    match py_index (history st1) (history_index st1) with
    | None => None
    | Some path => option_map snd (set_directory path false true false st1)
    end
  else Some st.

(** [_on_breadcrumb_selected] and [open_path] on a directory. *)
Definition on_breadcrumb_selected (path : list ascii) (st : TabState)
  : option TabState :=
  option_map snd (set_directory path true true false st).

(** The [for directory in ...] loop of [TerminalTab.handle_output]. *)
Fixpoint report_directories (dirs : list (list ascii)) (st : TabState)
  : option TabState :=
  match dirs with
  | [] => Some st
  | directory :: dirs' =>
      if isdir directory then
        match set_directory directory true false false st with
        | Some (_, st') => report_directories dirs' st'
        | None => None
        end
      else report_directories dirs' st
  end.

(** [TerminalTab.handle_output]: a failure of [TerminalWidget.handle_output]
    leaves the method before the first directory is looked at. *)
Definition tab_output (s : list ascii) (st : TabState) : Outcome TabState :=
  match handle_output s (screen st) with
  | Returns t' =>
      match extract_directories s with
      | Some dirs =>
          match report_directories dirs (set_screen t' st) with
          | Some st' => Returns st'
          | None => Fails IndexError
          end
      | None => OutOfFuel
      end
  | Fails f => Fails f
  | OutOfFuel => OutOfFuel
  end.

(** [0 <= history_index < len(history)], or nothing recorded yet. *)
Definition history_ok (st : TabState) : Prop :=
  (history st = [] /\ history_index st = (-1)%Z)
  \/ (0 <= history_index st < Z.of_nat (length (history st)))%Z.

End Navigation.

(** No two neighbouring entries are equal. *)
Fixpoint no_repeat (h : list (list ascii)) : Prop :=
  match h with
  | a :: (b :: _) as h' => a <> b /\ no_repeat h'
  | _ => True
  end.

(** The invariant of the history. *)
Definition history_sound (st : TabState) : Prop :=
  history_ok st /\ no_repeat (history st).

(** A tab right after its construction, before the first directory. *)
Definition new_tab_state : TabState :=
  {| screen := empty_terminal; widget := fresh_widget;
     history := []; history_index := (-1)%Z;
     current_directory := []; directory_changed := [];
     location_path := [] |}.

(** A new tab in which the user has selected a piece of the output. *)
Definition selecting_tab : TabState :=
  {| screen := empty_terminal; widget := typing_ls;
     history := []; history_index := (-1)%Z;
     current_directory := []; directory_changed := [];
     location_path := [] |}.

(** A file system for the examples: the directories "/a" and "/b c", with
    every path already absolute. *)
Definition two_directories (p : list ascii) : bool :=
  existsb (text_eqb p)
    [list_ascii_of_string "/a"; list_ascii_of_string "/b c"].

Definition as_given (p : list ascii) : list ascii := p.

(** A tab that went to "/a", then to "/b c". *)
Definition visited_two : TabState :=
  {| screen := empty_terminal; widget := fresh_widget;
     history := [list_ascii_of_string "/a"; list_ascii_of_string "/b c"];
     history_index := 1%Z;
     current_directory := list_ascii_of_string "/b c";
     directory_changed := [];
     location_path := list_ascii_of_string "/b c" |}.

(** ** [VideoPlayerDialog._format_time] of [src/dialogs/video_player.py] *)

(** [str(n)] for a natural number: its decimal digits, ["0"] for zero. *)
Definition decimal (n : nat) : list ascii :=
  list_ascii_of_string
    (DecimalString.NilEmpty.string_of_uint (Nat.to_uint n)).

(** [f"{n:02d}"] for [n >= 0], the only case [_format_time] reaches: the
    decimal digits, filled with zeros on the left up to two characters. *)
Definition format_02d (n : Z) : list ascii :=
  let d := decimal (Z.to_nat n) in
  repeat "0" (2 - length d) ++ d.

(** [//] and [divmod] round to minus infinity, as [Z.div] and [Z.modulo] do
    for a positive divisor; [if hours:] tests for a non-zero number. *)
Definition format_time (milliseconds : Z) : list ascii :=
  let seconds := Z.max (milliseconds / 1000) 0 in
  let (minutes, seconds) := (seconds / 60, seconds mod 60)%Z in
  let (hours, minutes) := (minutes / 60, minutes mod 60)%Z in
  if (hours =? 0)%Z
  then format_02d minutes ++ ":" :: format_02d seconds
  else format_02d hours ++ ":" :: format_02d minutes
         ++ ":" :: format_02d seconds.

(** ** The tab bar of [TerminalApp]: [new_tab], [_on_tab_changed],
       [_placeholder_index], [_actual_tab_count] and [close_tab]

    The pages of the [QTabWidget] are the terminal tabs and the page that
    shows a plus sign, [self._new_tab_placeholder]; a page is identified by
    a number that stands for the Python object. *)

Inductive Page : Type :=
  | NewTabPlaceholder
  | TerminalTab (id : nat).

Definition page_eqb (p q : Page) : bool :=
  match p, q with
  | NewTabPlaceholder, NewTabPlaceholder => true
  | TerminalTab a, TerminalTab b => (a =? b)%nat
  | _, _ => false
  end.

Definition is_terminal_tab (p : Page) : bool :=
  match p with
  | TerminalTab _ => true
  | NewTabPlaceholder => false
  end.

(** [QTabWidget.widget]: no page for an index out of range. *)
Definition widget_at (pages : list Page) (index : Z) : option Page :=
  if (index <? 0)%Z then None else nth_error pages (Z.to_nat index).

(** [QTabWidget.indexOf]: -1 when the page is not there. *)
Fixpoint indexOf (w : Page) (pages : list Page) : Z :=
  match pages with
  | [] => -1
  | p :: rest =>
      if page_eqb p w then 0
      else let i := indexOf w rest in
           if (i =? -1)%Z then -1 else i + 1
  end%Z.

(** [QTabWidget.removeTab]: nothing for an index out of range. *)
Definition removeTab (index : Z) (pages : list Page) : list Page :=
  if (index <? 0)%Z then pages
  else firstn (Z.to_nat index) pages ++ skipn (S (Z.to_nat index)) pages.

(** [QTabWidget.insertTab]: an index out of range appends; the result is
    the index of the new page. *)
Definition insertTab (index : Z) (w : Page) (pages : list Page)
  : list Page * Z :=
  if ((index <? 0) || (Z.of_nat (length pages) <? index))%Z
  then (pages ++ [w], Z.of_nat (length pages))
  else (firstn (Z.to_nat index) pages ++ w :: skipn (Z.to_nat index) pages,
        index).

(** [self._new_tab_placeholder] is set in [__init__], before any of these
    methods runs, so the [hasattr] test holds. *)
Definition placeholder_index (pages : list Page) : Z :=
  indexOf NewTabPlaceholder pages.

Definition actual_tab_count (pages : list Page) : Z :=
  let count := Z.of_nat (length pages) in
  if (placeholder_index pages =? -1)%Z then count else (count - 1)%Z.

(** The loop [for j in range(self.tabs.count())] of [close_tab]: the first
    index that holds a terminal tab. *)
Fixpoint first_terminal_tab (j : Z) (pages : list Page) : option Z :=
  match pages with
  | [] => None
  | p :: rest =>
      if is_terminal_tab p then Some j
      else first_terminal_tab (j + 1) rest
  end.

(** What a method does to the tab widget: the pages it leaves, the index it
    gives to [setCurrentIndex] and the flag it gives to [setTabsClosable],
    [None] when it makes no such call.  Starting and shutting down the shell
    of a tab are left out. *)
Record TabsUpdate : Type := mkTabsUpdate {
  pages_after : list Page;
  set_current : option Z;
  set_closable : option bool
}.

(** [_update_tab_close_buttons]. *)
Definition update_tab_close_buttons (pages : list Page) : bool :=
  (1 <? actual_tab_count pages)%Z.

(** [new_tab], with [tab] the [TerminalTab] object that it creates.  A
    placeholder that is missing is made anew and added at the end. *)
Definition new_tab (tab : nat) (pages : list Page) : TabsUpdate :=
  let (pages, placeholder) :=
    if (placeholder_index pages =? -1)%Z
    then (pages ++ [NewTabPlaceholder], Z.of_nat (length pages))
    else (pages, placeholder_index pages) in
  let (pages, index) := insertTab placeholder (TerminalTab tab) pages in
  {| pages_after := pages;
     set_current := Some index;
     set_closable := Some (update_tab_close_buttons pages) |}.

(** [_on_tab_changed]: choosing the placeholder opens a tab. *)
Definition on_tab_changed (index : Z) (tab : nat) (pages : list Page)
  : TabsUpdate :=
  match widget_at pages index with
  | Some NewTabPlaceholder => new_tab tab pages
  | _ => {| pages_after := pages; set_current := None;
            set_closable := None |}
  end.

Definition close_tab (index : Z) (pages : list Page) : TabsUpdate :=
  let unchanged :=
    {| pages_after := pages; set_current := None; set_closable := None |} in
  let page := widget_at pages index in
  match page with
  | Some NewTabPlaceholder => unchanged
  | _ =>
      if (actual_tab_count pages <=? 1)%Z then unchanged
      else
        let pages' :=
          match page with
          | Some (TerminalTab id) =>
              let real_index := indexOf (TerminalTab id) pages in
              if negb (real_index =? -1)%Z then removeTab real_index pages
              else removeTab index pages
          | _ => removeTab index pages
          end in
        {| pages_after := pages';
           set_current := first_terminal_tab 0 pages';
           set_closable := Some (update_tab_close_buttons pages') |}
  end.

(** The tab widget as [__init__] leaves it: the placeholder is added, then
    [new_tab] runs once. *)
Definition initial_pages (tab : nat) : list Page :=
  pages_after (new_tab tab [NewTabPlaceholder]).

(** The events that change the tab widget, each with the object of the tab
    that [new_tab] would create. *)
Inductive TabEvent : Type :=
  | NewTab (tab : nat)
  | TabChanged (index : Z) (tab : nat)
  | CloseTab (index : Z).

Definition tab_event (e : TabEvent) (pages : list Page) : TabsUpdate :=
  match e with
  | NewTab tab => new_tab tab pages
  | TabChanged index tab => on_tab_changed index tab pages
  | CloseTab index => close_tab index pages
  end.

Definition run_tab_events (es : list TabEvent) (pages : list Page)
  : list Page :=
  fold_left (fun pages e => pages_after (tab_event e pages)) es pages.

(** The terminal tabs left of the placeholder, which is the last page. *)
Definition tabs_then_placeholder (ids : list nat) : list Page :=
  map TerminalTab ids ++ [NewTabPlaceholder].

(** The object of the tab that an event creates when it opens one. *)
Definition created_by (e : TabEvent) : list nat :=
  match e with
  | NewTab tab | TabChanged _ tab => [tab]
  | CloseTab _ => []
  end.

Definition created (es : list TabEvent) : list nat :=
  flat_map created_by es.

Definition three_tabs : list nat := [1; 2; 3]%nat.

(** ** [TerminalTab._unique_destination]

    The method answers a path of [directory]; the model answers the name
    inside [directory].  What [pathlib] and the file system say is taken as
    given: [path_exists n] is [(directory / n).exists()], [path_name] is
    [Path(name).name] and [path_suffixes] is [Path(name).suffixes]. *)

Section UniqueDestination.

Variable path_exists : list ascii -> bool.
Variable path_name : list ascii -> list ascii.
Variable path_suffixes : list ascii -> list (list ascii).

(** [f"{stem} ({counter}){suffixes}"]. *)
Definition numbered_name (stem suffixes : list ascii) (counter : nat)
  : list ascii :=
  stem ++ list_ascii_of_string " (" ++ decimal counter ++ ")" :: suffixes.

(** The loop [while True]; [None] when the fuel runs out. *)
Fixpoint unique_loop (fuel counter : nat) (stem suffixes : list ascii)
  : option (list ascii) :=
  match fuel with
  | O => None
  | S fuel' =>
      let new_name := numbered_name stem suffixes counter in
      if negb (path_exists new_name) then Some new_name
      else unique_loop fuel' (S counter) stem suffixes
  end.

Definition joined_suffixes (name : list ascii) : list ascii :=
  concat (path_suffixes name).

Definition stem_of (name : list ascii) : list ascii :=
  let suffixes := joined_suffixes name in
  if negb (is_empty suffixes)
  then py_take (path_name name) (- Z.of_nat (length suffixes))
  else path_name name.

Definition unique_destination (fuel : nat) (name : list ascii)
  : option (list ascii) :=
  if negb (path_exists name) then Some name
  else unique_loop fuel 1 (stem_of name) (joined_suffixes name).

End UniqueDestination.

(** A directory for the examples: [path_exists] looks a name up in the list
    of entries, and the suffixes of a name are those that [pathlib] gives,
    the pieces behind the leading dots of the name that start with a dot,
    none when the name ends with a dot. *)
Definition listed (entries : list (list ascii)) (n : list ascii) : bool :=
  existsb (text_eqb n) entries.

Definition suffixes_of_name (name : list ascii) : list (list ascii) :=
  match rev name with
  | "." :: _ => []
  | _ => map (cons ".") (tl (split_on "." (lstrip (Ascii.eqb ".") name)))
  end.

Definition notes_and_copy : list (list ascii) :=
  [list_ascii_of_string "notes.tar.gz";
   list_ascii_of_string "notes (1).tar.gz"].

(** ** [TerminalApp._tab_title] and [_on_directory_changed] *)

(** [s.rfind(c)]: the last index of [c] in [s], -1 when there is none. *)
Fixpoint rfind (c : ascii) (s : list ascii) : Z :=
  match s with
  | [] => -1
  | x :: rest =>
      let i := rfind c rest in
      if (i =? -1)%Z then (if Ascii.eqb x c then 0 else -1) else i + 1
  end%Z.

(** [os.path.basename] of [posixpath]: [p[p.rfind("/") + 1:]]. *)
Definition basename (p : list ascii) : list ascii :=
  let i := (rfind "/" p + 1)%Z in
  skipn (Z.to_nat i) p.

(** The text that both methods give to a tab for the path [path],
    [(os.path.basename(path) or path) or "Terminal"]. *)
Definition tab_title (path : list ascii) : list ascii :=
  let name :=
    if negb (is_empty (basename path)) then basename path else path in
  if negb (is_empty name) then name else list_ascii_of_string "Terminal".

(** ** [TerminalTab.apply_permission_preset] *)

(** The modes of the menu built by [_add_permissions_menu]: 0o600, 0o666,
    0o700, 0o755 and 0o444. *)
Definition permission_presets : list Z := [384; 438; 448; 493; 292]%Z.

(** [(current_mode & ~0o777) | mode]. *)
Definition new_mode (current_mode mode : Z) : Z :=
  Z.lor (Z.land current_mode (Z.lnot 511)) mode.

Inductive PermissionResult : Type :=
  | LinkNotSupported
  | PermissionsFailed
  | PermissionsUpdated (mode : Z).

(** [islink] is [os.path.islink(path)], [st_mode] the mode that [os.stat]
    reads and [chmod_ok] whether [os.chmod] succeeds; [None] and [false]
    stand for [OSError].  The result names the message box shown and, when
    the mode was changed, the mode given to [os.chmod]. *)
Definition apply_permission_preset (islink : bool) (st_mode : option Z)
  (chmod_ok : bool) (mode : Z) : PermissionResult :=
  if islink then LinkNotSupported
  else match st_mode with
       | None => PermissionsFailed
       | Some current_mode =>
           if chmod_ok then PermissionsUpdated (new_mode current_mode mode)
           else PermissionsFailed
       end.

(** ** [TerminalTab._git_root_for_path] *)

(** [s.rstrip("/")]. *)
Definition rstrip_slash (s : list ascii) : list ascii :=
  rev (lstrip (Ascii.eqb "/") (rev s)).

(** [os.path.dirname] of [posixpath]: the path up to its last slash, without
    the slashes at its end unless it consists of slashes only. *)
Definition dirname (p : list ascii) : list ascii :=
  let i := (rfind "/" p + 1)%Z in
  let head := firstn (Z.to_nat i) p in
  if negb (is_empty head)
     && negb (text_eqb head (repeat "/" (length head)))
  then rstrip_slash head
  else head.

(** [os.path.join(a, b)] of [posixpath] for two components. *)
Definition path_join (a b : list ascii) : list ascii :=
  if starts_with ["/"] b then b
  else if is_empty a || starts_with ["/"] (rev a) then a ++ b
  else a ++ "/" :: b.

Definition dot_git : list ascii := list_ascii_of_string ".git".

Section GitRoot.

Variable abspath : list ascii -> list ascii.   (* os.path.abspath *)
Variable isfile : list ascii -> bool.          (* os.path.isfile *)
Variable isdir : list ascii -> bool.           (* os.path.isdir *)

(** The loop [while True]: [Some (Some root)] for [return candidate],
    [Some None] for [return None] after [break], [None] when the fuel runs
    out. *)
Fixpoint git_root_loop (fuel : nat) (candidate : list ascii)
  : option (option (list ascii)) :=
  match fuel with
  | O => None
  | S fuel' =>
      if isdir (path_join candidate dot_git) then Some (Some candidate)
      else
        let parent := dirname candidate in
        if text_eqb parent candidate then Some None
        else git_root_loop fuel' parent
  end.

Definition start_of_search (path : list ascii) : list ascii :=
  let candidate := abspath path in
  if isfile candidate then dirname candidate else candidate.

Definition git_root_for_path (fuel : nat) (path : list ascii)
  : option (option (list ascii)) :=
  git_root_loop fuel (start_of_search path).

End GitRoot.

(** * Properties *)

(** ** Lists around the cursor *)

Section AroundCursor.

Variables (pre post : list qchar).

Lemma firstn_pre (q : list qchar) : firstn (length pre) (pre ++ q) = pre.
Proof.
  rewrite firstn_app, Nat.sub_diag, firstn_all. cbn. apply app_nil_r.
Qed.

Lemma skipn_pre (q : list qchar) : skipn (length pre) (pre ++ q) = q.
Proof.
  rewrite skipn_app, Nat.sub_diag, skipn_all. reflexivity.
Qed.

Lemma skipn_S_pre (q : qchar) :
  skipn (S (length pre)) (pre ++ q :: post) = post.
Proof.
  replace (S (length pre)) with (length (pre ++ [q]))
    by (rewrite length_app; cbn; lia).
  replace (pre ++ q :: post) with ((pre ++ [q]) ++ post)
    by (rewrite <- app_assoc; reflexivity).
  rewrite skipn_app, Nat.sub_diag, skipn_all. reflexivity.
Qed.

Lemma nth_error_pre (q : qchar) :
  nth_error (pre ++ q :: post) (length pre) = Some q.
Proof.
  rewrite nth_error_app2 by lia. rewrite Nat.sub_diag. reflexivity.
Qed.

Lemma nth_error_pre_end : nth_error pre (length pre) = None.
Proof. apply nth_error_None. lia. Qed.

Lemma removeRange_one (q : qchar) :
  removeRange (pre ++ q :: post) (length pre) (S (length pre)) = pre ++ post.
Proof.
  unfold removeRange. rewrite firstn_pre, skipn_S_pre. reflexivity.
Qed.

Lemma insertAt_pre (q : qchar) :
  insertAt (pre ++ post) (length pre) q = pre ++ q :: post.
Proof.
  unfold insertAt. rewrite firstn_pre, skipn_pre. reflexivity.
Qed.

End AroundCursor.

(** The lines shown by the document built from given lines are those lines. *)
Lemma blocks_doc_of_blocks (bs : list (list ascii)) :
  bs <> [] -> blocks (doc_of_blocks bs) = bs.
Proof.
  induction bs as [|b bs IH]; intros Hne; [contradiction|].
  destruct bs as [|b' bs].
  - clear. cbn. induction b as [|c b IHb]; cbn; [reflexivity|].
    now rewrite IHb.
  - assert (IH' : blocks (doc_of_blocks (b' :: bs)) = b' :: bs)
      by (apply IH; discriminate).
    change (doc_of_blocks (b :: b' :: bs))
      with (map QChar b ++ ParSep :: doc_of_blocks (b' :: bs)).
    induction b as [|c b IHb]; cbn [map app blocks].
    + now rewrite IH'.
    + now rewrite IHb.
Qed.

Lemma run_length_le (l : list qchar) : run_length l <= length l.
Proof.
  induction l as [|[c|] l IH]; cbn; lia.
Qed.

Lemma run_length_chars (b : list ascii) (l : list qchar) :
  run_length (map QChar b ++ l) = length b + run_length l.
Proof.
  induction b as [|c b IH]; cbn; [reflexivity | now rewrite IH].
Qed.

(** Every prefix ends in a run of characters that starts at the start of the
    cursor's block. *)
Lemma block_prefix (a : list qchar) :
  exists (a1 : list qchar) (b : list ascii),
    a = a1 ++ map QChar b /\ run_length (rev a) = length b.
Proof.
  induction a as [|q a IH] using rev_ind.
  - exists [], []. split; reflexivity.
  - rewrite rev_app_distr. cbn [rev app].
    destruct q as [c|].
    + destruct IH as (a1 & b & -> & Hrun).
      exists a1, (b ++ [c]). split.
      * rewrite map_app, app_assoc. reflexivity.
      * cbn. rewrite Hrun, length_app. cbn. lia.
    + exists (a ++ [ParSep]), []. split.
      * cbn. now rewrite app_nil_r.
      * reflexivity.
Qed.

Lemma firstn_skipn_length (d : list qchar) (p : nat) :
  p <= length d -> length (firstn p d) = p.
Proof. intros H. rewrite length_firstn. lia. Qed.

(** The end of the block is the same from the cursor and from the start of
    its block. *)
Lemma endOfBlock_startOfBlock (d : list qchar) (p : nat) :
  p <= length d -> endOfBlock d (startOfBlock d p) = endOfBlock d p.
Proof.
  intros Hp. unfold endOfBlock, startOfBlock.
  destruct (block_prefix (firstn p d)) as (a1 & b & Hsplit & Hrun).
  rewrite Hrun.
  assert (Hlen : p = length a1 + length b).
  { rewrite <- (firstn_skipn_length d p Hp), Hsplit, length_app, length_map.
    reflexivity. }
  assert (Hd : d = a1 ++ map QChar b ++ skipn p d).
  { rewrite app_assoc, <- Hsplit. symmetry. apply firstn_skipn. }
  replace (p - length b) with (length a1) by lia.
  rewrite Hd at 1. rewrite skipn_pre, run_length_chars. lia.
Qed.

Lemma run_length_skipn (l : list qchar) :
  run_length (skipn (run_length l) l) = 0.
Proof.
  induction l as [|[c|] l IH]; cbn; auto.
Qed.

Lemma skipn_add {A : Type} (n m : nat) (l : list A) :
  skipn (n + m) l = skipn m (skipn n l).
Proof.
  revert l. induction n as [|n IH]; intros l; cbn; [reflexivity|].
  destruct l; [now rewrite skipn_nil | apply IH].
Qed.

(** What a line feed leaves behind: the cursor in a fresh, empty block. *)
Lemma line_feed_fresh_line (t : Terminal) :
  well_formed t ->
  let t' := insertBlock (cursor_to_line_end t) in
  cursor_column t' = 0 /\ current_line t' = [] /\ well_formed t'.
Proof.
  intros Hwf. cbn zeta.
  destruct t as [d p]. unfold well_formed in Hwf. cbn in Hwf.
  unfold cursor_column, current_line, insertBlock, cursor_to_line_end,
    well_formed.
  cbn [document position].
  set (e := endOfBlock d p).
  assert (He : e <= length d).
  { unfold e, endOfBlock.
    pose proof (run_length_le (skipn p d)) as H.
    rewrite length_skipn in H. lia. }
  assert (Hfirst : length (firstn e d) = e) by (apply firstn_skipn_length, He).
  assert (Hstart : startOfBlock (insertAt d e ParSep) (S e) = S e).
  { unfold startOfBlock, insertAt.
    replace (S e) with (length (firstn e d ++ [ParSep]))
      by (rewrite length_app; cbn; lia).
    replace (firstn e d ++ ParSep :: skipn e d)
      with ((firstn e d ++ [ParSep]) ++ skipn e d)
      by (rewrite <- app_assoc; reflexivity).
    rewrite firstn_pre, rev_app_distr. cbn. lia. }
  assert (Hend : endOfBlock (insertAt d e ParSep) (S e) = S e).
  { unfold endOfBlock at 1. unfold insertAt.
    replace (skipn (S e) (firstn e d ++ ParSep :: skipn e d))
      with (skipn e d)
      by (rewrite <- Hfirst at 2; now rewrite skipn_S_pre).
    unfold e, endOfBlock. rewrite skipn_add, run_length_skipn. lia. }
  rewrite Hstart, Hend. repeat split.
  - lia.
  - now rewrite Nat.sub_diag.
  - unfold insertAt. rewrite length_app. cbn.
    rewrite Hfirst, length_skipn. lia.
Qed.

(** C5: for every starting state, the fragment CR LF gives the same
    document and cursor as the fragment LF alone, and that result is a fresh
    empty line with the cursor at its column 0. *)
Theorem crlf_same_as_lf (t : Terminal) :
  well_formed t ->
  handle_output [CR; LF] t = handle_output [LF] t
  /\ exists t', handle_output [LF] t = Returns t'
       /\ cursor_column t' = 0 /\ current_line t' = [].
Proof.
  intros Hwf. split.
  - change (Returns (insertBlock (cursor_to_line_end (cursor_to_line_start t)))
            = Returns (insertBlock (cursor_to_line_end t))).
    do 2 f_equal.
    unfold cursor_to_line_end, cursor_to_line_start. cbn [document position].
    now rewrite endOfBlock_startOfBlock.
  - exists (insertBlock (cursor_to_line_end t)). split; [reflexivity|].
    destruct (line_feed_fresh_line t Hwf) as (Hc & Hl & _). now split.
Qed.

Lemma crlf_same_as_lf_witness :
  let t := mkTerminal (doc_of_lines ["abc"; "de"]%string) 2 in
  well_formed t
  /\ handle_output [CR; LF] t = handle_output [LF] t
  /\ exists t', handle_output [LF] t = Returns t'
       /\ cursor_column t' = 0 /\ current_line t' = [].
Proof.
  cbn zeta. split.
  - unfold well_formed. cbn. lia.
  - apply (crlf_same_as_lf (mkTerminal (doc_of_lines ["abc"; "de"]%string) 2)).
    unfold well_formed. cbn. lia.
Defined.

(** ** One iteration of the loop, by the kind of the first character *)

Lemma plain_step (c : ascii) (fuel : nat) (rest : list ascii) (t : Terminal) :
  is_plain c = true ->
  handle_loop (S fuel) (c :: rest) t = handle_loop fuel rest (write_char c t).
Proof.
  unfold is_plain. intros H. cbn [handle_loop].
  destruct (Ascii.eqb c CR); [discriminate|].
  destruct (Ascii.eqb c LF); [discriminate|].
  destruct (is_backspace c); [discriminate|].
  destruct (Ascii.eqb c BEL); [discriminate|].
  destruct (Ascii.eqb c ESC); [discriminate|].
  reflexivity.
Qed.

Lemma backspace_not_cr_lf (c : ascii) :
  is_backspace c = true -> Ascii.eqb c CR = false /\ Ascii.eqb c LF = false.
Proof.
  unfold is_backspace. intros H.
  apply orb_true_iff in H. destruct H as [H|H];
    apply Ascii.eqb_eq in H; subst c; split; reflexivity.
Qed.

Lemma backspace_alone (c : ascii) (t : Terminal) :
  is_backspace c = true -> handle_output [c] t = Returns (backspace t).
Proof.
  intros H. destruct (backspace_not_cr_lf c H) as [Hcr Hlf].
  unfold handle_output. cbn [length handle_loop].
  now rewrite Hcr, Hlf, H.
Qed.

(** ** Overwrite at the cursor *)

Lemma cursor_at (pre post : list qchar) :
  cursor_line (mkTerminal (pre ++ post) (length pre))
  = length (filter is_sep pre)
  /\ cursor_column (mkTerminal (pre ++ post) (length pre))
     = run_length (rev pre).
Proof.
  unfold cursor_line, cursor_column, startOfBlock, mkTerminal.
  cbn [document position]. rewrite firstn_pre. split; [reflexivity|].
  pose proof (run_length_le (rev pre)) as H. rewrite length_rev in H. lia.
Qed.

(** The line and the column of the cursor once [c] stands before it. *)
Lemma cursor_behind_char (pre post : list qchar) (c : ascii) :
  cursor_line (mkTerminal (pre ++ QChar c :: post) (S (length pre)))
  = length (filter is_sep pre)
  /\ cursor_column (mkTerminal (pre ++ QChar c :: post) (S (length pre)))
     = S (run_length (rev pre)).
Proof.
  replace (S (length pre)) with (length (pre ++ [QChar c]))
    by (rewrite length_app; cbn; lia).
  replace (pre ++ QChar c :: post) with ((pre ++ [QChar c]) ++ post)
    by (rewrite <- app_assoc; reflexivity).
  destruct (cursor_at (pre ++ [QChar c]) post) as [Hl Hc].
  rewrite Hl, Hc, filter_app, rev_app_distr. cbn.
  rewrite app_nil_r. split; reflexivity.
Qed.

(** C6: a printable character written on an existing character of the line
    replaces it in place, nothing is shifted, and the cursor advances one
    column on the same line; written where the line's content ends (before a
    line break or at the end of the document) it is appended.  From the line
    "abc" with the cursor at column 1, writing "Z" gives "aZc" with the
    cursor at column 2. *)
Theorem write_overwrites_in_place :
  (forall c : ascii, is_plain c = true ->
     (forall (pre post : list qchar) (x : ascii),
        let t := mkTerminal (pre ++ QChar x :: post) (length pre) in
        exists t', handle_output [c] t = Returns t'
          /\ document t' = pre ++ QChar c :: post
          /\ cursor_line t' = cursor_line t
          /\ cursor_column t' = S (cursor_column t))
     /\ (forall pre post : list qchar, run_length post = 0 ->
        let t := mkTerminal (pre ++ post) (length pre) in
        exists t', handle_output [c] t = Returns t'
          /\ document t' = pre ++ QChar c :: post
          /\ cursor_line t' = cursor_line t
          /\ cursor_column t' = S (cursor_column t)))
  /\ exists t',
       handle_output ["Z"] (mkTerminal (doc_of_lines ["abc"%string]) 1)
       = Returns t'
       /\ lines t' = ["aZc"%string]
       /\ cursor_line t' = 0 /\ cursor_column t' = 2.
Proof.
  split.
  - intros c Hc. split.
    + intros pre post x t.
      exists (mkTerminal (pre ++ QChar c :: post) (S (length pre))).
      destruct (cursor_at pre (QChar x :: post)) as [Hl Hcol].
      destruct (cursor_behind_char pre post c) as [Hl' Hcol'].
      unfold t. rewrite Hl, Hcol, Hl', Hcol'.
      split; [|repeat split].
      unfold handle_output. cbn [length].
      rewrite plain_step by exact Hc. cbn [handle_loop].
      unfold write_char, insertText, mkTerminal. cbn [document position].
      rewrite nth_error_pre, removeRange_one, insertAt_pre. reflexivity.
    + intros pre post Hpost t.
      exists (mkTerminal (pre ++ QChar c :: post) (S (length pre))).
      destruct (cursor_at pre post) as [Hl Hcol].
      destruct (cursor_behind_char pre post c) as [Hl' Hcol'].
      unfold t. rewrite Hl, Hcol, Hl', Hcol'.
      split; [|repeat split].
      unfold handle_output. cbn [length].
      rewrite plain_step by exact Hc. cbn [handle_loop].
      unfold write_char, insertText, mkTerminal. cbn [document position].
      assert (Hd : match nth_error (pre ++ post) (length pre) with
                   | Some (QChar _) =>
                       removeRange (pre ++ post) (length pre) (S (length pre))
                   | _ => pre ++ post
                   end = pre ++ post).
      { destruct post as [|[x|] post].
        - rewrite app_nil_r, nth_error_pre_end. reflexivity.
        - discriminate Hpost.
        - rewrite nth_error_pre. reflexivity. }
      rewrite Hd, insertAt_pre. reflexivity.
  - eexists. split; [reflexivity|]. repeat split.
Qed.

Lemma write_overwrites_in_place_witness :
  is_plain "Z" = true
  /\ (exists t',
        handle_output ["Z"]
          (mkTerminal ([QChar "a"] ++ QChar "b" :: [QChar "c"])
                      (length [QChar "a"])) = Returns t'
        /\ document t' = [QChar "a"] ++ QChar "Z" :: [QChar "c"]
        /\ cursor_line t'
           = cursor_line (mkTerminal ([QChar "a"] ++ QChar "b" :: [QChar "c"])
                                     (length [QChar "a"]))
        /\ cursor_column t'
           = S (cursor_column
                  (mkTerminal ([QChar "a"] ++ QChar "b" :: [QChar "c"])
                              (length [QChar "a"]))))
  /\ run_length [ParSep; QChar "d"] = 0
  /\ (exists t',
        handle_output ["Z"]
          (mkTerminal ([QChar "a"] ++ [ParSep; QChar "d"])
                      (length [QChar "a"])) = Returns t'
        /\ document t' = [QChar "a"] ++ QChar "Z" :: [ParSep; QChar "d"]
        /\ cursor_line t'
           = cursor_line (mkTerminal ([QChar "a"] ++ [ParSep; QChar "d"])
                                     (length [QChar "a"]))
        /\ cursor_column t'
           = S (cursor_column
                  (mkTerminal ([QChar "a"] ++ [ParSep; QChar "d"])
                              (length [QChar "a"])))).
Proof.
  split; [reflexivity|]. split; [|split; [reflexivity|]].
  - apply (proj1 (proj1 write_overwrites_in_place "Z" eq_refl)
             [QChar "a"] [QChar "c"] "b").
  - apply (proj2 (proj1 write_overwrites_in_place "Z" eq_refl)
             [QChar "a"] [ParSep; QChar "d"] eq_refl).
Defined.

(** ** Backspace and DEL *)

Lemma firstn_S_pre (pre post : list qchar) (q : qchar) :
  firstn (S (length pre)) (pre ++ q :: post) = pre ++ [q].
Proof.
  replace (S (length pre)) with (length (pre ++ [q]))
    by (rewrite length_app; cbn; lia).
  replace (pre ++ q :: post) with ((pre ++ [q]) ++ post)
    by (rewrite <- app_assoc; reflexivity).
  apply firstn_pre.
Qed.

Lemma column_behind (pre post : list qchar) (q : qchar) :
  cursor_column (mkTerminal (pre ++ q :: post) (S (length pre))) = 0
  <-> q = ParSep.
Proof.
  unfold cursor_column, startOfBlock, mkTerminal. cbn [document position].
  rewrite firstn_S_pre, rev_app_distr. cbn [rev app].
  destruct q as [x|]; cbn [run_length]; split; intros H;
    try reflexivity; try discriminate; lia.
Qed.

(** C2, as the code has it: at column 0 of a line that is not the first one
    a backspace removes the line break and joins the two lines. *)
Lemma backspace_at_column_0_joins_lines :
  let t := mkTerminal (doc_of_lines ["ab"; "cd"]%string) 3 in
  well_formed t
  /\ cursor_line t = 1 /\ cursor_column t = 0
  /\ lines t = ["ab"; "cd"]%string
  /\ exists t', handle_output [BS] t = Returns t'
       /\ lines t' = ["abcd"]%string
       /\ lines t' <> lines t.
Proof.
  cbn zeta. split; [unfold well_formed; cbn; lia|].
  repeat split.
  eexists. split; [reflexivity|]. split; [reflexivity|]. discriminate.
Qed.

(** C2, amended: a backspace or DEL removes the element right before the
    cursor whenever the cursor's position in the document is greater than 0.
    That element is a character of the cursor's line when the column is
    greater than 0, and the line break before the line when the column is 0,
    in which case the line is joined to the one before it.  Only at position
    0, column 0 of the first line, the document stays as it is. *)
Theorem backspace_deletes_before_cursor (c : ascii) :
  is_backspace c = true ->
  (forall (pre post : list qchar) (q : qchar),
     handle_output [c] (mkTerminal (pre ++ q :: post) (S (length pre)))
     = Returns (mkTerminal (pre ++ post) (length pre))
     /\ (cursor_column (mkTerminal (pre ++ q :: post) (S (length pre))) = 0
         <-> q = ParSep))
  /\ (forall d : list qchar,
        handle_output [c] (mkTerminal d 0) = Returns (mkTerminal d 0)).
Proof.
  intros Hc. split.
  - intros pre post q. split; [|apply column_behind].
    rewrite backspace_alone by exact Hc.
    unfold backspace, deletePreviousChar, mkTerminal.
    cbn [document position Nat.ltb Nat.leb].
    now rewrite removeRange_one.
  - intros d. rewrite backspace_alone by exact Hc. reflexivity.
Qed.

Lemma backspace_deletes_before_cursor_witness :
  is_backspace DEL = true
  /\ handle_output [DEL]
       (mkTerminal ([QChar "a"] ++ ParSep :: [QChar "b"])
                   (S (length [QChar "a"])))
     = Returns (mkTerminal ([QChar "a"] ++ [QChar "b"]) (length [QChar "a"])).
Proof.
  split; [reflexivity|].
  apply (proj1 (backspace_deletes_before_cursor DEL eq_refl)).
Defined.

(** ** A directory report inside a fragment *)

(** C7: on the fragment "a" ESC "]1337;CurrentDir=/tmp/x" BEL "b" the
    extractor returns the one directory "/tmp/x", and the interpreter,
    started on the empty document, leaves the single line "ab": no character
    of the OSC sequence is rendered. *)
Theorem report_is_extracted_and_not_rendered :
  extract_directories report_fragment
  = Some [list_ascii_of_string "/tmp/x"]
  /\ exists t', handle_output report_fragment empty_terminal = Returns t'
       /\ lines t' = ["ab"%string]
       /\ document t' = [QChar "a"; QChar "b"]
       /\ position t' = 2.
Proof.
  split; [reflexivity|].
  eexists. split; [reflexivity|]. repeat split.
Qed.

(** ** The input side *)

(** C9: [send_command] with [add_newline] false writes the encoded command,
    with nothing appended, in one [os.write], and emits no
    [command_executed] signal; the input buffer stays as it is.  This holds
    for every command, with or without a final line feed. *)
Theorem send_command_without_newline (command : list ascii) (w : Widget) :
  pty (send_command command false w) = pty w ++ [encode command]
  /\ command_executed (send_command command false w) = command_executed w
  /\ input_buffer (send_command command false w) = input_buffer w.
Proof.
  unfold send_command. cbn [andb]. rewrite app_nil_r.
  repeat split.
Qed.

(** C10: when the event matches the copy binding and text is selected,
    nothing is written to the PTY and the input buffer is left as it is; the
    selected text goes to the clipboard.  Without a selection the byte 0x03
    is written and the input buffer is cleared.  No command is recorded in
    either case. *)
Theorem copy_or_interrupt (event : QKeyEvent) (w : Widget) :
  matches_copy event = true ->
  (selection w <> [] ->
     pty (keyPressEvent event w) = pty w
     /\ input_buffer (keyPressEvent event w) = input_buffer w
     /\ clipboard (keyPressEvent event w) = selection w
     /\ command_executed (keyPressEvent event w) = command_executed w)
  /\ (selection w = [] ->
     pty (keyPressEvent event w) = pty w ++ [[Byte.x03]]
     /\ input_buffer (keyPressEvent event w) = []
     /\ command_executed (keyPressEvent event w) = command_executed w).
Proof.
  intros Hcopy. unfold keyPressEvent. rewrite Hcopy. split.
  - intros Hsel. destruct (selection w) as [|c s] eqn:E; [congruence|].
    cbn. rewrite E. repeat split.
  - intros ->. cbn. repeat split.
Qed.

Lemma copy_or_interrupt_witness :
  matches_copy ctrl_c = true
  /\ selection typing_ls <> []
  /\ pty (keyPressEvent ctrl_c typing_ls) = pty typing_ls
  /\ input_buffer (keyPressEvent ctrl_c typing_ls) = input_buffer typing_ls
  /\ clipboard (keyPressEvent ctrl_c typing_ls) = selection typing_ls
  /\ command_executed (keyPressEvent ctrl_c typing_ls)
     = command_executed typing_ls.
Proof.
  split; [reflexivity|]. split; [discriminate|].
  apply (proj1 (copy_or_interrupt ctrl_c typing_ls eq_refl)). discriminate.
Defined.

(** ** The command buffer *)


Lemma control_free_app (a b : list ascii) :
  control_free a -> control_free b -> control_free (a ++ b).
Proof.
  unfold control_free. intros Ha Hb. apply Forall_app. now split.
Qed.

Lemma control_free_removelast (a : list ascii) :
  control_free a -> control_free (removelast a).
Proof.
  unfold control_free. induction a as [|c a IH]; intros H; [constructor|].
  inversion H as [|? ? Hc Ha]; subst.
  destruct a as [|c' a]; [constructor|].
  change (removelast (c :: c' :: a)) with (c :: removelast (c' :: a)).
  constructor; [exact Hc | apply IH, Ha].
Qed.

Lemma input_buffer_record_command (command : list ascii) (w : Widget) :
  input_buffer (record_command command w) = input_buffer w.
Proof.
  unfold record_command.
  destruct (strip_with py_isspace command); reflexivity.
Qed.

Lemma input_buffer_super_keyPressEvent (event : QKeyEvent) (w : Widget) :
  input_buffer (super_keyPressEvent event w) = input_buffer w.
Proof.
  unfold super_keyPressEvent.
  destruct (inherited event (selection w) (clipboard w)); reflexivity.
Qed.

Lemma pty_super_keyPressEvent (event : QKeyEvent) (w : Widget) :
  pty (super_keyPressEvent event w) = pty w.
Proof.
  unfold super_keyPressEvent.
  destruct (inherited event (selection w) (clipboard w)); reflexivity.
Qed.

Lemma command_executed_super_keyPressEvent (event : QKeyEvent)
    (w : Widget) :
  command_executed (super_keyPressEvent event w) = command_executed w.
Proof.
  unfold super_keyPressEvent.
  destruct (inherited event (selection w) (clipboard w)); reflexivity.
Qed.



(** ** Cursor position: ESC [ row ; col H *)

Lemma blocks_not_nil (d : list qchar) : blocks d <> [].
Proof.
  destruct d as [|[c|] d]; cbn; try discriminate.
  destruct (blocks d); discriminate.
Qed.

Lemma blocks_append_block (d : list qchar) :
  blocks (d ++ [ParSep]) = blocks d ++ [[]].
Proof.
  induction d as [|[c|] d IH]; cbn; try reflexivity.
  - rewrite IH. pose proof (blocks_not_nil d) as Hne.
    destruct (blocks d); [contradiction | reflexivity].
  - now rewrite IH.
Qed.

Lemma blockPosition_last (d : list qchar) :
  blockPosition (d ++ [ParSep]) (S (length (filter is_sep d)))
  = S (length d).
Proof.
  induction d as [|[c|] d IH]; cbn; try reflexivity; now rewrite IH.
Qed.

Lemma parse_position_ge_1 (params : list ascii) (row col : Z) :
  parse_position params = (row, col) -> (1 <= row)%Z /\ (1 <= col)%Z.
Proof.
  unfold parse_position. intros H.
  destruct params as [|c params]; [injection H as <- <-; lia|].
  destruct (split_on ";" (c :: params)) as [|p0 [|p1 [|p2 ps]]];
    try (injection H as <- <-; lia).
  destruct (py_int p0) as [r|]; [|injection H as <- <-; lia].
  destruct (py_int p1) as [k|]; injection H as <- <-; lia.
Qed.

(** The cursor-position branch for a row and a column that fit Qt's
    [int]: the state it returns. *)
Lemma cursor_position_within (params : list ascii) (row col : Z)
    (t : Terminal) :
  parse_position params = (row, col) ->
  (row <= INT_MAX)%Z -> (1 <= col <= INT_MAX)%Z ->
  cursor_position params t
  = Returns
      (mkTerminal
         (document t
          ++ repeat ParSep (Z.to_nat row - blockCount (document t)))
         (Nat.min
            (blockPosition
               (document t
                ++ repeat ParSep (Z.to_nat row - blockCount (document t)))
               (Z.to_nat row - 1)
             + (Z.to_nat col - 1))
            (length
               (document t
                ++ repeat ParSep
                     (Z.to_nat row - blockCount (document t)))))).
Proof.
  intros Hparse Hrow Hcol. unfold cursor_position, moveRight.
  rewrite Hparse.
  destruct (INT_MAX <? row)%Z eqn:Erow; [unfold INT_MAX in *; lia|].
  destruct ((col - 1 <? - INT_MAX - 1) || (INT_MAX <? col - 1))%Z eqn:Ecol;
    [unfold INT_MAX in *; lia|].
  cbv beta iota zeta. unfold mkTerminal.
  replace (Z.to_nat (col - 1)) with (Z.to_nat col - 1) by lia. reflexivity.
Qed.

(** A fragment that is one CSI sequence comes to what its branch comes
    to. *)
Lemma cursor_position_alone (digits : list ascii) (t : Terminal) :
  no_letter digits = true ->
  handle_output (ESC :: "[" :: digits ++ ["H"]) t
  = cursor_position digits t.
Proof.
  intros Hdigits. unfold handle_output.
  cbn [length handle_loop].
  change (Ascii.eqb ESC CR) with false. change (Ascii.eqb ESC LF) with false.
  change (is_backspace ESC) with false. change (Ascii.eqb ESC BEL) with false.
  change (Ascii.eqb ESC ESC) with true. change (Ascii.eqb "[" "[") with true.
  cbv iota.
  assert (Hread : read_params (digits ++ ["H"]) = (digits, ["H"])).
  { clear t. induction digits as [|c digits IH]; [reflexivity|].
    cbn [no_letter forallb] in Hdigits.
    apply andb_prop in Hdigits. destruct Hdigits as [Hc Hdigits].
    cbn [app read_params].
    destruct (isalpha c); [discriminate Hc|]. now rewrite IH. }
  rewrite Hread. unfold csi_dispatch.
  change (Ascii.eqb "H" "K") with false. change (Ascii.eqb "H" "J") with false.
  change (Ascii.eqb "H" "H") with true. cbv iota. cbn [orb].
  destruct (cursor_position digits t); reflexivity.
Qed.

(** C3, as the code has it: the line appended for row 3 is empty and it is
    the last one, so none of the four steps to the right moves the cursor:
    it ends at column 0, not at column 4. *)
Lemma cursor_position_lands_at_column_0 :
  let t := mkTerminal (doc_of_lines ["first"; "second"]%string) 3 in
  length (lines t) = 2
  /\ exists t', handle_output cup_3_5 t = Returns t'
       /\ lines t' = ["first"; "second"; ""]%string
       /\ cursor_line t' = 2
       /\ cursor_column t' = 0
       /\ cursor_column t' <> 4.
Proof.
  cbn zeta. split; [reflexivity|].
  eexists. split; [reflexivity|]. repeat split. discriminate.
Qed.

(** C3, amended: on a document of exactly 2 lines, ESC [ 3 ; 5 H appends one
    empty line, so the document has 3 lines, and leaves the cursor at line
    index 2, column index 0, the end of the document: the requested column
    index 4 is cut down to the length of the new, empty line. *)
Theorem cursor_position_extends_document (t : Terminal) :
  blockCount (document t) = 2 ->
  exists t', handle_output cup_3_5 t = Returns t'
    /\ document t' = document t ++ [ParSep]
    /\ blockCount (document t') = 3
    /\ blocks (document t') = blocks (document t) ++ [[]]
    /\ cursor_line t' = 2
    /\ cursor_column t' = 0
    /\ position t' = length (document t').
Proof.
  intros Hcount.
  assert (Hsep : length (filter is_sep (document t)) = 1)
    by (unfold blockCount in Hcount; now injection Hcount).
  assert (Hlen : length (document t ++ [ParSep]) = S (length (document t)))
    by (rewrite length_app; cbn; lia).
  exists (mkTerminal (document t ++ [ParSep]) (S (length (document t)))).
  split.
  - change cup_3_5 with (ESC :: "[" :: list_ascii_of_string "3;5" ++ ["H"]).
    rewrite cursor_position_alone by reflexivity.
    rewrite (cursor_position_within _ 3 5)
      by (reflexivity || (unfold INT_MAX; lia)).
    change (Z.to_nat 3) with 3. change (Z.to_nat 5 - 1) with 4.
    rewrite Hcount. change (repeat ParSep (3 - 2)) with [ParSep].
    change (3 - 1) with 2.
    rewrite <- Hsep at 1. rewrite blockPosition_last, Hlen.
    do 2 f_equal. lia.
  - unfold cursor_line, cursor_column, startOfBlock, mkTerminal.
    cbn [document position]. rewrite <- Hlen, firstn_all. repeat split.
    + unfold blockCount. rewrite filter_app, length_app, Hsep. reflexivity.
    + apply blocks_append_block.
    + rewrite filter_app, length_app, Hsep. reflexivity.
    + rewrite rev_app_distr. cbn. lia.
Qed.

Lemma cursor_position_extends_document_witness :
  blockCount (document (mkTerminal (doc_of_lines ["ab"; "cd"]%string) 1)) = 2
  /\ exists t',
       handle_output cup_3_5 (mkTerminal (doc_of_lines ["ab"; "cd"]%string) 1)
       = Returns t'
       /\ document t'
          = document (mkTerminal (doc_of_lines ["ab"; "cd"]%string) 1)
            ++ [ParSep]
       /\ blockCount (document t') = 3
       /\ blocks (document t')
          = blocks (document (mkTerminal (doc_of_lines ["ab"; "cd"]%string) 1))
            ++ [[]]
       /\ cursor_line t' = 2
       /\ cursor_column t' = 0
       /\ position t' = length (document t').
Proof.
  split; [reflexivity|].
  apply (cursor_position_extends_document
           (mkTerminal (doc_of_lines ["ab"; "cd"]%string) 1)).
  reflexivity.
Defined.

(** ** The loop ends on every input *)

Lemma read_params_split (s : list ascii) :
  s = fst (read_params s) ++ snd (read_params s).
Proof.
  induction s as [|c s IH]; cbn; [reflexivity|].
  destruct (isalpha c); cbn; [reflexivity|].
  destruct (read_params s) as [params rest]. cbn in *. now rewrite <- IH.
Qed.

Lemma read_params_length (s params rest : list ascii) :
  read_params s = (params, rest) -> length rest <= length s.
Proof.
  intros H. pose proof (f_equal (@length ascii) (read_params_split s)) as E.
  rewrite H, length_app in E. cbn in E. lia.
Qed.

Lemma skip_osc_length (s : list ascii) : length (skip_osc s) <= length s.
Proof.
  induction s as [|c s IH]; cbn [skip_osc length]; [lia|].
  destruct (Ascii.eqb c BEL); [lia|].
  destruct (Ascii.eqb c ESC); [|lia].
  destruct s as [|c2 s2]; [cbn; lia|].
  destruct (Ascii.eqb c2 "\"); [cbn; lia | lia].
Qed.

(** Splits the goal along the tests of one iteration of [handle_loop]. *)
Ltac loop_cases :=
  repeat match goal with
    | |- context [if ?b then _ else _] => destruct b eqn:?
    | |- context [match ?l with [] => _ | _ :: _ => _ end] =>
        destruct l eqn:?
    | |- context [match ?p with (_, _) => _ end] => destruct p eqn:?
    end.

(** The same, and along what the CSI branch comes to. *)
Ltac loop_outcomes :=
  loop_cases;
  repeat match goal with
    | |- context [csi_dispatch ?c ?p ?t] =>
        destruct (csi_dispatch c p t) eqn:?
    end.

(** The cursor-position branch returns when row and column fit, and fails
    when one of them does not. *)
Lemma cursor_position_cases (params : list ascii) (t : Terminal) :
  as_walked (position_fits params) (cursor_position params t).
Proof.
  unfold as_walked, position_fits, cursor_position, moveRight.
  destruct (parse_position params) as [row col] eqn:Hparse.
  destruct (parse_position_ge_1 _ _ _ Hparse) as [Hrow Hcol].
  destruct (INT_MAX <? row)%Z eqn:Erow.
  - replace (row <=? INT_MAX)%Z with false by lia. cbn [andb].
    exists Endless. split; [reflexivity | now right].
  - replace (row <=? INT_MAX)%Z with true by lia. cbn [andb].
    replace (col - 1 <? - INT_MAX - 1)%Z with false
      by (unfold INT_MAX; lia).
    cbn [orb].
    destruct (INT_MAX <? col - 1)%Z eqn:Ecol.
    + replace (col - 1 <=? INT_MAX)%Z with false by lia.
      exists OverflowError. split; [reflexivity | now left].
    + replace (col - 1 <=? INT_MAX)%Z with true by lia.
      now eexists.
Qed.

Lemma csi_dispatch_cases (command : ascii) (params : list ascii)
    (t : Terminal) :
  as_walked (csi_fits command params) (csi_dispatch command params t).
Proof.
  unfold csi_fits, csi_dispatch.
  destruct (Ascii.eqb_spec command "K") as [->|_]; [cbn; now eexists|].
  destruct (Ascii.eqb_spec command "J") as [->|_]; [cbn; now eexists|].
  destruct (Ascii.eqb command "H" || Ascii.eqb command "f");
    [apply cursor_position_cases | cbn; now eexists].
Qed.
(** The loop ends within one iteration for each character. *)
Lemma handle_loop_ends (n : nat) :
  forall (s : list ascii) (t : Terminal),
    length s <= n -> handle_loop n s t <> OutOfFuel.
Proof.
  induction n as [|n IH]; intros s t Hlen.
  - destruct s; [discriminate | cbn in Hlen; lia].
  - destruct s as [|char rest]; [discriminate|].
    cbn in Hlen. cbn [handle_loop].
    loop_cases; try discriminate;
      try match goal with
        | |- context [csi_dispatch ?c ?p ?t] =>
            pose proof (csi_dispatch_cases c p t) as Hcsi;
            unfold as_walked in Hcsi;
            destruct (csi_fits c p);
            [destruct Hcsi as [t' ->]
            |destruct Hcsi as (f & -> & _); discriminate]
        end;
      apply IH; cbn in *; try lia.
    all: try match goal with H : read_params _ = _ |- _ =>
        apply read_params_length in H; cbn in H; lia end.
    all: match goal with |- length (skip_osc ?l) <= _ =>
        pose proof (skip_osc_length l); lia end.
Qed.

(** The loop returns when every cursor position it meets fits, and fails
    at the first one that does not. *)
Lemma handle_loop_returns (n : nat) :
  forall (s : list ascii) (t : Terminal),
    length s <= n ->
    as_walked (positions_fit_loop n s) (handle_loop n s t).
Proof.
  induction n as [|n IH]; intros s t Hlen.
  - destruct s; [now exists t | cbn in Hlen; lia].
  - destruct s as [|char rest]; [now exists t|].
    cbn in Hlen. cbn [handle_loop positions_fit_loop].
    loop_cases; try (now exists t);
      try match goal with
        | |- context [csi_dispatch ?c ?p ?t] =>
            pose proof (csi_dispatch_cases c p t) as Hcsi;
            unfold as_walked in Hcsi;
            destruct (csi_fits c p); cbn [andb];
            [destruct Hcsi as [t' ->]
            |destruct Hcsi as (f & -> & Hf); now exists f]
        end;
      apply IH; cbn in *; try lia.
    all: try match goal with H : read_params _ = _ |- _ =>
        apply read_params_length in H; cbn in H; lia end.
    all: match goal with |- length (skip_osc ?l) <= _ =>
        pose proof (skip_osc_length l); lia end.
Qed.

(** More fuel than the length of the text changes nothing. *)
Lemma handle_loop_fuel (n : nat) :
  forall (m : nat) (s : list ascii) (t : Terminal),
    length s <= n -> length s <= m -> handle_loop n s t = handle_loop m s t.
Proof.
  induction n as [|n IH]; intros m s t Hn Hm.
  - destruct s; [now destruct m | cbn in Hn; lia].
  - destruct s as [|char rest]; [now destruct m|].
    destruct m as [|m]; [cbn in Hm; lia|].
    cbn in Hn, Hm. cbn [handle_loop].
    loop_outcomes; try reflexivity; apply IH; cbn in *; try lia.
    all: try match goal with H : read_params _ = _ |- _ =>
        apply read_params_length in H; cbn in H; lia end.
    all: match goal with |- length (skip_osc ?l) <= _ =>
        pose proof (skip_osc_length l); lia end.
Qed.

Lemma handle_output_nil (t : Terminal) : handle_output [] t = Returns t.
Proof. reflexivity. Qed.

(** ** The cursor stays inside the document *)

Lemma endOfBlock_le (d : list qchar) (p : nat) :
  p <= length d -> endOfBlock d p <= length d.
Proof.
  intros Hp. unfold endOfBlock.
  pose proof (run_length_le (skipn p d)) as H.
  rewrite length_skipn in H. lia.
Qed.

Lemma startOfBlock_le (d : list qchar) (p : nat) : startOfBlock d p <= p.
Proof. unfold startOfBlock. lia. Qed.

Lemma length_removeRange (d : list qchar) (a b : nat) :
  a <= length d ->
  length (removeRange d a b) = a + (length d - b).
Proof.
  intros Ha. unfold removeRange.
  rewrite length_app, length_firstn, length_skipn. lia.
Qed.

Lemma length_insertAt (d : list qchar) (p : nat) (q : qchar) :
  p <= length d -> length (insertAt d p q) = S (length d).
Proof.
  intros Hp. unfold insertAt.
  rewrite length_app. cbn [length]. rewrite length_firstn, length_skipn. lia.
Qed.

Lemma well_formed_removeSelection (t : Terminal) (a b : nat) :
  well_formed t -> a <= length (document t) ->
  well_formed (removeSelection t a b).
Proof.
  unfold well_formed, removeSelection. cbn [document position].
  intros Hwf Ha. rewrite length_removeRange by lia. lia.
Qed.

Lemma well_formed_line_start (t : Terminal) :
  well_formed t -> well_formed (cursor_to_line_start t).
Proof.
  unfold well_formed, cursor_to_line_start. cbn [document position].
  intros H. pose proof (startOfBlock_le (document t) (position t)). lia.
Qed.

Lemma well_formed_line_end (t : Terminal) :
  well_formed t -> well_formed (cursor_to_line_end t).
Proof.
  unfold well_formed, cursor_to_line_end. cbn [document position].
  apply endOfBlock_le.
Qed.

Lemma well_formed_insertBlock (t : Terminal) :
  well_formed t -> well_formed (insertBlock t).
Proof.
  unfold well_formed, insertBlock. cbn [document position].
  intros H. rewrite length_insertAt by exact H. lia.
Qed.

Lemma well_formed_backspace (t : Terminal) :
  well_formed t -> well_formed (backspace t).
Proof.
  unfold well_formed, backspace, deletePreviousChar.
  destruct t as [d [|p]]; cbn [document position Nat.ltb Nat.leb];
    intros H; [exact H|].
  rewrite length_removeRange by lia. lia.
Qed.

Lemma well_formed_erase_in_line (params : list ascii) (t : Terminal) :
  well_formed t -> well_formed (erase_in_line params t).
Proof.
  intros Hwf. unfold erase_in_line.
  pose proof (startOfBlock_le (document t) (position t)) as Hs.
  unfold well_formed in Hwf.
  loop_cases; try assumption;
    apply well_formed_removeSelection; unfold well_formed; lia.
Qed.

Lemma well_formed_erase_in_display (params : list ascii) (t : Terminal) :
  well_formed t -> well_formed (erase_in_display params t).
Proof.
  intros Hwf. unfold erase_in_display.
  loop_cases; try assumption;
    try (apply well_formed_removeSelection; assumption).
  unfold well_formed. cbn. lia.
Qed.

Lemma well_formed_cursor_position (params : list ascii) (t t' : Terminal) :
  cursor_position params t = Returns t' -> well_formed t'.
Proof.
  unfold cursor_position. destruct (parse_position params) as [row col].
  unfold moveRight.
  destruct (INT_MAX <? row)%Z; [discriminate|].
  destruct ((col - 1 <? - INT_MAX - 1) || (INT_MAX <? col - 1))%Z;
    [discriminate|].
  intros H. injection H as <-.
  unfold well_formed. cbn [document position]. lia.
Qed.

Lemma well_formed_csi_dispatch (command : ascii) (params : list ascii)
  (t t' : Terminal) :
  well_formed t -> csi_dispatch command params t = Returns t' ->
  well_formed t'.
Proof.
  intros Hwf. unfold csi_dispatch.
  loop_cases; intros H;
    try (injection H as <-;
         auto using well_formed_erase_in_line, well_formed_erase_in_display).
  exact (well_formed_cursor_position _ _ _ H).
Qed.

Lemma well_formed_write_char (c : ascii) (t : Terminal) :
  well_formed t -> well_formed (write_char c t).
Proof.
  unfold well_formed, write_char, insertText. cbn [document position].
  intros Hwf.
  destruct (nth_error (document t) (position t)) as [[x|]|] eqn:E.
  - assert (Hlt : position t < length (document t))
      by (apply nth_error_Some; congruence).
    rewrite length_insertAt; rewrite length_removeRange; lia.
  - rewrite length_insertAt; lia.
  - rewrite length_insertAt; lia.
Qed.

Create HintDb cursor_inside.

#[local] Hint Resolve well_formed_line_start well_formed_line_end
  well_formed_insertBlock well_formed_backspace well_formed_erase_in_line
  well_formed_erase_in_display well_formed_write_char : cursor_inside.

Lemma handle_loop_well_formed (n : nat) :
  forall (s : list ascii) (t t' : Terminal),
    well_formed t -> handle_loop n s t = Returns t' -> well_formed t'.
Proof.
  induction n as [|n IH]; intros s t t' Hwf H.
  - destruct s; [|discriminate]. now injection H as <-.
  - destruct s as [|char rest]; [now injection H as <-|].
    cbn [handle_loop] in H. revert H.
    loop_outcomes; intros H; try discriminate H;
      try (injection H as <-; assumption);
      apply IH in H; eauto using well_formed_csi_dispatch with cursor_inside.
Qed.

(** ** Sequences the interpreter does not know *)

Lemma read_params_to_command (params rest : list ascii) (command : ascii) :
  no_letter params = true -> isalpha command = true ->
  read_params (params ++ command :: rest) = (params, command :: rest).
Proof.
  intros Hp Hc. induction params as [|c params IH]; cbn.
  - now rewrite Hc.
  - cbn in Hp. apply andb_true_iff in Hp. destruct Hp as [Hc' Hp].
    apply negb_true_iff in Hc'. rewrite Hc', IH by exact Hp. reflexivity.
Qed.

Lemma read_params_to_end (params : list ascii) :
  no_letter params = true -> read_params params = (params, []).
Proof.
  intros Hp. induction params as [|c params IH]; cbn; [reflexivity|].
  cbn in Hp. apply andb_true_iff in Hp. destruct Hp as [Hc' Hp].
  apply negb_true_iff in Hc'. rewrite Hc', IH by exact Hp. reflexivity.
Qed.

Lemma csi_dispatch_unrecognized (command : ascii) (params : list ascii)
  (t : Terminal) :
  recognized_command command = false ->
  csi_dispatch command params t = Returns t.
Proof.
  unfold recognized_command, csi_dispatch. intros H.
  repeat (apply orb_false_iff in H; destruct H as [H ?]).
  repeat match goal with E : Ascii.eqb _ _ = false |- _ =>
    rewrite E; clear E end.
  reflexivity.
Qed.

Lemma escape_step (n : nat) (rest : list ascii) (t : Terminal) :
  handle_loop (S n) (ESC :: rest) t
  = match rest with
    | [] => Returns t
    | next_char :: rest1 =>
        if Ascii.eqb next_char "[" then
          match read_params rest1 with
          | (_, []) => Returns t
          | (params, command :: rest2) =>
              bind (csi_dispatch command params t) (handle_loop n rest2)
          end
        else if Ascii.eqb next_char "]" then handle_loop n (skip_osc rest1) t
        else handle_loop n rest1 t
    end.
Proof. reflexivity. Qed.

(** An escape sequence that is not acted on, followed by any text: the text
    is processed as if the sequence were not there. *)
Lemma unknown_escape_absorbed (c : ascii) (rest : list ascii) (t : Terminal) :
  Ascii.eqb c "[" = false -> Ascii.eqb c "]" = false ->
  handle_output (ESC :: c :: rest) t = handle_output rest t.
Proof.
  intros H1 H2. unfold handle_output. cbn [length].
  rewrite escape_step, H1, H2. apply handle_loop_fuel; lia.
Qed.

Lemma unknown_csi_absorbed (params rest : list ascii) (command : ascii)
  (t : Terminal) :
  no_letter params = true -> isalpha command = true ->
  recognized_command command = false ->
  handle_output (ESC :: "[" :: params ++ command :: rest) t
  = handle_output rest t.
Proof.
  intros Hp Hc Hr. unfold handle_output. cbn [length].
  rewrite escape_step. cbn [Ascii.eqb Bool.eqb andb].
  change (Ascii.eqb "[" "[") with true. cbv iota.
  rewrite read_params_to_command by assumption.
  rewrite csi_dispatch_unrecognized by exact Hr. cbn [bind].
  apply handle_loop_fuel; [|lia].
  rewrite length_app. cbn. lia.
Qed.




(** ** Cutting the stream where the interpreter is at rest *)

Lemma read_params_app (a b params rest : list ascii) (c : ascii) :
  read_params a = (params, c :: rest) ->
  read_params (a ++ b) = (params, c :: rest ++ b).
Proof.
  revert params. induction a as [|x a IH]; intros params H; cbn in *.
  - discriminate.
  - destruct (isalpha x).
    + injection H as <- <- <-. reflexivity.
    + destruct (read_params a) as [params' rest'].
      injection H as <- ->. now rewrite (IH params' eq_refl).
Qed.

Lemma skip_osc_app (a b : list ascii) :
  osc_terminated a = true -> skip_osc (a ++ b) = skip_osc a ++ b.
Proof.
  induction a as [|c a IH]; cbn [osc_terminated skip_osc app];
    [discriminate|].
  destruct (Ascii.eqb c BEL); [reflexivity|].
  destruct (Ascii.eqb c ESC); [|exact IH].
  destruct a as [|c2 a2]; [discriminate|].
  cbn [app]. destruct (Ascii.eqb c2 "\"); [reflexivity | exact IH].
Qed.

Lemma handle_loop_nil (n : nat) (t : Terminal) : handle_loop n [] t = Returns t.
Proof. destruct n; reflexivity. Qed.

(** A fragment that ends at rest, followed by any text: the loop over the
    whole is the loop over the fragment followed by the loop over the text
    from the state reached. *)
Lemma at_rest_then (n : nat) :
  forall (s1 s2 : list ascii) (t : Terminal) (m : nat),
    length s1 <= n -> at_rest_loop n s1 = true ->
    length (s1 ++ s2) <= m ->
    handle_loop m (s1 ++ s2) t
    = bind (handle_loop n s1 t) (handle_loop (length s2) s2).
Proof.
  induction n as [|n IH]; intros s1 s2 t m Hn Hrest Hm.
  - destruct s1; [|cbn in Hn; lia]. cbn [app bind handle_loop].
    apply handle_loop_fuel; [exact Hm | lia].
  - destruct s1 as [|char rest].
    { cbn [app bind handle_loop]. apply handle_loop_fuel; [exact Hm | lia]. }
    destruct m as [|m]; [cbn in Hm; lia|].
    cbn [length app] in Hn, Hm. rewrite length_app in Hm.
    cbn [at_rest_loop] in Hrest. cbn [app handle_loop].
    destruct (Ascii.eqb char CR).
    { apply IH; [lia | exact Hrest | rewrite length_app; lia]. }
    destruct (Ascii.eqb char LF).
    { apply IH; [lia | exact Hrest | rewrite length_app; lia]. }
    destruct (is_backspace char).
    { destruct rest as [|c1 [|c2 rest']]; [discriminate| |].
      - destruct (Ascii.eqb c1 " ") eqn:Hc1; [discriminate|].
        destruct s2 as [|c2 s2']; cbn [app]; try rewrite Hc1; cbn [andb];
          (apply (IH [c1]); [cbn in *; lia | exact Hrest
                            | cbn in *; lia]).
      - cbn [app].
        destruct (Ascii.eqb c1 " " && is_backspace c2).
        + apply IH; [cbn in *; lia | exact Hrest
                    | rewrite length_app; cbn in *; lia].
        + apply (IH (c1 :: c2 :: rest'));
            [cbn in *; lia | exact Hrest
            | cbn [length app] in *; rewrite length_app; lia]. }
    destruct (Ascii.eqb char BEL).
    { apply IH; [lia | exact Hrest | rewrite length_app; lia]. }
    destruct (Ascii.eqb char ESC).
    { destruct rest as [|next_char rest1]; [discriminate|].
      cbn [app length] in *.
      destruct (Ascii.eqb next_char "[").
      - destruct (read_params rest1) as [params [|command rest2]] eqn:E;
          [discriminate|].
        rewrite (read_params_app _ s2 _ _ _ E).
        apply read_params_length in E. cbn in E.
        destruct (csi_dispatch command params t); [|reflexivity..].
        apply IH; [lia | exact Hrest | rewrite length_app; lia].
      - destruct (Ascii.eqb next_char "]").
        + apply andb_true_iff in Hrest. destruct Hrest as [Hterm Hrest].
          rewrite skip_osc_app by exact Hterm.
          pose proof (skip_osc_length rest1).
          apply IH; [lia | exact Hrest | rewrite length_app; lia].
        + apply IH; [lia | exact Hrest | rewrite length_app; lia]. }
    apply IH; [lia | exact Hrest | rewrite length_app; lia].
Qed.

Lemma handle_output_app (s1 s2 : list ascii) (t : Terminal) :
  at_rest s1 = true ->
  handle_output (s1 ++ s2) t = bind (handle_output s1 t) (handle_output s2).
Proof.
  intros H. unfold handle_output at 1 2.
  now apply at_rest_then.
Qed.

(** ** Cutting the stream where no directory report is open *)

Section Find.

Variable m : list ascii.

Lemma starts_with_length (s : list ascii) :
  starts_with m s = true -> length m <= length s.
Proof.
  revert s. induction m as [|x m' IH]; intros s H; cbn; [lia|].
  destruct s as [|y s]; [discriminate|].
  cbn in H. apply andb_true_iff in H. destruct H as [_ H].
  apply IH in H. cbn. lia.
Qed.

Lemma starts_with_app (a b : list ascii) :
  starts_with m a = true -> starts_with m (a ++ b) = true.
Proof.
  revert a. induction m as [|x m' IH]; intros a H; [reflexivity|].
  destruct a as [|y a]; [discriminate|].
  cbn in *. apply andb_true_iff in H. destruct H as [Hxy H].
  rewrite Hxy. now apply IH.
Qed.

(** An occurrence at the start of [a ++ b] lies in [a], or [a] is a
    proper prefix of the marker. *)
Lemma starts_with_app_inv (a b : list ascii) :
  starts_with m (a ++ b) = true ->
  starts_with m a = true
  \/ (length a < length m /\ starts_with a m = true).
Proof.
  revert a. induction m as [|x m' IH]; intros a H; [now left|].
  destruct a as [|y a].
  - right. split; [cbn; lia | reflexivity].
  - cbn in H. apply andb_true_iff in H. destruct H as [Hxy H].
    destruct (IH a H) as [Ha | [Hlen Ha]].
    + left. cbn. now rewrite Hxy.
    + right. split; [cbn; lia|]. cbn.
      apply Ascii.eqb_eq in Hxy. subst y.
      now rewrite Ascii.eqb_refl.
Qed.

Lemma find_bound (s : list ascii) (k : nat) :
  find m s = Some k -> k + length m <= length s.
Proof.
  revert k. induction s as [|c s IH]; intros k H; cbn [find] in H.
  - destruct (starts_with m []) eqn:E; [|discriminate].
    injection H as <-. apply starts_with_length in E. cbn in *. lia.
  - destruct (starts_with m (c :: s)) eqn:E.
    + injection H as <-. apply starts_with_length in E. cbn in *. lia.
    + destruct (find m s) as [k'|]; [|discriminate].
      injection H as <-. specialize (IH k' eq_refl). cbn. lia.
Qed.

Lemma find_app_found (a b : list ascii) (k : nat) :
  find m a = Some k -> find m (a ++ b) = Some k.
Proof.
  revert k. induction a as [|c a IH]; intros k H.
  - cbn [find] in H. destruct (starts_with m []) eqn:E; [|discriminate].
    injection H as <-. cbn [app].
    pose proof (starts_with_app [] b E) as E'. cbn [app] in E'.
    destruct b; cbn [find]; now rewrite E'.
  - cbn [find] in H. cbn [app find].
    destruct (starts_with m (c :: a)) eqn:E.
    + injection H as <-.
      pose proof (starts_with_app (c :: a) b E) as E'. cbn [app] in E'.
      now rewrite E'.
    + destruct (find m a) as [k'|] eqn:F; [|discriminate].
      injection H as <-.
      destruct (starts_with m (c :: a ++ b)) eqn:E'.
      * destruct (starts_with_app_inv (c :: a) b E') as [Ha | [Hlen _]];
          [congruence|].
        apply find_bound in F. cbn in Hlen. lia.
      * now rewrite (IH k' eq_refl).
Qed.

Lemma find_app_not_found (a b : list ascii) :
  find m a = None -> marker_begun m a = false ->
  find m (a ++ b) = option_map (Nat.add (length a)) (find m b).
Proof.
  induction a as [|c a IH]; intros Hfind Hbegun.
  - cbn. now destruct (find m b).
  - cbn [find] in Hfind. cbn [marker_begun] in Hbegun.
    apply orb_false_iff in Hbegun. destruct Hbegun as [Hhead Hbegun].
    destruct (starts_with m (c :: a)) eqn:E; [discriminate|].
    destruct (find m a) as [k'|] eqn:F; [discriminate|].
    cbn [app find].
    destruct (starts_with m (c :: a ++ b)) eqn:E'.
    + destruct (starts_with_app_inv (c :: a) b E') as [Ha | [Hlen Ha]];
        [congruence|].
      rewrite Ha in Hhead. apply Nat.ltb_lt in Hlen.
      rewrite Hlen in Hhead. discriminate.
    + rewrite (IH eq_refl Hbegun). now destruct (find m b).
Qed.

End Find.

Lemma find_osc_terminator_bound (s : list ascii) (e l : nat) :
  find_osc_terminator s = Some (e, l) -> e + l <= length s /\ 1 <= l.
Proof.
  revert e. induction s as [|c s IH]; intros e H; cbn in H; [discriminate|].
  destruct (Ascii.eqb c BEL).
  { injection H as <- <-. cbn. lia. }
  destruct (Ascii.eqb c ESC && _) eqn:E.
  { injection H as <- <-. apply andb_true_iff in E. destruct E as [_ E].
    destruct s; [discriminate|]. cbn. lia. }
  destruct (find_osc_terminator s) as [[e' l']|]; [|discriminate].
  injection H as <- <-. destruct (IH e' eq_refl). cbn. lia.
Qed.

Lemma find_osc_terminator_app (a b : list ascii) (e l : nat) :
  find_osc_terminator a = Some (e, l) ->
  find_osc_terminator (a ++ b) = Some (e, l).
Proof.
  revert e. induction a as [|c a IH]; intros e H; cbn in H; [discriminate|].
  cbn [app find_osc_terminator].
  destruct (Ascii.eqb c BEL); [exact H|].
  destruct a as [|c2 a2].
  - rewrite andb_false_r in H. discriminate.
  - cbn [app].
    destruct (Ascii.eqb c ESC && Ascii.eqb c2 "\"); [exact H|].
    destruct (find_osc_terminator (c2 :: a2)) as [[e' l']|]; [|discriminate].
    injection H as <- <-.
    change (c2 :: a2 ++ b) with ((c2 :: a2) ++ b).
    now rewrite (IH e' eq_refl).
Qed.

Lemma extract_loop_eq (fuel : nat) (s : list ascii) :
  extract_loop fuel s
  = match find OSC_DIR_PREFIX s with
    | None => Some []
    | Some start =>
        let body := skipn (start + length OSC_DIR_PREFIX) s in
        match find_osc_terminator body with
        | None => Some []
        | Some (end_, terminator_length) =>
            match fuel with
            | 0 => None
            | S fuel' =>
                option_map (cons (firstn end_ body))
                  (extract_loop fuel'
                     (skipn (end_ + terminator_length) body))
            end
        end
    end.
Proof. destruct fuel; reflexivity. Qed.

Lemma reports_closed_loop_eq (fuel : nat) (s : list ascii) :
  reports_closed_loop fuel s
  = match find OSC_DIR_PREFIX s with
    | None => negb (marker_begun OSC_DIR_PREFIX s)
    | Some start =>
        let body := skipn (start + length OSC_DIR_PREFIX) s in
        match find_osc_terminator body with
        | None => false
        | Some (end_, terminator_length) =>
            match fuel with
            | 0 => false
            | S fuel' =>
                reports_closed_loop fuel'
                  (skipn (end_ + terminator_length) body)
            end
        end
    end.
Proof. destruct fuel; reflexivity. Qed.

Lemma marker_length : length OSC_DIR_PREFIX = 18.
Proof. reflexivity. Qed.

(** The text left after a report is shorter than the text scanned. *)
Lemma after_report_shorter (s : list ascii) (start e l : nat) :
  find OSC_DIR_PREFIX s = Some start ->
  find_osc_terminator (skipn (start + length OSC_DIR_PREFIX) s)
  = Some (e, l) ->
  length (skipn (e + l) (skipn (start + length OSC_DIR_PREFIX) s))
  < length s.
Proof.
  intros Hfind Hterm.
  apply find_bound in Hfind. apply find_osc_terminator_bound in Hterm.
  rewrite !length_skipn in *. rewrite marker_length in *. lia.
Qed.

Lemma extract_loop_fuel (n : nat) :
  forall (k : nat) (s : list ascii),
    length s <= n -> length s <= k -> extract_loop n s = extract_loop k s.
Proof.
  induction n as [|n IH]; intros k s Hn Hk;
    rewrite (extract_loop_eq _ s), (extract_loop_eq k s);
    destruct (find OSC_DIR_PREFIX s) as [start|] eqn:Hfind; try reflexivity;
    cbv zeta;
    destruct (find_osc_terminator _) as [[e l]|] eqn:Hterm; try reflexivity;
    pose proof (after_report_shorter s start e l Hfind Hterm) as Hshort.
  - lia.
  - destruct k as [|k]; [lia|]. f_equal. apply IH; lia.
Qed.

Lemma extract_loop_total (n : nat) :
  forall s : list ascii,
    length s <= n -> exists dirs, extract_loop n s = Some dirs.
Proof.
  induction n as [|n IH]; intros s Hn; rewrite extract_loop_eq;
    destruct (find OSC_DIR_PREFIX s) as [start|] eqn:Hfind;
    try (now eexists); cbv zeta;
    destruct (find_osc_terminator _) as [[e l]|] eqn:Hterm;
    try (now eexists);
    pose proof (after_report_shorter s start e l Hfind Hterm) as Hshort.
  - lia.
  - destruct (IH (skipn (e + l) (skipn (start + length OSC_DIR_PREFIX) s)))
      as [dirs Hdirs]; [lia|].
    rewrite Hdirs. now eexists.
Qed.

(** A fragment in which every report is closed, followed by any text: the
    directories of the whole are those of the fragment followed by those of
    the text. *)
Lemma reports_closed_then (n : nat) :
  forall (s1 s2 : list ascii) (k : nat),
    length s1 <= n -> reports_closed_loop n s1 = true ->
    length (s1 ++ s2) <= k ->
    extract_loop k (s1 ++ s2)
    = both (extract_loop n s1) (extract_loop (length s2) s2).
Proof.
  assert (Hopen : forall (s1 s2 : list ascii) (k n' : nat),
    find OSC_DIR_PREFIX s1 = None ->
    marker_begun OSC_DIR_PREFIX s1 = false ->
    length (s1 ++ s2) <= k ->
    extract_loop k (s1 ++ s2)
    = both (extract_loop n' s1) (extract_loop (length s2) s2)).
  { intros s1 s2 k n' Hfind Hbegun Hk.
    rewrite (extract_loop_eq n' s1), Hfind.
    destruct (extract_loop_total (length s2) s2 (le_n _)) as [dirs Hdirs].
    rewrite Hdirs. cbn [both app]. rewrite <- Hdirs.
    rewrite length_app in Hk.
    rewrite (extract_loop_fuel (length s2) k s2) by lia.
    rewrite (extract_loop_eq k (s1 ++ s2)), (extract_loop_eq k s2).
    rewrite (find_app_not_found _ s1 s2 Hfind Hbegun).
    destruct (find OSC_DIR_PREFIX s2) as [start|]; [|reflexivity].
    cbn [option_map]. cbv zeta.
    replace (skipn (length s1 + start + length OSC_DIR_PREFIX) (s1 ++ s2))
      with (skipn (start + length OSC_DIR_PREFIX) s2); [reflexivity|].
    replace (length s1 + start + length OSC_DIR_PREFIX)
      with (length s1 + (start + length OSC_DIR_PREFIX)) by lia.
    rewrite (skipn_add (length s1)), skipn_app, Nat.sub_diag, skipn_all.
    reflexivity. }
  induction n as [|n IH]; intros s1 s2 k Hn Hclosed Hk;
    rewrite (extract_loop_eq _ s1);
    rewrite reports_closed_loop_eq in Hclosed.
  - destruct (find OSC_DIR_PREFIX s1) as [start|] eqn:Hfind.
    + apply find_bound in Hfind. rewrite marker_length in Hfind. lia.
    + apply negb_true_iff in Hclosed.
      rewrite (Hopen s1 s2 k 0 Hfind Hclosed Hk).
      now rewrite (extract_loop_eq 0 s1), Hfind.
  - destruct (find OSC_DIR_PREFIX s1) as [start|] eqn:Hfind.
    + cbv zeta in Hclosed |- *.
      destruct (find_osc_terminator _) as [[e l]|] eqn:Hterm;
        [|discriminate].
      pose proof (after_report_shorter s1 start e l Hfind Hterm) as Hshort.
      pose proof (find_bound _ _ _ Hfind) as Hb1.
      pose proof (find_osc_terminator_bound _ _ _ Hterm) as [Hb2 _].
      rewrite length_skipn in Hb2.
      rewrite extract_loop_eq, (find_app_found _ s1 s2 start Hfind).
      cbv zeta.
      assert (Hbody : skipn (start + length OSC_DIR_PREFIX) (s1 ++ s2)
                      = skipn (start + length OSC_DIR_PREFIX) s1 ++ s2).
      { rewrite skipn_app.
        replace (start + length OSC_DIR_PREFIX - length s1) with 0 by lia.
        reflexivity. }
      rewrite Hbody, (find_osc_terminator_app _ s2 e l Hterm).
      set (body := skipn (start + length OSC_DIR_PREFIX) s1) in *.
      assert (Hlb : length body = length s1 - (start + length OSC_DIR_PREFIX))
        by (unfold body; apply length_skipn).
      destruct k as [|k]; [rewrite length_app in Hk; lia|].
      assert (Hdir : firstn e (body ++ s2) = firstn e body).
      { rewrite firstn_app. replace (e - length body) with 0 by lia.
        cbn. apply app_nil_r. }
      assert (Hrest : skipn (e + l) (body ++ s2) = skipn (e + l) body ++ s2).
      { rewrite skipn_app. replace (e + l - length body) with 0 by lia.
        reflexivity. }
      rewrite Hdir, Hrest.
      rewrite (IH (skipn (e + l) body) s2 k); [| lia | exact Hclosed |].
      * destruct (extract_loop n (skipn (e + l) body));
          destruct (extract_loop (length s2) s2); reflexivity.
      * rewrite length_app in Hk |- *. lia.
    + apply negb_true_iff in Hclosed.
      rewrite (Hopen s1 s2 k (S n) Hfind Hclosed Hk).
      now rewrite (extract_loop_eq (S n) s1), Hfind.
Qed.

Lemma extract_directories_app (s1 s2 : list ascii) :
  reports_closed s1 = true ->
  extract_directories (s1 ++ s2)
  = both (extract_directories s1) (extract_directories s2).
Proof.
  intros H. unfold extract_directories. now apply reports_closed_then.
Qed.

(** ** Fragments *)

Lemma tab_handle_output_app (s1 s2 : list ascii) (tab : Tab) :
  cut_safe s1 ->
  tab_handle_output (s1 ++ s2) tab
  = bind (tab_handle_output s1 tab) (tab_handle_output s2).
Proof.
  intros [Hrest Hclosed]. unfold tab_handle_output.
  rewrite handle_output_app by exact Hrest.
  rewrite extract_directories_app by exact Hclosed.
  destruct (handle_output s1 (terminal tab)) as [t1|f|]; [|reflexivity..].
  destruct (extract_loop_total (length s1) s1 (le_n _)) as [dirs1 Hdirs1].
  unfold extract_directories at 1 3. rewrite Hdirs1. cbn [bind both].
  cbn [terminal directory_events].
  destruct (handle_output s2 t1) as [t2|f|]; [|reflexivity..].
  destruct (extract_directories s2) as [dirs2|]; [|reflexivity].
  now rewrite app_assoc.
Qed.

Lemma feed_single (s : list ascii) (tab : Tab) :
  feed [s] tab = tab_handle_output s tab.
Proof.
  cbn [feed]. now destruct (tab_handle_output s tab).
Qed.




(** * Further properties of the code *)

(** ** Text written at the end of a line *)

Lemma write_char_at_line_end (c : ascii) (pre post : list qchar) :
  run_length post = 0 ->
  write_char c (mkTerminal (pre ++ post) (length pre))
  = mkTerminal ((pre ++ [QChar c]) ++ post) (length (pre ++ [QChar c])).
Proof.
  intros Hpost. unfold write_char, insertText, mkTerminal.
  cbn [document position].
  assert (Hd : match nth_error (pre ++ post) (length pre) with
               | Some (QChar _) =>
                   removeRange (pre ++ post) (length pre) (S (length pre))
               | _ => pre ++ post
               end = pre ++ post).
  { destruct post as [|[x|] post].
    - rewrite app_nil_r, nth_error_pre_end. reflexivity.
    - discriminate Hpost.
    - rewrite nth_error_pre. reflexivity. }
  rewrite Hd, insertAt_pre, length_app, <- app_assoc. cbn.
  f_equal. lia.
Qed.

Lemma plain_text_loop (s : list ascii) :
  forall (n : nat) (pre post : list qchar),
    forallb is_plain s = true -> run_length post = 0 -> length s <= n ->
    handle_loop n s (mkTerminal (pre ++ post) (length pre))
    = Returns (mkTerminal ((pre ++ map QChar s) ++ post)
                       (length (pre ++ map QChar s))).
Proof.
  induction s as [|c s IH]; intros n pre post Hs Hpost Hn.
  - cbn [map]. rewrite app_nil_r. apply handle_loop_nil.
  - cbn [forallb] in Hs. apply andb_true_iff in Hs. destruct Hs as [Hc Hs].
    destruct n as [|n]; [cbn in Hn; lia|]. cbn [length] in Hn.
    rewrite plain_step by exact Hc.
    rewrite write_char_at_line_end by exact Hpost.
    rewrite IH by (assumption || lia).
    cbn [map]. do 2 f_equal.
    + now rewrite <- !app_assoc.
    + now rewrite <- !app_assoc.
Qed.

(** X1: text without CR, LF, backspace, DEL, BEL and ESC that arrives while
    the cursor stands at the end of its line (before a line break or at the
    end of the document) is appended to that line as it is: no character is
    dropped or overwritten, the other lines stay, and the cursor ends behind
    the text. *)
Theorem plain_text_is_appended (s : list ascii) (pre post : list qchar) :
  forallb is_plain s = true -> run_length post = 0 ->
  handle_output s (mkTerminal (pre ++ post) (length pre))
  = Returns (mkTerminal (pre ++ map QChar s ++ post)
                     (length pre + length s)).
Proof.
  intros Hs Hpost. unfold handle_output.
  rewrite plain_text_loop by (assumption || lia).
  rewrite length_app, length_map, <- app_assoc. reflexivity.
Qed.

Lemma plain_text_is_appended_witness :
  forallb is_plain (list_ascii_of_string "ls -l") = true
  /\ run_length [ParSep; QChar "x"] = 0
  /\ handle_output (list_ascii_of_string "ls -l")
       (mkTerminal ([QChar "$"; QChar " "] ++ [ParSep; QChar "x"])
                   (length [QChar "$"; QChar " "]))
     = Returns (mkTerminal
               ([QChar "$"; QChar " "]
                ++ map QChar (list_ascii_of_string "ls -l")
                ++ [ParSep; QChar "x"])
               (length [QChar "$"; QChar " "]
                + length (list_ascii_of_string "ls -l"))).
Proof.
  split; [reflexivity|]. split; [reflexivity|].
  apply (plain_text_is_appended (list_ascii_of_string "ls -l")
           [QChar "$"; QChar " "] [ParSep; QChar "x"]); reflexivity.
Defined.

(** ** OSC sequences *)

Lemma skip_osc_to_bel (body rest : list ascii) :
  no_bel_esc body = true -> skip_osc (body ++ BEL :: rest) = rest.
Proof.
  induction body as [|c body IH]; intros H; [reflexivity|].
  cbn [no_bel_esc forallb] in H. apply andb_true_iff in H.
  destruct H as [Hc H]. apply negb_true_iff, orb_false_iff in Hc.
  destruct Hc as [Hbel Hesc].
  cbn [app skip_osc]. rewrite Hbel, Hesc. now apply IH.
Qed.

Lemma skip_osc_to_st (body rest : list ascii) :
  no_bel_esc body = true -> skip_osc (body ++ ESC :: "\" :: rest) = rest.
Proof.
  induction body as [|c body IH]; intros H; [reflexivity|].
  cbn [no_bel_esc forallb] in H. apply andb_true_iff in H.
  destruct H as [Hc H]. apply negb_true_iff, orb_false_iff in Hc.
  destruct Hc as [Hbel Hesc].
  cbn [app skip_osc]. rewrite Hbel, Hesc. now apply IH.
Qed.

Lemma skip_osc_unterminated (body : list ascii) :
  osc_terminated body = false -> skip_osc body = [].
Proof.
  induction body as [|c body IH]; [reflexivity|].
  cbn [osc_terminated skip_osc].
  destruct (Ascii.eqb c BEL); [discriminate|].
  destruct (Ascii.eqb c ESC); [|exact IH].
  destruct body as [|c2 body2]; [reflexivity|].
  destruct (Ascii.eqb c2 "\"); [discriminate | exact IH].
Qed.

Lemma osc_step (n : nat) (body : list ascii) (t : Terminal) :
  handle_loop (S n) (ESC :: "]" :: body) t = handle_loop n (skip_osc body) t.
Proof. reflexivity. Qed.

Lemma osc_to_bel_absorbed (body rest : list ascii) (t : Terminal) :
  no_bel_esc body = true ->
  handle_output (ESC :: "]" :: body ++ BEL :: rest) t = handle_output rest t.
Proof.
  intros Hbody. unfold handle_output. cbn [length]. rewrite osc_step.
  rewrite skip_osc_to_bel by exact Hbody.
  apply handle_loop_fuel; rewrite ?length_app; cbn; lia.
Qed.

(** X2: an OSC sequence, ESC "]" up to a BEL or up to ESC "\", whose body
    holds neither BEL nor ESC, renders nothing and moves nothing: the text
    behind it is processed from the very state the sequence was met in. *)
Theorem osc_sequence_is_not_rendered (body rest : list ascii) (t : Terminal) :
  no_bel_esc body = true ->
  handle_output (ESC :: "]" :: body ++ BEL :: rest) t = handle_output rest t
  /\ handle_output (ESC :: "]" :: body ++ ESC :: "\" :: rest) t
     = handle_output rest t.
Proof.
  intros Hbody. unfold handle_output. cbn [length]. rewrite !osc_step.
  rewrite skip_osc_to_bel, skip_osc_to_st by exact Hbody.
  split; apply handle_loop_fuel; rewrite ?length_app; cbn; lia.
Qed.

Lemma osc_sequence_is_not_rendered_witness :
  no_bel_esc (list_ascii_of_string "0;title") = true
  /\ handle_output (ESC :: "]" :: list_ascii_of_string "0;title"
                      ++ BEL :: list_ascii_of_string "ok") empty_terminal
     = handle_output (list_ascii_of_string "ok") empty_terminal.
Proof.
  split; [reflexivity|].
  apply (proj1 (osc_sequence_is_not_rendered (list_ascii_of_string "0;title")
                  (list_ascii_of_string "ok") empty_terminal eq_refl)).
Defined.

(** X3: an OSC sequence without terminator swallows the rest of its
    fragment: whatever follows ESC "]" in the fragment, line feeds and text
    included, leaves the document and the cursor as they are. *)
Theorem unterminated_osc_swallows_fragment (body : list ascii) (t : Terminal) :
  osc_terminated body = false ->
  handle_output (ESC :: "]" :: body) t = Returns t.
Proof.
  intros Hbody. unfold handle_output. cbn [length]. rewrite osc_step.
  rewrite skip_osc_unterminated by exact Hbody. apply handle_loop_nil.
Qed.

Lemma unterminated_osc_swallows_fragment_witness :
  osc_terminated (list_ascii_of_string "0;title" ++ LF
                    :: list_ascii_of_string "lost") = false
  /\ handle_output (ESC :: "]" :: list_ascii_of_string "0;title" ++ LF
                      :: list_ascii_of_string "lost") empty_terminal
     = Returns empty_terminal.
Proof.
  split; [reflexivity|].
  apply (unterminated_osc_swallows_fragment
           (list_ascii_of_string "0;title" ++ LF
              :: list_ascii_of_string "lost") empty_terminal eq_refl).
Defined.

(** ** Erase in display *)

(** X4: ESC [ 2 J and ESC [ 3 J forget the whole document, whatever it held
    and wherever the cursor stood: the text behind the sequence is processed
    from the empty document with the cursor at position 0. *)
Theorem clear_screen_forgets_document (rest : list ascii) (t : Terminal) :
  handle_output (ESC :: list_ascii_of_string "[2J" ++ rest) t
  = handle_output rest empty_terminal
  /\ handle_output (ESC :: list_ascii_of_string "[3J" ++ rest) t
     = handle_output rest empty_terminal.
Proof.
  unfold handle_output.
  split; cbn [length list_ascii_of_string app]; rewrite escape_step;
    (change (handle_loop (S (S (S (length rest)))) rest empty_terminal
             = handle_loop (length rest) rest empty_terminal);
     apply handle_loop_fuel; lia).
Qed.

(** ** Erase in line *)

Lemma firstn_two (a b c : list qchar) :
  firstn (length a + length b) (a ++ b ++ c) = a ++ b.
Proof.
  rewrite app_assoc, <- length_app. apply firstn_pre.
Qed.

Lemma skipn_two (a b c : list qchar) :
  skipn (length a + length b) (a ++ b ++ c) = c.
Proof.
  rewrite app_assoc, <- length_app. apply skipn_pre.
Qed.

Lemma run_length_rev_chars (head : list qchar) (b : list ascii) :
  run_length (rev (head ++ map QChar b)) = length b + run_length (rev head).
Proof.
  rewrite rev_app_distr, <- map_rev, run_length_chars, length_rev.
  reflexivity.
Qed.

Lemma startOfBlock_in_line (head rest : list qchar) (before : list ascii) :
  run_length (rev head) = 0 ->
  startOfBlock (head ++ map QChar before ++ rest)
               (length head + length before) = length head.
Proof.
  intros Hhead. unfold startOfBlock.
  rewrite <- (length_map QChar before), firstn_two.
  rewrite run_length_rev_chars, Hhead, length_map. lia.
Qed.

Lemma endOfBlock_in_line (head tail : list qchar) (after : list ascii) :
  run_length tail = 0 ->
  endOfBlock (head ++ map QChar after ++ tail) (length head)
  = length head + length after.
Proof.
  intros Htail. unfold endOfBlock.
  rewrite skipn_pre, run_length_chars, Htail. lia.
Qed.

(** X5: erase in line touches the cursor's line only.  With the cursor
    between the texts [before] and [after] of its line, ESC [ K and
    ESC [ 0 K remove [after] and leave the cursor where it is; ESC [ 1 K
    removes [before], so that [after] moves up to the start of the line,
    where the cursor ends; ESC [ 2 K empties the line and puts the cursor at
    its start.  The lines before and behind stay as they are. *)
Theorem erase_in_line_keeps_other_lines (head tail : list qchar)
  (before after : list ascii) :
  run_length (rev head) = 0 -> run_length tail = 0 ->
  let t := mkTerminal (head ++ map QChar before ++ map QChar after ++ tail)
                      (length head + length before) in
  handle_output (ESC :: list_ascii_of_string "[K") t
  = Returns (mkTerminal (head ++ map QChar before ++ tail)
                     (length head + length before))
  /\ handle_output (ESC :: list_ascii_of_string "[0K") t
     = Returns (mkTerminal (head ++ map QChar before ++ tail)
                        (length head + length before))
  /\ handle_output (ESC :: list_ascii_of_string "[1K") t
     = Returns (mkTerminal (head ++ map QChar after ++ tail) (length head))
  /\ handle_output (ESC :: list_ascii_of_string "[2K") t
     = Returns (mkTerminal (head ++ tail) (length head)).
Proof.
  intros Hhead Htail t.
  set (d := head ++ map QChar before ++ map QChar after ++ tail).
  set (p := length head + length before).
  assert (Hstart : startOfBlock d p = length head)
    by (apply startOfBlock_in_line, Hhead).
  assert (Hend : endOfBlock d p = p + length after).
  { unfold d, p. rewrite app_assoc, <- (length_map QChar before), <- length_app.
    apply endOfBlock_in_line, Htail. }
  assert (Hend0 : endOfBlock d (length head)
                  = length head + (length before + length after)).
  { unfold d. rewrite (app_assoc (map QChar before)), <- map_app.
    rewrite endOfBlock_in_line by exact Htail. now rewrite length_app. }
  assert (Hfirst : firstn p d = head ++ map QChar before).
  { unfold d, p. rewrite <- (length_map QChar before). apply firstn_two. }
  assert (Hskip : skipn p d = map QChar after ++ tail).
  { unfold d, p. rewrite <- (length_map QChar before). apply skipn_two. }
  assert (Hskip' : skipn (p + length after) d = tail).
  { rewrite skipn_add, Hskip, <- (length_map QChar after).
    apply skipn_pre. }
  assert (Hfirst0 : firstn (length head) d = head) by apply firstn_pre.
  assert (K0 : erase_in_line [] t
               = mkTerminal (head ++ map QChar before ++ tail) p).
  { unfold erase_in_line, removeSelection, removeRange, t, mkTerminal.
    cbn [mode_of text_eqb Ascii.eqb Bool.eqb andb document position].
    fold d p. rewrite Hend.
    replace (Nat.min p (p + length after)) with p by lia.
    replace (Nat.max p (p + length after)) with (p + length after) by lia.
    now rewrite Hfirst, Hskip', <- app_assoc. }
  assert (K1 : erase_in_line ["1"] t
               = mkTerminal (head ++ map QChar after ++ tail) (length head)).
  { unfold erase_in_line, removeSelection, removeRange, t, mkTerminal.
    cbn [mode_of text_eqb Ascii.eqb Bool.eqb andb document position].
    fold d p. rewrite Hstart.
    replace (Nat.min p (length head)) with (length head) by (unfold p; lia).
    replace (Nat.max p (length head)) with p by (unfold p; lia).
    now rewrite Hfirst0, Hskip. }
  assert (K2 : erase_in_line ["2"] t = mkTerminal (head ++ tail) (length head)).
  { unfold erase_in_line, removeSelection, removeRange, t, mkTerminal.
    cbn [mode_of text_eqb Ascii.eqb Bool.eqb andb document position].
    fold d p. rewrite Hstart, Hend0.
    replace (Nat.min (length head)
               (length head + (length before + length after)))
      with (length head) by lia.
    replace (Nat.max (length head)
               (length head + (length before + length after)))
      with (p + length after) by (unfold p; lia).
    now rewrite Hfirst0, Hskip'. }
  repeat split.
  - change (Returns (erase_in_line [] t) = Returns (mkTerminal
      (head ++ map QChar before ++ tail) p)). now rewrite K0.
  - change (Returns (erase_in_line ["0"] t) = Returns (mkTerminal
      (head ++ map QChar before ++ tail) p)).
    change (erase_in_line ["0"] t) with (erase_in_line [] t).
    now rewrite K0.
  - change (Returns (erase_in_line ["1"] t) = Returns (mkTerminal
      (head ++ map QChar after ++ tail) (length head))). now rewrite K1.
  - change (Returns (erase_in_line ["2"] t)
            = Returns (mkTerminal (head ++ tail) (length head))).
    now rewrite K2.
Qed.

Lemma erase_in_line_keeps_other_lines_witness :
  run_length (rev [QChar "o"; ParSep]) = 0
  /\ run_length [ParSep; QChar "z"] = 0
  /\ handle_output (ESC :: list_ascii_of_string "[1K")
       (mkTerminal ([QChar "o"; ParSep]
                    ++ map QChar (list_ascii_of_string "ab")
                    ++ map QChar (list_ascii_of_string "cd")
                    ++ [ParSep; QChar "z"])
                   (length [QChar "o"; ParSep]
                    + length (list_ascii_of_string "ab")))
     = Returns (mkTerminal ([QChar "o"; ParSep]
                         ++ map QChar (list_ascii_of_string "cd")
                         ++ [ParSep; QChar "z"])
                        (length [QChar "o"; ParSep])).
Proof.
  split; [reflexivity|]. split; [reflexivity|].
  apply (proj1 (proj2 (proj2
    (erase_in_line_keeps_other_lines [QChar "o"; ParSep] [ParSep; QChar "z"]
       (list_ascii_of_string "ab") (list_ascii_of_string "cd")
       eq_refl eq_refl)))).
Defined.

(** ** Cursor position, in general *)

Lemma csi_step (n : nat) (params rest : list ascii) (command : ascii)
  (t : Terminal) :
  no_letter params = true -> isalpha command = true ->
  handle_loop (S n) (ESC :: "[" :: params ++ command :: rest) t
  = bind (csi_dispatch command params t) (handle_loop n rest).
Proof.
  intros Hp Hc. rewrite escape_step.
  change (Ascii.eqb "[" "[") with true. cbv iota.
  now rewrite read_params_to_command.
Qed.

Lemma csi_alone (params : list ascii) (command : ascii) (t : Terminal) :
  no_letter params = true -> isalpha command = true ->
  handle_output (ESC :: "[" :: params ++ [command]) t
  = csi_dispatch command params t.
Proof.
  intros Hp Hc. unfold handle_output. cbn [length].
  rewrite csi_step by assumption.
  destruct (csi_dispatch command params t); cbn [bind];
    [apply handle_loop_nil | reflexivity..].
Qed.

Lemma parse_position_fields (params : list ascii) :
  length (split_on ";" params) <> 2 -> parse_position params = (1%Z, 1%Z).
Proof.
  intros H. unfold parse_position.
  destruct params as [|c params]; [reflexivity|].
  destruct (split_on ";" (c :: params)) as [|p0 [|p1 [|p2 ps]]];
    try reflexivity.
  now contradiction H.
Qed.

Lemma blockPosition_0 (d : list qchar) : blockPosition d 0 = 0.
Proof. destruct d; reflexivity. Qed.

Lemma cursor_position_home (params : list ascii) (t : Terminal) :
  parse_position params = (1%Z, 1%Z) ->
  cursor_position params t = Returns (mkTerminal (document t) 0).
Proof.
  intros H.
  rewrite (cursor_position_within _ _ _ _ H) by (unfold INT_MAX; lia).
  change (Z.to_nat 1) with 1. unfold blockCount.
  cbn [Nat.sub repeat]. rewrite app_nil_r.
  now rewrite blockPosition_0.
Qed.

(** X6: a cursor-position sequence, ESC [ ... H or ESC [ ... f, whose
    parameter text does not consist of exactly two fields separated by one
    ";" goes to the start of the document and leaves the document as it is.
    A single number counts as such: ESC [ 5 H goes to the first line, not to
    the fifth. *)
Theorem cursor_position_needs_two_fields (params : list ascii) (t : Terminal) :
  no_letter params = true ->
  length (split_on ";" params) <> 2 ->
  handle_output (ESC :: "[" :: params ++ ["H"]) t
  = Returns (mkTerminal (document t) 0)
  /\ handle_output (ESC :: "[" :: params ++ ["f"]) t
     = Returns (mkTerminal (document t) 0).
Proof.
  intros Hp Hfields.
  rewrite !csi_alone by (assumption || reflexivity).
  unfold csi_dispatch. cbn [Ascii.eqb Bool.eqb andb orb].
  rewrite cursor_position_home by now apply parse_position_fields.
  split; reflexivity.
Qed.

Lemma cursor_position_needs_two_fields_witness :
  no_letter ["5"] = true
  /\ length (split_on ";" ["5"]) <> 2
  /\ handle_output (ESC :: "[" :: ["5"] ++ ["H"])
       (mkTerminal (doc_of_lines ["a"; "b"; "c"]%string) 5)
     = Returns (mkTerminal
               (document (mkTerminal (doc_of_lines ["a"; "b"; "c"]%string) 5))
               0).
Proof.
  split; [reflexivity|]. split; [discriminate|].
  apply (proj1 (cursor_position_needs_two_fields ["5"]
                  (mkTerminal (doc_of_lines ["a"; "b"; "c"]%string) 5)
                  eq_refl ltac:(discriminate))).
Defined.

Lemma run_length_snoc (l x : list qchar) :
  run_length l = 0 -> l <> [] -> run_length (l ++ x) = 0.
Proof.
  destruct l as [|[c|] l]; intros H Hne; [contradiction | discriminate|].
  reflexivity.
Qed.

(** The start of block [n]: [n] line breaks stand before it, the last of
    them right before it. *)
Lemma blockPosition_spec (d : list qchar) :
  forall n : nat, n < blockCount d ->
    blockPosition d n <= length d
    /\ length (filter is_sep (firstn (blockPosition d n) d)) = n
    /\ run_length (rev (firstn (blockPosition d n) d)) = 0.
Proof.
  unfold blockCount.
  induction d as [|q d IH]; intros n Hn.
  - cbn in Hn. assert (n = 0) by lia. subst n. cbn. repeat split; lia.
  - destruct n as [|n]; [cbn; repeat split; lia|].
    destruct q as [c|].
    + cbn [filter is_sep] in Hn.
      destruct (IH (S n) Hn) as (Hle & Hcount & Hrun).
      cbn [blockPosition firstn filter is_sep length rev].
      repeat split; [lia | exact Hcount |].
      apply run_length_snoc; [exact Hrun|].
      intros Hnil. apply (f_equal (@rev qchar)) in Hnil.
      rewrite rev_involutive in Hnil. cbn in Hnil.
      rewrite Hnil in Hcount. discriminate.
    + cbn [filter is_sep length] in Hn.
      destruct (IH n ltac:(lia)) as (Hle & Hcount & Hrun).
      cbn [blockPosition firstn filter is_sep length rev].
      repeat split; [lia | now rewrite Hcount |].
      destruct (rev (firstn (blockPosition d n) d)) as [|[c|] l] eqn:E;
        [reflexivity | discriminate | reflexivity].
Qed.

Lemma filter_sep_repeat (k : nat) :
  length (filter is_sep (repeat ParSep k)) = k.
Proof. induction k as [|k IH]; cbn; [reflexivity | now rewrite IH]. Qed.



(** ** The erase idiom: backspace, space, backspace *)

Lemma backspace_step (c : ascii) (n : nat) (rest : list ascii) (t : Terminal) :
  is_backspace c = true ->
  handle_loop (S n) (c :: rest) t
  = match rest with
    | c1 :: c2 :: rest' =>
        if Ascii.eqb c1 " " && is_backspace c2
        then handle_loop n rest' (backspace t)
        else handle_loop n rest (backspace t)
    | _ => handle_loop n rest (backspace t)
    end.
Proof.
  intros H. destruct (backspace_not_cr_lf c H) as [Hcr Hlf].
  cbn [handle_loop]. now rewrite Hcr, Hlf, H.
Qed.

Lemma backspace_behind (pre post : list qchar) (q : qchar) :
  backspace (mkTerminal (pre ++ q :: post) (S (length pre)))
  = mkTerminal (pre ++ post) (length pre).
Proof.
  unfold backspace, deletePreviousChar, mkTerminal.
  cbn [document position Nat.ltb Nat.leb]. now rewrite removeRange_one.
Qed.

Lemma space_at_line_end (pre post : list qchar) :
  run_length post = 0 ->
  write_char " " (mkTerminal (pre ++ post) (length pre))
  = mkTerminal (pre ++ QChar " " :: post) (S (length pre)).
Proof.
  intros H. rewrite write_char_at_line_end by exact H.
  rewrite length_app, <- app_assoc. cbn. f_equal. lia.
Qed.

Lemma space_on_char (pre post : list qchar) (x : ascii) :
  write_char " " (mkTerminal (pre ++ QChar x :: post) (length pre))
  = mkTerminal (pre ++ QChar " " :: post) (S (length pre)).
Proof.
  unfold write_char, insertText, mkTerminal. cbn [document position].
  now rewrite nth_error_pre, removeRange_one, insertAt_pre.
Qed.

(** X8: the erase idiom backspace, space, backspace removes the element
    before the cursor, and nothing else, when it arrives in one fragment.
    With the cursor at the end of its line the result is the same however
    the three characters are split into fragments.  With the cursor on a
    character [x] of its line, a split behind the first backspace makes the
    space overwrite [x]: the second backspace then removes that space, and
    [x] is lost with the element before the cursor. *)
Theorem erase_idiom (b1 b2 : ascii) (pre post : list qchar) (q : qchar) :
  is_backspace b1 = true -> is_backspace b2 = true ->
  handle_output [b1; " "; b2]
    (mkTerminal (pre ++ q :: post) (S (length pre)))
  = Returns (mkTerminal (pre ++ post) (length pre))
  /\ (run_length post = 0 ->
      forall fragments,
        In fragments [ [[b1]; [" "; b2]]; [[b1; " "]; [b2]];
                       [[b1]; [" "]; [b2]] ] ->
        run_fragments fragments
          (mkTerminal (pre ++ q :: post) (S (length pre)))
        = Returns (mkTerminal (pre ++ post) (length pre)))
  /\ (forall x : ascii,
      run_fragments [[b1]; [" "; b2]]
        (mkTerminal (pre ++ q :: QChar x :: post) (S (length pre)))
      = Returns (mkTerminal (pre ++ post) (length pre))).
Proof.
  intros H1 H2.
  assert (Hsp : is_plain " " = true) by reflexivity.
  assert (Hone : forall (b : ascii) (t : Terminal), is_backspace b = true ->
            handle_output [b] t = Returns (backspace t))
    by (intros; now apply backspace_alone).
  assert (Hspace_b : forall t : Terminal,
            handle_output [" "; b2] t
            = Returns (backspace (write_char " " t))).
  { intros t. unfold handle_output. cbn [length].
    rewrite plain_step by exact Hsp.
    rewrite backspace_step by exact H2. reflexivity. }
  assert (Hb_space : forall t : Terminal,
            handle_output [b1; " "] t
            = Returns (write_char " " (backspace t))).
  { intros t. unfold handle_output. cbn [length].
    rewrite backspace_step by exact H1.
    rewrite plain_step by exact Hsp. reflexivity. }
  assert (Hspace : forall t : Terminal,
            handle_output [" "] t = Returns (write_char " " t)).
  { intros t. unfold handle_output. cbn [length].
    rewrite plain_step by exact Hsp. reflexivity. }
  split; [|split].
  - unfold handle_output. cbn [length].
    rewrite backspace_step by exact H1.
    change (Ascii.eqb " " " ") with true. rewrite H2. cbn [andb].
    rewrite handle_loop_nil. now rewrite backspace_behind.
  - intros Hpost fragments Hin.
    cbn [In] in Hin.
    destruct Hin as [<- | [<- | [<- | []]]]; cbn [run_fragments bind].
    + rewrite Hone by exact H1. cbn [bind]. rewrite Hspace_b. cbn [bind].
      rewrite backspace_behind, space_at_line_end by exact Hpost.
      now rewrite backspace_behind.
    + rewrite Hb_space. cbn [bind]. rewrite Hone by exact H2. cbn [bind].
      rewrite backspace_behind, space_at_line_end by exact Hpost.
      now rewrite backspace_behind.
    + rewrite Hone by exact H1. cbn [bind]. rewrite Hspace. cbn [bind].
      rewrite Hone by exact H2. cbn [bind].
      rewrite backspace_behind, space_at_line_end by exact Hpost.
      now rewrite backspace_behind.
  - intros x. cbn [run_fragments bind].
    rewrite Hone by exact H1. cbn [bind]. rewrite Hspace_b. cbn [bind].
    rewrite backspace_behind, space_on_char.
    now rewrite backspace_behind.
Qed.

Lemma erase_idiom_witness :
  is_backspace BS = true /\ is_backspace DEL = true
  /\ handle_output [BS; " "; DEL]
       (mkTerminal ([QChar "a"] ++ QChar "b" :: [QChar "c"])
                   (S (length [QChar "a"])))
     = Returns (mkTerminal ([QChar "a"] ++ [QChar "c"]) (length [QChar "a"]))
  /\ run_fragments [[BS]; [" "; DEL]]
       (mkTerminal ([QChar "a"] ++ QChar "b" :: QChar "c" :: [])
                   (S (length [QChar "a"])))
     = Returns (mkTerminal ([QChar "a"] ++ []) (length [QChar "a"])).
Proof.
  split; [reflexivity|]. split; [reflexivity|]. split.
  - apply (proj1 (erase_idiom BS DEL [QChar "a"] [QChar "c"] (QChar "b")
                    eq_refl eq_refl)).
  - apply (proj2 (proj2 (erase_idiom BS DEL [QChar "a"] [] (QChar "b")
                           eq_refl eq_refl)) "c").
Defined.

(** ** Line feed and carriage return *)

Lemma characters_app (a b : list qchar) :
  characters (a ++ b) = characters a ++ characters b.
Proof.
  induction a as [|[c|] a IH]; cbn; [reflexivity | now rewrite IH | exact IH].
Qed.

Lemma firstn_add (d : list qchar) (p k : nat) :
  firstn (p + k) d = firstn p d ++ firstn k (skipn p d).
Proof.
  revert d. induction p as [|p IH]; intros d; [reflexivity|].
  destruct d as [|q d]; cbn [Nat.add firstn skipn app].
  - now rewrite firstn_nil.
  - now rewrite IH.
Qed.

Lemma no_sep_in_run (l : list qchar) :
  filter is_sep (firstn (run_length l) l) = [].
Proof.
  induction l as [|[c|] l IH]; cbn; auto.
Qed.

(** X9: a line feed adds exactly one line and removes nothing: the document
    has one line break more, its characters are the same in the same order,
    and the cursor is on the line below the one it was on. *)
Theorem line_feed_adds_one_line (t : Terminal) :
  well_formed t ->
  exists t', handle_output [LF] t = Returns t'
    /\ blockCount (document t') = S (blockCount (document t))
    /\ characters (document t') = characters (document t)
    /\ cursor_line t' = S (cursor_line t)
    /\ cursor_column t' = 0.
Proof.
  intros Hwf.
  exists (insertBlock (cursor_to_line_end t)). split; [reflexivity|].
  destruct (line_feed_fresh_line t Hwf) as (Hcol & _ & _).
  destruct t as [d p]. unfold well_formed in Hwf. cbn in Hwf.
  unfold insertBlock, cursor_to_line_end, cursor_line in *.
  cbn [document position] in *.
  set (e := endOfBlock d p) in *.
  assert (He : e <= length d) by (apply endOfBlock_le, Hwf).
  assert (Hfirst : length (firstn e d) = e)
    by (apply firstn_skipn_length, He).
  repeat split.
  - unfold blockCount, insertAt. rewrite filter_app, length_app.
    cbn [filter is_sep length].
    rewrite <- (firstn_skipn e d) at 3.
    rewrite filter_app, length_app. lia.
  - unfold insertAt. rewrite characters_app. cbn [characters].
    rewrite <- characters_app. now rewrite firstn_skipn.
  - unfold insertAt.
    replace (S e) with (length (firstn e d ++ [ParSep]))
      by (rewrite length_app; cbn; lia).
    replace (firstn e d ++ ParSep :: skipn e d)
      with ((firstn e d ++ [ParSep]) ++ skipn e d)
      by (rewrite <- app_assoc; reflexivity).
    rewrite firstn_pre, filter_app, length_app. cbn [filter is_sep length].
    unfold e, endOfBlock. rewrite firstn_add, filter_app, no_sep_in_run.
    rewrite app_nil_r. lia.
  - exact Hcol.
Qed.

Lemma line_feed_adds_one_line_witness :
  well_formed (mkTerminal (doc_of_lines ["abc"; "de"]%string) 1)
  /\ exists t',
       handle_output [LF] (mkTerminal (doc_of_lines ["abc"; "de"]%string) 1)
       = Returns t'
       /\ blockCount (document t')
          = S (blockCount
                 (document (mkTerminal (doc_of_lines ["abc"; "de"]%string) 1)))
       /\ characters (document t')
          = characters
              (document (mkTerminal (doc_of_lines ["abc"; "de"]%string) 1))
       /\ cursor_line t'
          = S (cursor_line (mkTerminal (doc_of_lines ["abc"; "de"]%string) 1))
       /\ cursor_column t' = 0.
Proof.
  assert (H : well_formed (mkTerminal (doc_of_lines ["abc"; "de"]%string) 1))
    by (unfold well_formed; cbn; lia).
  split; [exact H|].
  apply (line_feed_adds_one_line
           (mkTerminal (doc_of_lines ["abc"; "de"]%string) 1) H).
Defined.

(** The part of the document before the cursor: whole lines, then the text
    of the cursor's line up to the cursor. *)
Lemma before_cursor (a : list qchar) :
  exists (a1 : list qchar) (b : list ascii),
    a = a1 ++ map QChar b
    /\ run_length (rev a) = length b
    /\ run_length (rev a1) = 0.
Proof.
  induction a as [|q a IH] using rev_ind.
  - exists [], []. repeat split.
  - rewrite rev_app_distr. cbn [rev app].
    destruct q as [c|].
    + destruct IH as (a1 & b & -> & Hrun & Hhead).
      exists a1, (b ++ [c]). repeat split.
      * rewrite map_app, app_assoc. reflexivity.
      * cbn. rewrite Hrun, length_app. cbn. lia.
      * exact Hhead.
    + exists (a ++ [ParSep]), []. repeat split.
      * cbn. now rewrite app_nil_r.
      * rewrite rev_app_distr. reflexivity.
Qed.

Lemma filter_sep_chars (b : list ascii) : filter is_sep (map QChar b) = [].
Proof. induction b; cbn; auto. Qed.

(** X10: a carriage return moves the cursor to column 0 of the line it is
    on and changes nothing else; a second carriage return changes nothing
    at all. *)
Theorem carriage_return_goes_to_line_start (t : Terminal) :
  well_formed t ->
  exists t', handle_output [CR] t = Returns t'
    /\ document t' = document t
    /\ cursor_line t' = cursor_line t
    /\ cursor_column t' = 0
    /\ handle_output [CR] t' = Returns t'.
Proof.
  intros Hwf.
  exists (cursor_to_line_start t). split; [reflexivity|].
  destruct t as [d p]. unfold well_formed in Hwf. cbn in Hwf.
  destruct (before_cursor (firstn p d)) as (a1 & b & Hsplit & Hrun & Hhead).
  assert (Hlen : p = length a1 + length b).
  { rewrite <- (firstn_skipn_length d p Hwf), Hsplit, length_app, length_map.
    reflexivity. }
  assert (Hd : d = a1 ++ map QChar b ++ skipn p d).
  { rewrite app_assoc, <- Hsplit. symmetry. apply firstn_skipn. }
  assert (Hstart : startOfBlock d p = length a1).
  { unfold startOfBlock. rewrite Hrun. lia. }
  assert (Hfirst : firstn (length a1) d = a1).
  { rewrite Hd. apply firstn_pre. }
  assert (Hidem : startOfBlock d (length a1) = length a1).
  { unfold startOfBlock. rewrite Hfirst, Hhead. lia. }
  unfold cursor_to_line_start, cursor_line, cursor_column.
  cbn [document position]. rewrite Hstart.
  repeat split.
  - rewrite Hfirst, Hsplit, filter_app, filter_sep_chars.
    now rewrite app_nil_r.
  - rewrite Hidem. lia.
  - change (Returns (cursor_to_line_start (mkTerminal d (length a1)))
            = Returns (mkTerminal d (length a1))).
    unfold cursor_to_line_start, mkTerminal. cbn [document position].
    now rewrite Hidem.
Qed.

Lemma carriage_return_goes_to_line_start_witness :
  well_formed (mkTerminal (doc_of_lines ["abc"; "de"]%string) 6)
  /\ exists t',
       handle_output [CR] (mkTerminal (doc_of_lines ["abc"; "de"]%string) 6)
       = Returns t'
       /\ document t'
          = document (mkTerminal (doc_of_lines ["abc"; "de"]%string) 6)
       /\ cursor_line t'
          = cursor_line (mkTerminal (doc_of_lines ["abc"; "de"]%string) 6)
       /\ cursor_column t' = 0
       /\ handle_output [CR] t' = Returns t'.
Proof.
  assert (H : well_formed (mkTerminal (doc_of_lines ["abc"; "de"]%string) 6))
    by (unfold well_formed; cbn; lia).
  split; [exact H|].
  apply (carriage_return_goes_to_line_start
           (mkTerminal (doc_of_lines ["abc"; "de"]%string) 6) H).
Defined.

(** ** The directories found by the extractor *)

Lemma terminator_after_bel_free (body : list ascii) (e l : nat) :
  find_osc_terminator body = Some (e, l) -> ~ In BEL (firstn e body).
Proof.
  revert e. induction body as [|c body IH]; intros e H; cbn in H;
    [discriminate|].
  destruct (Ascii.eqb c BEL) eqn:Hbel.
  { injection H as <- <-. cbn. tauto. }
  destruct (Ascii.eqb c ESC && _).
  { injection H as <- <-. cbn. tauto. }
  destruct (find_osc_terminator body) as [[e' l']|]; [|discriminate].
  injection H as <- <-. cbn [firstn In]. intros [Hc | Hin].
  - subst c. discriminate Hbel.
  - exact (IH e' eq_refl Hin).
Qed.

Lemma extract_loop_bel_free (n : nat) :
  forall (s : list ascii) (dirs : list (list ascii)),
    extract_loop n s = Some dirs -> Forall (fun d => ~ In BEL d) dirs.
Proof.
  induction n as [|n IH]; intros s dirs H; rewrite extract_loop_eq in H;
    destruct (find OSC_DIR_PREFIX s) as [start|];
    try (injection H as <-; constructor); cbv zeta in H;
    destruct (find_osc_terminator _) as [[e l]|] eqn:Hterm;
    try (injection H as <-; constructor); try discriminate.
  destruct (extract_loop n _) as [dirs'|] eqn:Hrest; [|discriminate].
  injection H as <-. constructor.
  - exact (terminator_after_bel_free _ _ _ Hterm).
  - exact (IH _ _ Hrest).
Qed.

(** X11: the scan for directory reports ends on every fragment, and no
    directory it returns holds a BEL: a directory ends at the first BEL (or
    ESC "\") behind the marker. *)
Theorem extracted_directories_hold_no_bel (s : list ascii) :
  exists dirs, extract_directories s = Some dirs
    /\ Forall (fun d => ~ In BEL d) dirs.
Proof.
  destruct (extract_loop_total (length s) s (le_n _)) as [dirs H].
  exists dirs. split; [exact H|].
  exact (extract_loop_bel_free _ _ _ H).
Qed.

Lemma starts_with_marker_head (s : list ascii) :
  starts_with OSC_DIR_PREFIX s = true -> exists s', s = ESC :: s'.
Proof.
  destruct s as [|c s]; [discriminate|].
  unfold OSC_DIR_PREFIX. cbn [starts_with]. intros H.
  apply andb_true_iff in H. destruct H as [H _].
  apply Ascii.eqb_eq in H. subst c. now exists s.
Qed.

Lemma find_marker_needs_escape (s : list ascii) (k : nat) :
  find OSC_DIR_PREFIX s = Some k -> In ESC s.
Proof.
  revert k. induction s as [|c s IH]; intros k H; cbn [find] in H.
  - destruct (starts_with OSC_DIR_PREFIX []) eqn:E; [|discriminate].
    discriminate E.
  - destruct (starts_with OSC_DIR_PREFIX (c :: s)) eqn:E.
    + destruct (starts_with_marker_head _ E) as [s' Hs].
      injection Hs as -> _. now left.
    + destruct (find OSC_DIR_PREFIX s) as [k'|]; [|discriminate].
      right. exact (IH k' eq_refl).
Qed.

(** X12: a fragment without ESC yields no directory. *)
Theorem no_escape_no_directory (s : list ascii) :
  ~ In ESC s -> extract_directories s = Some [].
Proof.
  intros H. unfold extract_directories. rewrite extract_loop_eq.
  destruct (find OSC_DIR_PREFIX s) as [k|] eqn:E; [|reflexivity].
  contradiction H. exact (find_marker_needs_escape _ _ E).
Qed.

Lemma no_escape_no_directory_witness :
  ~ In ESC (list_ascii_of_string "total 0")
  /\ extract_directories (list_ascii_of_string "total 0") = Some [].
Proof.
  assert (H : ~ In ESC (list_ascii_of_string "total 0")).
  { cbn. intros H. repeat (destruct H as [H|H]; [discriminate H|]).
    exact H. }
  split; [exact H|].
  apply (no_escape_no_directory (list_ascii_of_string "total 0") H).
Defined.

Lemma starts_with_self (m x : list ascii) : starts_with m (m ++ x) = true.
Proof.
  induction m as [|c m IH]; [reflexivity|].
  cbn. now rewrite Ascii.eqb_refl.
Qed.

Lemma find_marker_behind_text (pre x : list ascii) :
  ~ In ESC pre ->
  find OSC_DIR_PREFIX (pre ++ OSC_DIR_PREFIX ++ x) = Some (length pre).
Proof.
  induction pre as [|c pre IH]; intros H.
  - cbn [app length].
    pose proof (starts_with_self OSC_DIR_PREFIX x) as E.
    destruct (OSC_DIR_PREFIX ++ x) eqn:Ex; cbn [find]; now rewrite E.
  - cbn [app find length].
    destruct (starts_with OSC_DIR_PREFIX (c :: pre ++ OSC_DIR_PREFIX ++ x))
      eqn:E.
    + destruct (starts_with_marker_head _ E) as [s' Hs].
      injection Hs as -> _. contradiction H. now left.
    + rewrite IH; [reflexivity|]. intros Hin. apply H. now right.
Qed.

Lemma find_osc_terminator_bel (path rest : list ascii) :
  no_bel_esc path = true ->
  find_osc_terminator (path ++ BEL :: rest) = Some (length path, 1).
Proof.
  induction path as [|c path IH]; intros H; [reflexivity|].
  cbn [no_bel_esc forallb] in H. apply andb_true_iff in H.
  destruct H as [Hc H]. apply negb_true_iff, orb_false_iff in Hc.
  destruct Hc as [Hbel Hesc].
  cbn [app find_osc_terminator length]. rewrite Hbel, Hesc. cbn [andb].
  now rewrite IH.
Qed.

Lemma find_osc_terminator_st (path rest : list ascii) :
  no_bel_esc path = true ->
  find_osc_terminator (path ++ ESC :: "\" :: rest) = Some (length path, 2).
Proof.
  induction path as [|c path IH]; intros H; [reflexivity|].
  cbn [no_bel_esc forallb] in H. apply andb_true_iff in H.
  destruct H as [Hc H]. apply negb_true_iff, orb_false_iff in Hc.
  destruct Hc as [Hbel Hesc].
  cbn [app find_osc_terminator length]. rewrite Hbel, Hesc. cbn [andb].
  now rewrite IH.
Qed.

Lemma firstn_exact {A : Type} (a b : list A) : firstn (length a) (a ++ b) = a.
Proof.
  rewrite firstn_app, Nat.sub_diag, firstn_all. cbn. apply app_nil_r.
Qed.

Lemma skipn_exact {A : Type} (a b : list A) : skipn (length a) (a ++ b) = b.
Proof.
  rewrite skipn_app, Nat.sub_diag, skipn_all. reflexivity.
Qed.

Lemma extract_one_report (pre path terminator rest : list ascii) (l : nat) :
  ~ In ESC pre ->
  find_osc_terminator (path ++ terminator ++ rest) = Some (length path, l) ->
  length terminator = l -> 1 <= l ->
  extract_directories (pre ++ OSC_DIR_PREFIX ++ path ++ terminator ++ rest)
  = option_map (cons path) (extract_directories rest).
Proof.
  intros Hpre Hterm Hl Hpos. unfold extract_directories.
  rewrite extract_loop_eq, find_marker_behind_text by exact Hpre.
  cbv zeta.
  rewrite <- length_app, app_assoc, skipn_exact, Hterm, firstn_exact.
  replace (skipn (length path + l) (path ++ terminator ++ rest)) with rest.
  2:{ rewrite <- Hl, <- length_app, app_assoc, skipn_exact. reflexivity. }
  rewrite !length_app, marker_length.
  replace (length pre + 18
           + (length path + (length terminator + length rest)))
    with (S (length pre + 17 + length path + length terminator
             + length rest)) by lia.
  f_equal. apply extract_loop_fuel; lia.
Qed.

(** X13: the report that the prompt hook prints is read back as it was
    sent.  Behind text without ESC, the marker followed by a path that holds
    neither BEL nor ESC and by BEL (or by ESC "\") yields that path as the
    first directory, followed by the directories of the text behind the
    report; and the interpreter renders nothing of the report: it processes
    the text behind it from the state the report was met in. *)
Theorem report_round_trip (pre path rest : list ascii) :
  ~ In ESC pre -> no_bel_esc path = true ->
  extract_directories (pre ++ OSC_DIR_PREFIX ++ path ++ BEL :: rest)
  = option_map (cons path) (extract_directories rest)
  /\ extract_directories (pre ++ OSC_DIR_PREFIX ++ path ++ ESC :: "\" :: rest)
     = option_map (cons path) (extract_directories rest)
  /\ forall t : Terminal,
       handle_output (OSC_DIR_PREFIX ++ path ++ BEL :: rest) t
       = handle_output rest t.
Proof.
  intros Hpre Hpath. split; [|split].
  - apply (extract_one_report pre path [BEL] rest 1);
      [exact Hpre | now apply find_osc_terminator_bel | reflexivity | lia].
  - apply (extract_one_report pre path [ESC; "\"] rest 2);
      [exact Hpre | now apply find_osc_terminator_st | reflexivity | lia].
  - intros t.
    change (OSC_DIR_PREFIX ++ path ++ BEL :: rest)
      with (ESC :: "]" :: list_ascii_of_string "1337;CurrentDir="
              ++ path ++ BEL :: rest).
    rewrite app_assoc. apply osc_to_bel_absorbed.
    unfold no_bel_esc in *. rewrite forallb_app, Hpath. reflexivity.
Qed.

Lemma report_round_trip_witness :
  ~ In ESC (list_ascii_of_string "one")
  /\ no_bel_esc (list_ascii_of_string "/home/u") = true
  /\ extract_directories
       (list_ascii_of_string "one" ++ OSC_DIR_PREFIX
        ++ list_ascii_of_string "/home/u" ++ BEL
        :: list_ascii_of_string "$ ")
     = option_map (cons (list_ascii_of_string "/home/u"))
         (extract_directories (list_ascii_of_string "$ ")).
Proof.
  assert (H : ~ In ESC (list_ascii_of_string "one")).
  { cbn. intros H. repeat (destruct H as [H|H]; [discriminate H|]).
    exact H. }
  split; [exact H|]. split; [reflexivity|].
  apply (proj1 (report_round_trip (list_ascii_of_string "one")
                  (list_ascii_of_string "/home/u")
                  (list_ascii_of_string "$ ") H eq_refl)).
Defined.

(** ** What the recorder emits *)

Lemma lstrip_head (sp : ascii -> bool) (s : list ascii) :
  match lstrip sp s with
  | [] => True
  | c :: _ => sp c = false
  end.
Proof.
  induction s as [|c s IH]; cbn; [exact I|].
  destruct (sp c) eqn:E; [exact IH | exact E].
Qed.

Lemma lstrip_suffix (sp : ascii -> bool) (s : list ascii) :
  exists a, s = a ++ lstrip sp s.
Proof.
  induction s as [|c s [a IH]]; cbn; [now exists []|].
  destruct (sp c).
  - exists (c :: a). cbn. now rewrite <- IH.
  - now exists [].
Qed.

(** What [strip] returns is empty or trimmed. *)
Lemma strip_is_trimmed (s : list ascii) :
  strip_with py_isspace s = [] \/ is_trimmed (strip_with py_isspace s) = true.
Proof.
  unfold strip_with.
  pose proof (lstrip_head py_isspace s) as Hl.
  pose proof (lstrip_head py_isspace (rev (lstrip py_isspace s))) as Hr.
  destruct (lstrip_suffix py_isspace (rev (lstrip py_isspace s))) as [a Ha].
  destruct (lstrip py_isspace (rev (lstrip py_isspace s))) as [|c' r'];
    [now left|]. right.
  assert (Hrev : lstrip py_isspace s = rev (c' :: r') ++ rev a).
  { rewrite <- rev_app_distr, <- Ha. now rewrite rev_involutive. }
  unfold is_trimmed.
  destruct (rev (c' :: r')) as [|c x] eqn:E.
  - apply (f_equal (@rev ascii)) in E. rewrite rev_involutive in E.
    discriminate E.
  - rewrite <- E, rev_involutive.
    rewrite Hrev in Hl. cbn in Hl. now rewrite Hl, Hr.
Qed.

Lemma record_command_trimmed (command : list ascii) (w : Widget) :
  Forall (fun c => is_trimmed c = true) (command_executed w) ->
  Forall (fun c => is_trimmed c = true)
    (command_executed (record_command command w)).
Proof.
  intros H. unfold record_command.
  destruct (strip_is_trimmed command) as [E | E].
  - now rewrite E.
  - destruct (strip_with py_isspace command) as [|c s]; [exact H|].
    cbn [command_executed]. apply Forall_app. split; [exact H|].
    constructor; [exact E | constructor].
Qed.

(** What a key press does to the emitted commands: nothing, or what
    [_record_command] does with the input buffer. *)
Lemma keyPressEvent_commands (event : QKeyEvent) (w : Widget) :
  command_executed (keyPressEvent event w) = command_executed w
  \/ (matches_copy event = false /\ matches_paste event = false
      /\ (key event = Key_Return \/ key event = Key_Enter)
      /\ command_executed (keyPressEvent event w)
         = command_executed (record_command (input_buffer w) w)).
Proof.
  unfold keyPressEvent.
  destruct (matches_copy event).
  { left. destruct (selection w); reflexivity. }
  destruct (matches_paste event).
  { left. destruct (clipboard w); reflexivity. }
  destruct (key event) eqn:K; cbn [special_mappings];
    try (left; reflexivity);
    try (left; destruct (event_text event); cbn [is_empty negb];
         [apply command_executed_super_keyPressEvent | reflexivity]);
    try (left; destruct (input_buffer w); reflexivity).
  - right. repeat split; auto.
    cbn [set_input_buffer command_executed os_write input_buffer].
    unfold record_command. cbn [input_buffer os_write].
    destruct (strip_with py_isspace (input_buffer w)); reflexivity.
  - right. repeat split; auto.
    cbn [set_input_buffer command_executed os_write input_buffer].
    unfold record_command. cbn [input_buffer os_write].
    destruct (strip_with py_isspace (input_buffer w)); reflexivity.
Qed.

Lemma send_command_commands (command : list ascii) (add_newline : bool)
  (w : Widget) :
  command_executed (send_command command add_newline w)
  = if add_newline then command_executed (record_command command w)
    else command_executed w.
Proof.
  unfold send_command. destruct add_newline; [|reflexivity].
  unfold record_command.
  destruct (strip_with py_isspace command); reflexivity.
Qed.

(** X14: no blank command is ever recorded.  If every command emitted so
    far is non-empty and neither starts nor ends with whitespace, the same
    holds after any key press and after any programmatic [send_command]. *)
Theorem recorded_commands_are_trimmed (w : Widget) :
  Forall (fun c => is_trimmed c = true) (command_executed w) ->
  (forall event : QKeyEvent,
     Forall (fun c => is_trimmed c = true)
       (command_executed (keyPressEvent event w)))
  /\ (forall (command : list ascii) (add_newline : bool),
     Forall (fun c => is_trimmed c = true)
       (command_executed (send_command command add_newline w))).
Proof.
  intros H. split.
  - intros event.
    destruct (keyPressEvent_commands event w) as [E | (_ & _ & _ & E)];
      rewrite E; [exact H | now apply record_command_trimmed].
  - intros command add_newline. rewrite send_command_commands.
    destruct add_newline; [now apply record_command_trimmed | exact H].
Qed.

Lemma recorded_commands_are_trimmed_witness :
  Forall (fun c => is_trimmed c = true) (command_executed blank_buffer)
  /\ Forall (fun c => is_trimmed c = true)
       (command_executed (keyPressEvent return_key blank_buffer))
  /\ Forall (fun c => is_trimmed c = true)
       (command_executed
          (send_command (list_ascii_of_string " pwd ") true blank_buffer)).
Proof.
  assert (H : Forall (fun c => is_trimmed c = true)
                (command_executed blank_buffer))
    by (repeat constructor).
  split; [exact H|]. split.
  - apply (proj1 (recorded_commands_are_trimmed blank_buffer H) return_key).
  - apply (proj2 (recorded_commands_are_trimmed blank_buffer H)
             (list_ascii_of_string " pwd ") true).
Defined.

(** X15: a key press writes to the PTY at most once and never takes back
    what was written; it emits at most one command, and only when it is
    Return or Enter outside the copy and paste bindings. *)
Theorem key_press_effects (event : QKeyEvent) (w : Widget) :
  exists (chunks : list (list Byte.byte)) (commands : list (list ascii)),
    pty (keyPressEvent event w) = pty w ++ chunks
    /\ length chunks <= 1
    /\ command_executed (keyPressEvent event w)
       = command_executed w ++ commands
    /\ length commands <= 1
    /\ (commands <> [] ->
        matches_copy event = false /\ matches_paste event = false
        /\ (key event = Key_Return \/ key event = Key_Enter)).
Proof.
  assert (Hrec : forall (b : list ascii) (v : Widget),
            exists commands,
              command_executed (record_command b v)
              = command_executed v ++ commands
              /\ length commands <= 1 /\ pty (record_command b v) = pty v).
  { intros b v. unfold record_command.
    destruct (strip_with py_isspace b) as [|c s].
    - exists []. rewrite app_nil_r. repeat split. cbn. lia.
    - exists [c :: s]. split; [reflexivity|]. split; [cbn; lia | reflexivity]. }
  unfold keyPressEvent.
  destruct (matches_copy event).
  { destruct (selection w); cbn.
    - exists [[Byte.x03]], []. rewrite app_nil_r.
      repeat split; cbn; try lia; congruence.
    - exists [], []. rewrite !app_nil_r.
      repeat split; cbn; try lia; congruence. }
  destruct (matches_paste event).
  { destruct (clipboard w) as [|c s] eqn:E; cbn.
    - exists [], []. rewrite !app_nil_r.
      repeat split; cbn; try lia; congruence.
    - eexists [_], []. rewrite app_nil_r.
      repeat split; cbn; try lia; congruence. }
  assert (Htyped :
    exists chunks commands,
      pty (if negb (is_empty (event_text event))
           then set_input_buffer (input_buffer w ++ event_text event)
                  (os_write (encode (event_text event)) w)
           else super_keyPressEvent event w) = pty w ++ chunks
      /\ length chunks <= 1
      /\ command_executed
           (if negb (is_empty (event_text event))
            then set_input_buffer (input_buffer w ++ event_text event)
                   (os_write (encode (event_text event)) w)
            else super_keyPressEvent event w) = command_executed w ++ commands
      /\ length commands <= 1
      /\ (commands <> [] ->
          false = false /\ false = false
          /\ (key event = Key_Return \/ key event = Key_Enter))).
  { destruct (event_text event) as [|c s]; cbn [is_empty negb].
    - exists [], []. rewrite !app_nil_r.
      rewrite pty_super_keyPressEvent, command_executed_super_keyPressEvent.
      repeat split; cbn; try lia; congruence.
    - eexists [_], []. rewrite app_nil_r.
      repeat split; cbn; try lia; congruence. }
  assert (Hspecial : forall data : list Byte.byte,
    exists chunks commands,
      pty (os_write data w) = pty w ++ chunks
      /\ length chunks <= 1
      /\ command_executed (os_write data w) = command_executed w ++ commands
      /\ length commands <= 1
      /\ (commands <> [] ->
          false = false /\ false = false
          /\ (key event = Key_Return \/ key event = Key_Enter))).
  { intros data. eexists [_], []. rewrite app_nil_r.
    repeat split; cbn; try lia; congruence. }
  destruct (key event) eqn:K; cbn [special_mappings];
    try exact Htyped; try apply Hspecial.
  - destruct (Hrec (input_buffer (os_write [byte_of_ascii CR] w))
                (os_write [byte_of_ascii CR] w)) as (commands & Hc & Hl & Hp).
    eexists [_], commands. cbn [set_input_buffer pty command_executed].
    rewrite Hp, Hc. repeat split; auto.
  - destruct (Hrec (input_buffer (os_write [byte_of_ascii CR] w))
                (os_write [byte_of_ascii CR] w)) as (commands & Hc & Hl & Hp).
    eexists [_], commands. cbn [set_input_buffer pty command_executed].
    rewrite Hp, Hc. repeat split; auto.
  - destruct (input_buffer w); cbn; eexists [_], []; rewrite app_nil_r;
      repeat split; cbn; try lia; congruence.
Qed.

(** ** Typing a command and sending it *)

(** One key press that types: the buffer takes [buffered], the PTY
    [written], and nothing is emitted. *)
Lemma typing_key_effect (event : QKeyEvent) (w : Widget) :
  is_typing event = true ->
  input_buffer (keyPressEvent event w) = input_buffer w ++ buffered event
  /\ command_executed (keyPressEvent event w) = command_executed w
  /\ concat (pty (keyPressEvent event w)) = concat (pty w) ++ written event.
Proof.
  unfold is_typing, keyPressEvent, buffered, written.
  destruct (matches_copy event); [discriminate|].
  destruct (matches_paste event); [discriminate|].
  assert (Hwrite : forall data,
            input_buffer (os_write data w) = input_buffer w ++ []
            /\ command_executed (os_write data w) = command_executed w
            /\ concat (pty (os_write data w)) = concat (pty w) ++ data).
  { intros data. cbn [os_write input_buffer command_executed pty].
    rewrite concat_app. cbn [concat]. now rewrite !app_nil_r. }
  destruct (key event); cbn [andb negb special_mappings]; intros H;
    try discriminate H; try apply Hwrite.
  destruct (event_text event) as [|c s]; cbn [is_empty negb].
  - rewrite input_buffer_super_keyPressEvent, pty_super_keyPressEvent,
      command_executed_super_keyPressEvent.
    now rewrite !app_nil_r.
  - cbn [set_input_buffer os_write input_buffer command_executed pty].
    rewrite concat_app. cbn [concat]. now rewrite app_nil_r.
Qed.

Lemma press_keys_effect (events : list QKeyEvent) :
  forall w : Widget,
    forallb is_typing events = true ->
    input_buffer (press_keys events w)
    = input_buffer w ++ concat (map buffered events)
    /\ command_executed (press_keys events w) = command_executed w
    /\ concat (pty (press_keys events w))
       = concat (pty w) ++ concat (map written events).
Proof.
  induction events as [|event events IH]; intros w Htyping.
  - cbn. now rewrite !app_nil_r.
  - cbn [forallb] in Htyping. apply andb_prop in Htyping.
    destruct Htyping as [Hevent Hevents].
    destruct (typing_key_effect event w Hevent) as (Hb1 & Hc1 & Hp1).
    destruct (IH (keyPressEvent event w) Hevents) as (Hb & Hc & Hp).
    change (press_keys (event :: events) w)
      with (press_keys events (keyPressEvent event w)).
    cbn [map concat].
    rewrite Hb, Hc, Hp, Hb1, Hc1, Hp1, <- !app_assoc. repeat split.
Qed.

(** Texts typed with keys that are none of [special_mappings]: the buffer
    takes the text of every key. *)
Lemma plain_keys_buffered (events : list QKeyEvent) :
  Forall (fun event => special_mappings (key event) = None) events ->
  concat (map buffered events) = concat (map event_text events)
  /\ concat (map written events) = encode (concat (map event_text events)).
Proof.
  induction 1 as [|event events Hevent _ [IHb IHw]]; [now split|].
  cbn [map concat]. unfold buffered at 1, written at 1. rewrite Hevent.
  rewrite IHb, IHw. split; [reflexivity|].
  unfold encode. now rewrite flat_map_app.
Qed.

Lemma backspace_key_effect (w : Widget) :
  input_buffer (keyPressEvent backspace_key w) = removelast (input_buffer w)
  /\ command_executed (keyPressEvent backspace_key w) = command_executed w
  /\ pty (keyPressEvent backspace_key w) = pty w ++ [[byte_of_ascii BS]].
Proof.
  change (keyPressEvent backspace_key w)
    with (os_write [byte_of_ascii BS]
            (if negb (is_empty (input_buffer w))
             then set_input_buffer (removelast (input_buffer w)) w
             else w)).
  destruct (input_buffer w) as [|c s] eqn:E; cbn [is_empty negb].
  - cbn [os_write input_buffer command_executed pty]. now rewrite E.
  - now cbn [os_write set_input_buffer input_buffer command_executed pty].
Qed.

Lemma record_command_commands (b : list ascii) (v : Widget) :
  command_executed (record_command b v)
  = command_executed v
    ++ match strip_with py_isspace b with [] => [] | x => [x] end.
Proof.
  unfold record_command.
  destruct (strip_with py_isspace b); [now rewrite app_nil_r | reflexivity].
Qed.

Lemma pty_record_command (b : list ascii) (v : Widget) :
  pty (record_command b v) = pty v.
Proof.
  unfold record_command. now destruct (strip_with py_isspace b).
Qed.

(** X16: typing and sending agree on what the buffer took.  Key presses
    outside the copy and paste bindings, with keys other than Return, Enter
    and Backspace, typed into an empty input buffer and followed by Return
    emit the same command as [send_command] with the text that the buffer
    took, and leave the buffer empty.  That text is the text of the keys
    that are none of [special_mappings], in order: a key of
    [special_mappings], such as Tab, Escape, Delete or an arrow, writes its
    bytes to the PTY and adds nothing, so that a tab typed with the Tab key
    is missing in the command.  When no key is one of them, the text is that
    of all the keys and the PTY receives its encoding, followed by a
    carriage return when typed and by a line feed when sent (for a text
    that does not end in a line feed). *)
Theorem typing_and_sending_agree (events : list QKeyEvent) (w : Widget) :
  input_buffer w = [] ->
  forallb is_typing events = true ->
  command_executed (keyPressEvent return_key (press_keys events w))
  = command_executed (send_command (concat (map buffered events)) true w)
  /\ input_buffer (keyPressEvent return_key (press_keys events w)) = []
  /\ concat (pty (keyPressEvent return_key (press_keys events w)))
     = concat (pty w) ++ concat (map written events) ++ [byte_of_ascii CR]
  /\ (Forall (fun event => special_mappings (key event) = None) events ->
      concat (map buffered events) = concat (map event_text events)
      /\ concat (map written events)
         = encode (concat (map event_text events)))
  /\ (ends_with_newline (concat (map buffered events)) = false ->
      concat (pty (send_command (concat (map buffered events)) true w))
      = concat (pty w) ++ encode (concat (map buffered events))
        ++ [byte_of_ascii LF]).
Proof.
  intros Hempty Htyping.
  destruct (press_keys_effect events w Htyping) as (Hb & Hc & Hp).
  rewrite Hempty in Hb. cbn [app] in Hb.
  change (keyPressEvent return_key (press_keys events w))
    with (set_input_buffer []
            (record_command
               (input_buffer
                  (os_write [byte_of_ascii CR] (press_keys events w)))
               (os_write [byte_of_ascii CR] (press_keys events w)))).
  cbn [set_input_buffer command_executed input_buffer pty os_write].
  rewrite send_command_commands, !record_command_commands.
  rewrite pty_record_command.
  cbn [command_executed os_write pty]. rewrite Hb, Hc.
  split; [reflexivity|]. split; [reflexivity|]. split; [|split].
  - rewrite concat_app, Hp. cbn [concat].
    now rewrite app_nil_r, <- app_assoc.
  - apply plain_keys_buffered.
  - intros Hnl. unfold send_command. rewrite pty_record_command.
    cbn [os_write pty]. rewrite Hnl. cbn [negb andb].
    rewrite concat_app. cbn [concat]. rewrite app_nil_r.
    unfold encode. rewrite flat_map_app. reflexivity.
Qed.

Lemma typing_and_sending_agree_witness :
  input_buffer fresh_widget = []
  /\ forallb is_typing l_tab_s = true
  /\ concat (map event_text l_tab_s) = ["l"; "009"; "s"]
  /\ concat (map buffered l_tab_s) = ["l"; "s"]
  /\ command_executed (keyPressEvent return_key (press_keys l_tab_s fresh_widget))
     = command_executed (send_command ["l"; "s"] true fresh_widget).
Proof.
  split; [reflexivity|]. split; [reflexivity|]. split; [reflexivity|].
  split; [reflexivity|].
  exact (proj1 (typing_and_sending_agree l_tab_s fresh_widget
                  eq_refl eq_refl)).
Defined.

(** X17: Backspace removes the last character of the input buffer, whatever
    key came before.  After a key press that types and a Backspace the
    buffer is what it had taken, without its last character: a key that
    added one character is taken back and the buffer is what it was, but
    behind a key of [special_mappings] such as Tab, which adds nothing,
    Backspace removes a character typed earlier.  Nothing is emitted, and
    the PTY has received the bytes of the key and then the byte 0x08.  On
    an empty buffer Backspace leaves the buffer empty and still writes the
    byte 0x08. *)
Theorem backspace_takes_back_typed_key (event : QKeyEvent) (w : Widget) :
  is_typing event = true ->
  input_buffer (keyPressEvent backspace_key (keyPressEvent event w))
  = removelast (input_buffer w ++ buffered event)
  /\ (forall c : ascii,
      buffered event = [c] ->
      input_buffer (keyPressEvent backspace_key (keyPressEvent event w))
      = input_buffer w)
  /\ (buffered event = [] ->
      input_buffer (keyPressEvent backspace_key (keyPressEvent event w))
      = removelast (input_buffer w))
  /\ concat (pty (keyPressEvent backspace_key (keyPressEvent event w)))
     = concat (pty w) ++ written event ++ [byte_of_ascii BS]
  /\ command_executed
       (keyPressEvent backspace_key (keyPressEvent event w))
     = command_executed w
  /\ (input_buffer w = [] ->
      input_buffer (keyPressEvent backspace_key w) = []
      /\ pty (keyPressEvent backspace_key w) = pty w ++ [[byte_of_ascii BS]]).
Proof.
  intros Htyping.
  destruct (typing_key_effect event w Htyping) as (Hb1 & Hc1 & Hp1).
  destruct (backspace_key_effect (keyPressEvent event w)) as (Hb & Hc & Hp).
  rewrite Hb, Hc, Hp, Hb1, Hc1.
  split; [reflexivity|]. split; [|split; [|split; [|split]]].
  - intros c Hone. rewrite Hone. apply removelast_last.
  - intros Hnone. now rewrite Hnone, app_nil_r.
  - rewrite concat_app, Hp1. cbn [concat].
    now rewrite app_nil_r, <- app_assoc.
  - reflexivity.
  - intros Hempty.
    destruct (backspace_key_effect w) as (Hb0 & _ & Hp0).
    rewrite Hb0, Hp0, Hempty. now split.
Qed.

Lemma backspace_takes_back_typed_key_witness :
  is_typing tab_key = true
  /\ input_buffer typing_ls = ["l"; "s"]
  /\ input_buffer (keyPressEvent backspace_key (keyPressEvent tab_key typing_ls))
     = ["l"]
  /\ input_buffer
       (keyPressEvent backspace_key (keyPressEvent (typed "x") typing_ls))
     = ["l"; "s"].
Proof.
  split; [reflexivity|]. split; [reflexivity|]. split.
  - exact (proj1 (backspace_takes_back_typed_key tab_key typing_ls eq_refl)).
  - exact (proj1 (backspace_takes_back_typed_key (typed "x") typing_ls
                    eq_refl)).
Defined.

(** ** The directory history of a tab *)

Lemma text_eqb_eq (a b : list ascii) : text_eqb a b = true <-> a = b.
Proof.
  revert b. induction a as [|x a IH]; intros [|y b]; cbn;
    try (split; [discriminate | discriminate]); [tauto|].
  rewrite andb_true_iff, IH, Ascii.eqb_eq.
  split; [intros [-> ->]; reflexivity | intros H; injection H; auto].
Qed.

Lemma text_eqb_neq (a b : list ascii) : text_eqb a b = false -> a <> b.
Proof.
  intros H E. apply text_eqb_eq in E. congruence.
Qed.

Lemma py_index_in_range {A : Type} (l : list A) (i : Z) :
  (0 <= i < Z.of_nat (length l))%Z ->
  exists e, py_index l i = Some e /\ nth_error l (Z.to_nat i) = Some e.
Proof.
  intros H. unfold py_index.
  replace (0 <=? i)%Z with true by (symmetry; apply Z.leb_le; lia).
  destruct (nth_error l (Z.to_nat i)) as [e|] eqn:E; [now exists e|].
  apply nth_error_None in E. lia.
Qed.

Lemma py_take_firstn {A : Type} (l : list A) (k : Z) :
  (0 <= k)%Z -> py_take l k = firstn (Z.to_nat k) l.
Proof.
  intros H. unfold py_take.
  now replace (0 <=? k)%Z with true by (symmetry; apply Z.leb_le; lia).
Qed.

Lemma no_repeat_firstn (h : list (list ascii)) (k : nat) :
  no_repeat h -> no_repeat (firstn k h).
Proof.
  revert k. induction h as [|a h IH]; intros k H; [now rewrite firstn_nil|].
  destruct k as [|k]; [exact I|].
  destruct h as [|b h]; [destruct k; exact I|].
  destruct H as [Hab H]. specialize (IH k H).
  destruct k as [|k]; [exact I|].
  cbn [firstn] in *. split; assumption.
Qed.

Lemma no_repeat_snoc (h : list (list ascii)) (d : list ascii) :
  no_repeat h ->
  (forall e, nth_error h (length h - 1) = Some e -> e <> d) ->
  no_repeat (h ++ [d]).
Proof.
  induction h as [|a h IH]; intros H Hlast; [exact I|].
  destruct h as [|b h].
  - cbn. split; [|exact I]. apply Hlast. reflexivity.
  - destruct H as [Hab H]. cbn [app]. split; [exact Hab|].
    apply IH; [exact H|]. intros e He. apply Hlast.
    cbn [length Nat.sub] in *. rewrite Nat.sub_0_r in *. exact He.
Qed.

Section NavigationFacts.

Variable abspath : list ascii -> list ascii.
Variable isdir : list ascii -> bool.
Variable getcwd : list ascii.

(** What recording a directory leaves: the history as it was when the
    directory is the current entry, else the entries up to the current one
    followed by the directory. *)
Lemma record_directory_cases (directory : list ascii) (st : TabState) :
  history_ok st ->
  exists (h : list (list ascii)) (i : Z),
    record_directory directory st = Some (h, i)
    /\ (0 <= i < Z.of_nat (length h))%Z
    /\ py_index h i = Some directory
    /\ ((h = history st /\ i = history_index st)
        \/ (h = firstn (Z.to_nat (history_index st + 1)) (history st)
                ++ [directory]
            /\ i = (history_index st + 1)%Z
            /\ forall e, py_index (history st) (history_index st) = Some e ->
                         e <> directory)).
Proof.
  intros Hok. unfold record_directory.
  assert (Happ : forall k : nat, k <= length (history st) ->
    py_index (firstn k (history st) ++ [directory]) (Z.of_nat k)
    = Some directory
    /\ length (firstn k (history st) ++ [directory]) = S k).
  { intros k Hk. split.
    - unfold py_index.
      replace (0 <=? Z.of_nat k)%Z with true by (symmetry; apply Z.leb_le; lia).
      rewrite Nat2Z.id, nth_error_app2; rewrite length_firstn;
        [|lia]. replace (k - Nat.min k (length (history st))) with 0 by lia.
      reflexivity.
    - rewrite length_app, length_firstn. cbn. lia. }
  destruct Hok as [[Hnil Hidx] | Hrange].
  - rewrite Hidx, Hnil. cbn.
    exists [directory], 0%Z. repeat split; try lia.
    right. repeat split. intros e He. discriminate He.
  - rewrite py_take_firstn by lia.
    replace (0 <=? history_index st)%Z with true
      by (symmetry; apply Z.leb_le; lia).
    destruct (py_index_in_range _ _ Hrange) as (entry & Hentry & Hnth).
    rewrite Hentry.
    destruct (Happ (Z.to_nat (history_index st + 1)) ltac:(lia)) as [Hi Hl].
    rewrite Z2Nat.id in Hi by lia.
    assert (Hne : is_empty (firstn (Z.to_nat (history_index st + 1))
                              (history st)) = false).
    { destruct (history st) as [|a h]; [cbn in Hrange; lia|].
      replace (Z.to_nat (history_index st + 1))
        with (S (Z.to_nat (history_index st))) by lia.
      reflexivity. }
    rewrite Hne. cbn [negb andb].
    destruct (text_eqb entry directory) eqn:E.
    + apply text_eqb_eq in E. subst entry.
      exists (history st), (history_index st). repeat split; try lia; auto.
    + eexists _, _. split; [reflexivity|]. rewrite Hl. repeat split; try lia.
      * exact Hi.
      * right. repeat split. intros e He.
        injection He as <-. now apply text_eqb_neq.
Qed.

Lemma record_directory_no_repeat (directory : list ascii) (st : TabState)
  (h : list (list ascii)) (i : Z) :
  history_ok st -> no_repeat (history st) ->
  record_directory directory st = Some (h, i) -> no_repeat h.
Proof.
  intros Hok Hnr Hrec.
  destruct (record_directory_cases directory st Hok)
    as (h' & i' & Hrec' & _ & _ & Hcases).
  rewrite Hrec in Hrec'. injection Hrec' as <- <-.
  destruct Hcases as [[-> _] | (-> & _ & Hdiff)]; [exact Hnr|].
  apply no_repeat_snoc; [now apply no_repeat_firstn|].
  intros e He.
  destruct Hok as [[Hnil Hidx] | Hrange].
  - rewrite Hnil, firstn_nil in He. discriminate He.
  - apply Hdiff.
    destruct (py_index_in_range _ _ Hrange) as (entry & Hentry & Hnth).
    rewrite Hentry. f_equal.
    rewrite length_firstn in He.
    replace (Nat.min (Z.to_nat (history_index st + 1)) (length (history st))
             - 1) with (Z.to_nat (history_index st)) in He by lia.
    rewrite nth_error_firstn in He.
    replace (Z.to_nat (history_index st) <? Z.to_nat (history_index st + 1))%nat
      with true in He by (symmetry; apply Nat.ltb_lt; lia).
    congruence.
Qed.

Lemma set_directory_sound (path : list ascii) (r u e : bool) (st : TabState) :
  history_sound st ->
  exists (b : bool) (st' : TabState),
    set_directory abspath isdir getcwd path r u e st = Some (b, st')
    /\ history_sound st'.
Proof.
  intros [Hok Hnr]. unfold set_directory.
  destruct (isdir (abspath path)); cbn [negb].
  - destruct r.
    + destruct (record_directory_cases (abspath path) st Hok)
        as (h & i & Hrec & Hrange & _ & _).
      rewrite Hrec. eexists _, _. split; [reflexivity|].
      split; [right; exact Hrange|].
      cbn [history]. exact (record_directory_no_repeat _ _ _ _ Hok Hnr Hrec).
    + eexists _, _. split; [reflexivity|]. split; assumption.
  - destruct e; [|now exists false, st].
    destruct Hok as [[Hnil Hidx] | Hrange].
    + rewrite Hidx. cbn [Z.leb andb].
      eexists _, _. split; [reflexivity|].
      split; [left; split; assumption | exact Hnr].
    + replace (0 <=? history_index st)%Z with true
        by (symmetry; apply Z.leb_le; lia).
      replace (history_index st <? Z.of_nat (length (history st)))%Z
        with true by (symmetry; apply Z.ltb_lt; lia).
      destruct (py_index_in_range _ _ Hrange) as (entry & Hentry & _).
      cbn [andb]. rewrite Hentry.
      eexists _, _. split; [reflexivity|].
      split; [right; exact Hrange | exact Hnr].
Qed.

Lemma move_index_sound (i : Z) (st : TabState) :
  history_sound st -> (0 <= i < Z.of_nat (length (history st)))%Z ->
  exists st',
    match py_index (history (set_history_index i st))
            (history_index (set_history_index i st)) with
    | None => None
    | Some path =>
        option_map snd
          (set_directory abspath isdir getcwd path false true false
             (set_history_index i st))
    end = Some st'
    /\ history_sound st'.
Proof.
  intros [Hok Hnr] Hi.
  assert (Hs : history_sound (set_history_index i st))
    by (split; [right; exact Hi | exact Hnr]).
  cbn [set_history_index history history_index].
  destruct (py_index_in_range _ _ Hi) as (entry & Hentry & _).
  rewrite Hentry.
  destruct (set_directory_sound entry false true false _ Hs)
    as (b & st' & Hset & Hs').
  rewrite Hset. now exists st'.
Qed.

Lemma report_directories_sound (dirs : list (list ascii)) :
  forall st : TabState,
    history_sound st ->
    exists st', report_directories abspath isdir getcwd dirs st = Some st'
      /\ history_sound st'.
Proof.
  induction dirs as [|d dirs IH]; intros st Hs; cbn [report_directories].
  - now exists st.
  - destruct (isdir d); [|now apply IH].
    destruct (set_directory_sound d true false false st Hs)
      as (b & st1 & Hset & Hs1).
    rewrite Hset. now apply IH.
Qed.

(** X18: the history index never leaves the history.  From a state in which
    the index is in range (or nothing is recorded yet) and no two
    neighbouring entries are equal, [set_directory] with any flags,
    [go_back], [go_forward] and the handling of a fragment of output never
    raise [IndexError] and leave such a state again, the handling of output
    whenever [TerminalWidget.handle_output] returns. *)
Theorem history_stays_sound (st : TabState) :
  history_ok st -> no_repeat (history st) ->
  (forall (path : list ascii) (r u e : bool),
     exists (b : bool) (st' : TabState),
       set_directory abspath isdir getcwd path r u e st = Some (b, st')
       /\ history_ok st' /\ no_repeat (history st'))
  /\ (exists st', go_back abspath isdir getcwd st = Some st'
        /\ history_ok st' /\ no_repeat (history st'))
  /\ (exists st', go_forward abspath isdir getcwd st = Some st'
        /\ history_ok st' /\ no_repeat (history st'))
  /\ (forall (s : list ascii) (t' : Terminal),
      handle_output s (screen st) = Returns t' ->
      exists st', tab_output abspath isdir getcwd s st = Returns st'
        /\ history_ok st' /\ no_repeat (history st'))
  /\ (forall s : list ascii,
      tab_output abspath isdir getcwd s st <> Fails IndexError).
Proof.
  intros Hok Hnr.
  assert (Hs : history_sound st) by (split; assumption).
  assert (Hout : forall (s : list ascii) (t' : Terminal),
            handle_output s (screen st) = Returns t' ->
            exists st', tab_output abspath isdir getcwd s st = Returns st'
              /\ history_ok st' /\ no_repeat (history st')).
  { intros s t' Ht. unfold tab_output. rewrite Ht.
    destruct (extract_loop_total (length s) s (le_n _)) as [dirs Hd].
    unfold extract_directories. rewrite Hd.
    destruct (report_directories_sound dirs (set_screen t' st) Hs)
      as (st' & Hrep & Hs').
    rewrite Hrep. now exists st'. }
  split; [|split; [|split; [|split]]].
  - intros path r u e. apply set_directory_sound, Hs.
  - unfold go_back.
    destruct (0 <? history_index st)%Z eqn:E; [|now exists st].
    apply Z.ltb_lt in E. apply move_index_sound; [exact Hs|].
    destruct Hok as [[_ Hidx] | Hrange]; lia.
  - unfold go_forward.
    destruct (history_index st <? Z.of_nat (length (history st)) - 1)%Z
      eqn:E; [|now exists st].
    apply Z.ltb_lt in E. apply move_index_sound; [exact Hs|].
    destruct Hok as [[_ Hidx] | Hrange]; lia.
  - exact Hout.
  - intros s H.
    destruct (handle_output s (screen st)) as [t'|f|] eqn:Ht.
    + destruct (Hout s t' Ht) as (st' & Hst' & _). congruence.
    + unfold tab_output in H. rewrite Ht in H.
      injection H as ->. pose proof (handle_loop_returns (length s) s
        (screen st) (le_n _)) as Hw. unfold handle_output in Ht.
      rewrite Ht in Hw. unfold as_walked in Hw.
      destruct (positions_fit_loop (length s) s).
      * destruct Hw as [a Ha]. discriminate Ha.
      * destruct Hw as (f & Hf & [Hf' | Hf']); congruence.
    + unfold tab_output in H. rewrite Ht in H. discriminate H.
Qed.

End NavigationFacts.

Lemma history_stays_sound_witness :
  history_ok visited_two /\ no_repeat (history visited_two)
  /\ exists st',
       go_back as_given two_directories [] visited_two = Some st'
       /\ history_ok st' /\ no_repeat (history st').
Proof.
  assert (H1 : history_ok visited_two) by (right; cbn; lia).
  assert (H2 : no_repeat (history visited_two))
    by (cbn; split; [discriminate | exact I]).
  split; [exact H1|]. split; [exact H2|].
  apply (proj1 (proj2 (history_stays_sound as_given two_directories []
                         visited_two H1 H2))).
Defined.

(** ** Going back and forward, and directories that are gone *)

Section NavigationSteps.

Variable abspath : list ascii -> list ascii.
Variable isdir : list ascii -> bool.
Variable getcwd : list ascii.

Lemma set_directory_unrecorded (path : list ascii) (u e : bool)
  (st : TabState) :
  isdir (abspath path) = true ->
  set_directory abspath isdir getcwd path false u e st
  = Some (true,
          {| screen := screen st;
             widget :=
               if u
               then send_command
                      (list_ascii_of_string "cd "
                       ++ shlex_quote (abspath path)) true (widget st)
               else widget st;
             history := history st;
             history_index := history_index st;
             current_directory := abspath path;
             directory_changed := directory_changed st ++ [abspath path];
             location_path := abspath path |}).
Proof.
  intros H. unfold set_directory. rewrite H. reflexivity.
Qed.

Lemma set_directory_gone (path : list ascii) (r u : bool) (st : TabState) :
  isdir (abspath path) = false ->
  set_directory abspath isdir getcwd path r u false st = Some (false, st).
Proof.
  intros H. unfold set_directory. rewrite H. reflexivity.
Qed.

(** X19: going back and then forward returns to where one was.  When the
    directories of the previous and of the current entry still exist,
    [go_back] followed by [go_forward] leaves the history and its index as
    they were, with the current directory that of the current entry; on the
    way the index is one lower and the current directory that of the
    previous entry, and both changes of directory are signalled. *)
Theorem back_then_forward (st : TabState) (previous current : list ascii) :
  (0 < history_index st)%Z ->
  py_index (history st) (history_index st - 1) = Some previous ->
  py_index (history st) (history_index st) = Some current ->
  (history_index st < Z.of_nat (length (history st)))%Z ->
  isdir (abspath previous) = true -> isdir (abspath current) = true ->
  exists st1 st2 : TabState,
    go_back abspath isdir getcwd st = Some st1
    /\ go_forward abspath isdir getcwd st1 = Some st2
    /\ history st1 = history st
    /\ history_index st1 = (history_index st - 1)%Z
    /\ current_directory st1 = abspath previous
    /\ history st2 = history st
    /\ history_index st2 = history_index st
    /\ current_directory st2 = abspath current
    /\ directory_changed st2
       = directory_changed st ++ [abspath previous; abspath current].
Proof.
  intros Hpos Hprev Hcur Hlen Hd1 Hd2.
  unfold go_back.
  replace (0 <? history_index st)%Z with true
    by (symmetry; apply Z.ltb_lt; lia).
  cbn [set_history_index history history_index]. rewrite Hprev.
  rewrite set_directory_unrecorded by exact Hd1. cbn [option_map snd].
  eexists. eexists. split; [reflexivity|].
  unfold go_forward.
  cbn [set_history_index history history_index screen widget
       current_directory directory_changed location_path].
  replace (history_index st - 1 <? Z.of_nat (length (history st)) - 1)%Z
    with true by (symmetry; apply Z.ltb_lt; lia).
  replace (history_index st - 1 + 1)%Z with (history_index st) by lia.
  rewrite Hcur.
  rewrite set_directory_unrecorded by exact Hd2. cbn [option_map snd].
  split; [reflexivity|].
  cbn [history history_index current_directory directory_changed
       set_history_index].
  rewrite <- app_assoc. repeat split.
Qed.

(** X20: a path that is no directory changes nothing: [set_directory]
    without [show_error] returns [False] and leaves the whole state as it
    is, whatever the other flags.  [go_back] lowers the index before it
    calls [set_directory]: when the previous entry is no directory any more
    the index is lowered all the same, while the current directory, the
    location bar and the terminal stay as they are and nothing is
    signalled. *)
Theorem missing_directory (path : list ascii) (st : TabState) :
  isdir (abspath path) = false ->
  (forall r u : bool,
     set_directory abspath isdir getcwd path r u false st = Some (false, st))
  /\ ((0 < history_index st)%Z ->
      py_index (history st) (history_index st - 1) = Some path ->
      go_back abspath isdir getcwd st
      = Some (set_history_index (history_index st - 1) st)).
Proof.
  intros Hgone. split.
  - intros r u. now apply set_directory_gone.
  - intros Hpos Hprev. unfold go_back.
    replace (0 <? history_index st)%Z with true
      by (symmetry; apply Z.ltb_lt; lia).
    cbn [set_history_index history history_index]. rewrite Hprev.
    now rewrite set_directory_gone.
Qed.

(** X21: after a successful [set_directory] with [record_history] the entry
    at the history index is the directory gone to, which is also the current
    directory and the path of the location bar.  The history is as it was
    when that directory already was the current entry; otherwise it is the
    entries up to the current one followed by the directory, so that the
    entries one could go forward to are dropped. *)
Theorem recorded_directory_is_current (path : list ascii) (u e : bool)
  (st : TabState) :
  history_ok st -> isdir (abspath path) = true ->
  exists st' : TabState,
    set_directory abspath isdir getcwd path true u e st = Some (true, st')
    /\ py_index (history st') (history_index st') = Some (abspath path)
    /\ current_directory st' = abspath path
    /\ location_path st' = abspath path
    /\ directory_changed st' = directory_changed st ++ [abspath path]
    /\ ((history st' = history st /\ history_index st' = history_index st)
        \/ (history st'
            = firstn (Z.to_nat (history_index st + 1)) (history st)
              ++ [abspath path]
            /\ history_index st' = (history_index st + 1)%Z)).
Proof.
  intros Hok Hdir. unfold set_directory. rewrite Hdir. cbn [negb].
  destruct (record_directory_cases (abspath path) st Hok)
    as (h & i & Hrec & Hrange & Hentry & Hcases).
  rewrite Hrec. eexists. split; [reflexivity|].
  cbn [history history_index current_directory location_path
       directory_changed].
  repeat split; auto.
  destruct Hcases as [[-> ->] | (-> & -> & _)]; [left | right]; split;
    reflexivity.
Qed.

Lemma report_directories_effect (dirs : list (list ascii)) :
  forall st : TabState,
    history_ok st ->
    exists st' : TabState,
      report_directories abspath isdir getcwd dirs st = Some st'
      /\ history_ok st'
      /\ screen st' = screen st /\ widget st' = widget st
      /\ directory_changed st'
         = directory_changed st
           ++ map abspath
                (filter (fun d => isdir d && isdir (abspath d)) dirs).
Proof.
  induction dirs as [|d dirs IH]; intros st Hok;
    cbn [report_directories filter map].
  - exists st. rewrite app_nil_r. repeat split. exact Hok.
  - destruct (isdir d); cbn [andb]; [|now apply IH].
    unfold set_directory.
    destruct (isdir (abspath d)); cbn [negb]; [|now apply IH].
    destruct (record_directory_cases (abspath d) st Hok)
      as (h & i & Hrec & Hrange & _ & _).
    rewrite Hrec.
    match goal with |- context [report_directories _ _ _ dirs ?s] =>
      destruct (IH s) as (st' & Hrep & Hok' & Hs & Hw & Hd) end.
    { right. exact Hrange. }
    exists st'. split; [exact Hrep|].
    cbn [screen widget directory_changed] in Hs, Hw, Hd.
    rewrite Hd, <- app_assoc. repeat split; assumption.
Qed.

(** X22: output never types.  When [TerminalWidget.handle_output] returns
    on a fragment, handling the fragment leaves the document and cursor it
    returned, signals every directory reported in the fragment that exists
    (before and after [abspath]), in the order of the reports, writes
    nothing to the PTY, emits no command and leaves the input buffer and
    the clipboard as they are: a directory report is never answered with a
    "cd".  The selection of the widget is dropped, its cursor being
    replaced.  When [TerminalWidget.handle_output] fails, the method fails
    in the same way and nothing is signalled. *)
Theorem output_never_types (s : list ascii) (st : TabState) :
  history_ok st ->
  match handle_output s (screen st) with
  | Returns t' =>
      exists (st' : TabState) (dirs : list (list ascii)),
        extract_directories s = Some dirs
        /\ tab_output abspath isdir getcwd s st = Returns st'
        /\ screen st' = t'
        /\ pty (widget st') = pty (widget st)
        /\ input_buffer (widget st') = input_buffer (widget st)
        /\ command_executed (widget st') = command_executed (widget st)
        /\ clipboard (widget st') = clipboard (widget st)
        /\ selection (widget st') = []
        /\ directory_changed st'
           = directory_changed st
             ++ map abspath
                  (filter (fun d => isdir d && isdir (abspath d)) dirs)
  | Fails f => tab_output abspath isdir getcwd s st = Fails f
  | OutOfFuel => False
  end.
Proof.
  intros Hok.
  pose proof (handle_loop_ends (length s) s (screen st) (le_n _)) as Hends.
  unfold tab_output. fold (handle_output s (screen st)) in Hends.
  destruct (handle_output s (screen st)) as [t'|f|];
    [|reflexivity | now apply Hends].
  destruct (extract_loop_total (length s) s (le_n _)) as [dirs Hd].
  unfold extract_directories. rewrite Hd.
  destruct (report_directories_effect dirs (set_screen t' st) Hok)
    as (st' & Hrep & _ & Hs & Hw & Hc).
  rewrite Hrep. exists st', dirs. rewrite Hw.
  repeat split; assumption.
Qed.

End NavigationSteps.

Lemma back_then_forward_witness :
  (0 < history_index visited_two)%Z
  /\ exists st1 st2 : TabState,
       go_back as_given two_directories [] visited_two = Some st1
       /\ go_forward as_given two_directories [] st1 = Some st2
       /\ history st1 = history visited_two
       /\ history_index st1 = (history_index visited_two - 1)%Z
       /\ current_directory st1 = as_given (list_ascii_of_string "/a")
       /\ history st2 = history visited_two
       /\ history_index st2 = history_index visited_two
       /\ current_directory st2 = as_given (list_ascii_of_string "/b c")
       /\ directory_changed st2
          = directory_changed visited_two
            ++ [as_given (list_ascii_of_string "/a");
                as_given (list_ascii_of_string "/b c")].
Proof.
  split; [reflexivity|].
  apply (back_then_forward as_given two_directories [] visited_two
           (list_ascii_of_string "/a") (list_ascii_of_string "/b c"));
    reflexivity.
Defined.

Lemma missing_directory_witness :
  two_directories (as_given (list_ascii_of_string "/gone")) = false
  /\ set_directory as_given two_directories []
       (list_ascii_of_string "/gone") true true false visited_two
     = Some (false, visited_two).
Proof.
  split; [reflexivity|].
  apply (proj1 (missing_directory as_given two_directories []
                  (list_ascii_of_string "/gone") visited_two eq_refl)).
Defined.

Lemma recorded_directory_is_current_witness :
  history_ok (set_history_index 0 visited_two)
  /\ two_directories (as_given (list_ascii_of_string "/b c")) = true
  /\ exists st' : TabState,
       set_directory as_given two_directories []
         (list_ascii_of_string "/b c") true false false
         (set_history_index 0 visited_two) = Some (true, st')
       /\ py_index (history st') (history_index st')
          = Some (as_given (list_ascii_of_string "/b c")).
Proof.
  assert (H : history_ok (set_history_index 0 visited_two))
    by (right; cbn; lia).
  split; [exact H|]. split; [reflexivity|].
  destruct (recorded_directory_is_current as_given two_directories []
              (list_ascii_of_string "/b c") false false
              (set_history_index 0 visited_two) H eq_refl)
    as (st' & Hset & Hentry & _).
  exists st'. split; assumption.
Defined.

Lemma output_never_types_witness :
  history_ok selecting_tab
  /\ selection (widget selecting_tab) <> []
  /\ exists (st' : TabState) (dirs : list (list ascii)),
       extract_directories report_fragment = Some dirs
       /\ tab_output as_given two_directories [] report_fragment selecting_tab
          = Returns st'
       /\ lines (screen st') = ["ab"%string]
       /\ pty (widget st') = pty (widget selecting_tab)
       /\ input_buffer (widget st') = input_buffer (widget selecting_tab)
       /\ command_executed (widget st')
          = command_executed (widget selecting_tab)
       /\ clipboard (widget st') = clipboard (widget selecting_tab)
       /\ selection (widget st') = []
       /\ directory_changed st'
          = directory_changed selecting_tab
            ++ map as_given
                 (filter (fun d => two_directories d
                                   && two_directories (as_given d)) dirs).
Proof.
  assert (H : history_ok selecting_tab) by (left; split; reflexivity).
  split; [exact H|]. split; [discriminate|].
  destruct (output_never_types as_given two_directories [] report_fragment
              selecting_tab H)
    as (st' & dirs & Hd & Hout & Hs & Hrest).
  exists st', dirs. split; [exact Hd|]. split; [exact Hout|].
  split; [now rewrite Hs | exact Hrest].
Defined.

(** ** The "cd" that navigation types *)

Lemma shell_safe_not_space (c : ascii) :
  shell_safe c = true -> py_isspace c = false.
Proof.
  destruct c as [[] [] [] [] [] [] [] []]; intros H;
    first [reflexivity | discriminate H].
Qed.

Lemma not_space_not_newline (c : ascii) :
  py_isspace c = false -> Ascii.eqb c LF = false.
Proof.
  intros H. destruct (Ascii.eqb c LF) eqn:E; [|reflexivity].
  apply Ascii.eqb_eq in E. subst c. discriminate H.
Qed.

(** What [shlex.quote] returns is not empty and does not end in
    whitespace. *)
Lemma shlex_quote_last (s : list ascii) :
  exists (x : list ascii) (c : ascii),
    shlex_quote s = x ++ [c] /\ py_isspace c = false.
Proof.
  unfold shlex_quote. destruct s as [|a s].
  - exists ["'"], "'". split; reflexivity.
  - destruct (forallb shell_safe (a :: s)) eqn:E.
    + destruct (exists_last (l := a :: s) ltac:(discriminate)) as (x & c & Hx).
      exists x, c. split; [exact Hx|].
      rewrite Hx, forallb_app in E. apply andb_true_iff in E.
      destruct E as [_ E]. cbn in E. rewrite andb_true_r in E.
      now apply shell_safe_not_space.
    + exists ("'" :: replace_quotes (a :: s)), "'". split; reflexivity.
Qed.

Lemma lstrip_kept (sp : ascii -> bool) (c : ascii) (l : list ascii) :
  sp c = false -> lstrip sp (c :: l) = c :: l.
Proof. intros H. cbn. now rewrite H. Qed.

Lemma strip_keeps_trimmed (c c' : ascii) (x : list ascii) :
  py_isspace c = false -> py_isspace c' = false ->
  strip_with py_isspace (c :: x ++ [c']) = c :: x ++ [c'].
Proof.
  intros Hc Hc'. unfold strip_with.
  rewrite lstrip_kept by exact Hc.
  change (c :: x ++ [c']) with ((c :: x) ++ [c']).
  rewrite rev_app_distr. cbn [rev app].
  rewrite lstrip_kept by exact Hc'.
  change (c' :: rev x ++ [c]) with ([c'] ++ rev (c :: x)).
  rewrite rev_app_distr, rev_involutive. reflexivity.
Qed.

Section NavigationTypes.

Variable abspath : list ascii -> list ascii.
Variable isdir : list ascii -> bool.
Variable getcwd : list ascii.

(** X23: navigation types a "cd".  A successful [set_directory] with
    [update_terminal] writes "cd ", the shell-quoted directory and a line
    feed to the PTY in one write, and records "cd " with the quoted
    directory as an executed command, so that it shows up in the command
    history like a command the user typed; the input buffer is left as it
    is. *)
Theorem navigation_types_cd (path : list ascii) (r e : bool) (st : TabState) :
  history_ok st -> isdir (abspath path) = true ->
  exists st' : TabState,
    set_directory abspath isdir getcwd path r true e st = Some (true, st')
    /\ pty (widget st')
       = pty (widget st)
         ++ [encode (list_ascii_of_string "cd "
                     ++ shlex_quote (abspath path) ++ [LF])]
    /\ command_executed (widget st')
       = command_executed (widget st)
         ++ [list_ascii_of_string "cd " ++ shlex_quote (abspath path)]
    /\ input_buffer (widget st') = input_buffer (widget st).
Proof.
  intros Hok Hdir.
  destruct (shlex_quote_last (abspath path)) as (x & c & Hq & Hc).
  assert (Hcmd : list_ascii_of_string "cd " ++ shlex_quote (abspath path)
                 = "c" :: (list_ascii_of_string "d " ++ x) ++ [c]).
  { rewrite Hq. reflexivity. }
  assert (Hwidget :
    forall w : Widget,
      let w' := send_command
                  (list_ascii_of_string "cd " ++ shlex_quote (abspath path))
                  true w in
      pty w' = pty w ++ [encode (list_ascii_of_string "cd "
                                 ++ shlex_quote (abspath path) ++ [LF])]
      /\ command_executed w'
         = command_executed w
           ++ [list_ascii_of_string "cd " ++ shlex_quote (abspath path)]
      /\ input_buffer w' = input_buffer w).
  { intros w w'. unfold w'. rewrite send_command_commands.
    rewrite record_command_commands.
    unfold send_command. rewrite pty_record_command, input_buffer_record_command.
    cbn [os_write pty input_buffer].
    assert (Hnl : ends_with_newline
                    (list_ascii_of_string "cd "
                     ++ shlex_quote (abspath path)) = false).
    { rewrite Hcmd. unfold ends_with_newline.
      change ("c" :: (list_ascii_of_string "d " ++ x) ++ [c])
        with (("c" :: list_ascii_of_string "d " ++ x) ++ [c]).
      rewrite rev_app_distr. cbn [rev app].
      now apply not_space_not_newline. }
    assert (Hstrip : strip_with py_isspace
                       (list_ascii_of_string "cd "
                        ++ shlex_quote (abspath path))
                     = list_ascii_of_string "cd "
                       ++ shlex_quote (abspath path)).
    { rewrite Hcmd. apply strip_keeps_trimmed; [reflexivity | exact Hc]. }
    rewrite Hnl, Hstrip. cbn [negb andb]. rewrite <- app_assoc.
    rewrite Hcmd at 2. rewrite <- Hcmd. repeat split. }
  unfold set_directory. rewrite Hdir. cbn [negb].
  assert (Hrec : exists h i,
            (if r then record_directory (abspath path) st
             else Some (history st, history_index st)) = Some (h, i)).
  { destruct r; [|now eexists _, _].
    destruct (record_directory_cases (abspath path) st Hok)
      as (h & i & Hrec & _). now exists h, i. }
  destruct Hrec as (h & i & Hrec). rewrite Hrec.
  eexists. split; [reflexivity|]. cbn [widget].
  apply Hwidget.
Qed.

End NavigationTypes.

Lemma navigation_types_cd_witness :
  history_ok visited_two
  /\ two_directories (as_given (list_ascii_of_string "/b c")) = true
  /\ exists st' : TabState,
       set_directory as_given two_directories []
         (list_ascii_of_string "/b c") false true false visited_two
       = Some (true, st')
       /\ command_executed (widget st')
          = command_executed (widget visited_two)
            ++ [list_ascii_of_string "cd "
                ++ shlex_quote (as_given (list_ascii_of_string "/b c"))].
Proof.
  assert (H : history_ok visited_two) by (right; cbn; lia).
  split; [exact H|]. split; [reflexivity|].
  destruct (navigation_types_cd as_given two_directories []
              (list_ascii_of_string "/b c") false false visited_two H eq_refl)
    as (st' & Hset & _ & Hcmd & _).
  exists st'. split; assumption.
Defined.

(** ** The time label of the video player *)

Lemma is_digit_classes (c : ascii) :
  is_digit c = true ->
  int_space c = false /\ Ascii.eqb c "-" = false /\
  Ascii.eqb c "+" = false /\ Ascii.eqb c ":" = false.
Proof.
  destruct c as [[|] [|] [|] [|] [|] [|] [|] [|]]; cbv;
    intros H; try discriminate H; repeat split.
Qed.

Lemma uint_digits (d : Decimal.uint) :
  Forall (fun c => is_digit c = true)
    (list_ascii_of_string (DecimalString.NilEmpty.string_of_uint d)).
Proof.
  induction d; cbn [DecimalString.NilEmpty.string_of_uint list_ascii_of_string];
    constructor; (reflexivity || assumption).
Qed.

Lemma uint_value (d : Decimal.uint) (acc : nat) (after_digit : bool) :
  d <> Decimal.Nil \/ after_digit = true ->
  digits_value (Z.of_nat acc) after_digit
    (list_ascii_of_string (DecimalString.NilEmpty.string_of_uint d))
  = Some (Z.of_nat (Nat.of_uint_acc d acc)).
Proof.
  revert acc after_digit.
  induction d as [|d IH|d IH|d IH|d IH|d IH|d IH|d IH|d IH|d IH|d IH];
    intros acc b Hb;
    cbn [DecimalString.NilEmpty.string_of_uint list_ascii_of_string
         digits_value Nat.of_uint_acc];
    [destruct Hb as [Hb|Hb]; [now contradiction Hb | now rewrite Hb]| ..];
    rewrite Nat.tail_mul_spec;
    match goal with
    | |- context [is_digit ?c] =>
        change (is_digit c) with true; cbv iota;
        match goal with
        | |- digits_value ?a true _ = Some (Z.of_nat (Nat.of_uint_acc _ ?m)) =>
            replace a with (Z.of_nat m)
              by (let v := eval cbv in (code c - 48)%nat in
                  change (code c - 48)%nat with v; lia)
        end
    end;
    apply IH; now right.
Qed.

Lemma decimal_digits (n : nat) :
  Forall (fun c => is_digit c = true) (decimal n).
Proof. apply uint_digits. Qed.

Lemma format_02d_digits (n : Z) :
  Forall (fun c => is_digit c = true) (format_02d n).
Proof.
  unfold format_02d. apply Forall_app. split; [|apply decimal_digits].
  apply Forall_forall. intros c Hc. apply repeat_spec in Hc. now subst c.
Qed.

Lemma format_02d_length (n : Z) : (2 <= length (format_02d n))%nat.
Proof. unfold format_02d. rewrite length_app, repeat_length. lia. Qed.

Lemma digits_value_zeros (k : nat) (b : bool) (s : list ascii) :
  (0 < k)%nat ->
  digits_value 0 b (repeat "0" k ++ s) = digits_value 0 true s.
Proof.
  intros Hk. revert b. induction k as [|k IH]; intros b; [lia|].
  cbn [repeat app digits_value]. change (is_digit "0") with true. cbv iota.
  change (10 * 0 + Z.of_nat (code "0" - 48))%Z with 0%Z.
  destruct k as [|k]; [reflexivity|]. apply IH. lia.
Qed.

Lemma strip_digits (s : list ascii) :
  Forall (fun c => is_digit c = true) s -> strip_with int_space s = s.
Proof.
  intros Hs.
  assert (Hl : forall l, Forall (fun c => is_digit c = true) l ->
                         lstrip int_space l = l).
  { intros [|c l] Hcl; [reflexivity|]. apply lstrip_kept.
    apply is_digit_classes. now inversion Hcl. }
  unfold strip_with. rewrite (Hl s Hs), Hl, rev_involutive; [reflexivity|].
  now apply Forall_rev.
Qed.

Lemma py_int_format_02d (n : Z) :
  (0 <= n)%Z -> py_int (format_02d n) = Some n.
Proof.
  intros Hn.
  pose proof (format_02d_digits n) as Hd.
  pose proof (format_02d_length n) as Hlen.
  unfold py_int. rewrite (strip_digits _ Hd).
  destruct (format_02d n) as [|c r] eqn:E; [cbn in Hlen; lia|].
  assert (Hc : is_digit c = true) by now inversion Hd.
  destruct (is_digit_classes c Hc) as (_ & -> & -> & _).
  rewrite <- E. unfold format_02d, decimal.
  assert (Hv : Z.of_nat (Nat.of_uint_acc (Nat.to_uint (Z.to_nat n)) 0) = n).
  { change (Nat.of_uint_acc ?d 0) with (Nat.of_uint d).
    rewrite DecimalNat.Unsigned.of_to. lia. }
  set (d := Nat.to_uint (Z.to_nat n)) in *.
  set (s := list_ascii_of_string (DecimalString.NilEmpty.string_of_uint d)).
  destruct (2 - length s)%nat as [|k] eqn:Ek.
  - cbn [repeat app]. rewrite <- Hv. apply (uint_value d 0 false).
    left. intros ->. subst s. cbn in Ek. discriminate Ek.
  - rewrite digits_value_zeros by lia. rewrite <- Hv.
    apply (uint_value d 0 true). now right.
Qed.

Lemma split_on_none (sep : ascii) (s : list ascii) :
  Forall (fun c => Ascii.eqb c sep = false) s -> split_on sep s = [s].
Proof.
  induction 1 as [|c s Hc _ IH]; [reflexivity|].
  cbn [split_on]. now rewrite Hc, IH.
Qed.

Lemma split_on_field (sep : ascii) (a b : list ascii) :
  Forall (fun c => Ascii.eqb c sep = false) a ->
  split_on sep (a ++ sep :: b) = a :: split_on sep b.
Proof.
  induction 1 as [|c s Hc _ IH]; cbn [app split_on].
  - now rewrite Ascii.eqb_refl.
  - now rewrite Hc, IH.
Qed.

Lemma format_02d_no_colon (n : Z) :
  Forall (fun c => Ascii.eqb c ":" = false) (format_02d n).
Proof.
  eapply Forall_impl; [|apply format_02d_digits].
  intros c Hc. now apply is_digit_classes.
Qed.

Lemma format_02d_two (n : Z) :
  (0 <= n < 60)%Z -> length (format_02d n) = 2%nat.
Proof.
  intros Hn.
  assert (H : forallb (fun k => (length (format_02d (Z.of_nat k)) =? 2)%nat)
                (seq 0 60) = true) by (vm_compute; reflexivity).
  rewrite forallb_forall in H.
  specialize (H (Z.to_nat n)). rewrite Z2Nat.id in H by lia.
  apply Nat.eqb_eq, H, in_seq. lia.
Qed.

(** X24: the label that [_format_time] prints reads back as the time.  With
    [total] the whole seconds of the position (zero for a negative one), the
    fields between the colons are decimal numbers that [int] reads as the
    minutes and the seconds when [total] is below one hour, and as the hours,
    the minutes of the hour and the seconds otherwise; every field has at
    least two characters, and the last two fields, the minutes and the
    seconds, exactly two. *)
Theorem format_time_reads_back (milliseconds : Z) :
  let total := Z.max (milliseconds / 1000) 0 in
  let fields := split_on ":" (format_time milliseconds) in
  map py_int fields =
    (if (total <? 3600)%Z
     then [Some (total / 60); Some (total mod 60)]
     else [Some (total / 3600); Some (total / 60 mod 60);
           Some (total mod 60)])%Z
  /\ Forall (fun f => 2 <= length f)%nat fields
  /\ map (@length ascii) (firstn 2 (rev fields)) = [2; 2]%nat.
Proof.
  intros total fields. subst fields. unfold format_time. fold total.
  assert (Ht : (0 <= total)%Z) by (subst total; lia).
  assert (Hdiv : (total / 60 / 60 = total / 3600)%Z)
    by (rewrite Z.div_div by lia; reflexivity).
  assert (Hs : (0 <= total mod 60 < 60)%Z) by (apply Z.mod_pos_bound; lia).
  assert (Hm : (0 <= total / 60 mod 60 < 60)%Z)
    by (apply Z.mod_pos_bound; lia).
  rewrite Hdiv.
  destruct (total <? 3600)%Z eqn:E.
  - apply Z.ltb_lt in E.
    assert (H0 : (total / 3600 = 0)%Z) by (apply Z.div_small; lia).
    rewrite H0. cbn [Z.eqb].
    assert (Hmm : (total / 60 mod 60 = total / 60)%Z).
    { apply Z.mod_small. split; [apply Z.div_pos; lia|].
      apply Z.div_lt_upper_bound; lia. }
    rewrite Hmm in *.
    rewrite split_on_field, split_on_none by apply format_02d_no_colon.
    cbn [map rev app length firstn].
    rewrite !py_int_format_02d, !format_02d_two by lia.
    repeat split. repeat constructor; apply format_02d_length.
  - apply Z.ltb_ge in E.
    assert (H1 : (1 <= total / 3600)%Z) by (apply Z.div_le_lower_bound; lia).
    destruct (total / 3600 =? 0)%Z eqn:E0; [apply Z.eqb_eq in E0; lia|].
    rewrite !split_on_field, split_on_none by apply format_02d_no_colon.
    cbn [map rev app length firstn].
    rewrite !py_int_format_02d, !format_02d_two by lia.
    repeat split. repeat constructor; apply format_02d_length.
Qed.

(** ** The tab bar *)

Lemma indexOf_tabs_placeholder (ids : list nat) :
  placeholder_index (tabs_then_placeholder ids) = Z.of_nat (length ids).
Proof.
  unfold placeholder_index, tabs_then_placeholder.
  induction ids as [|k ids IH]; [reflexivity|].
  cbn [map app indexOf page_eqb length]. rewrite IH.
  destruct (Z.of_nat (length ids) =? -1)%Z eqn:E; lia.
Qed.

Lemma actual_tab_count_tabs (ids : list nat) :
  actual_tab_count (tabs_then_placeholder ids) = Z.of_nat (length ids).
Proof.
  unfold actual_tab_count. rewrite indexOf_tabs_placeholder.
  destruct (Z.of_nat (length ids) =? -1)%Z eqn:E; [lia|].
  unfold tabs_then_placeholder. rewrite length_app, length_map. cbn. lia.
Qed.

Lemma widget_at_tabs (ids : list nat) (index : Z) :
  widget_at (tabs_then_placeholder ids) index =
    if (index <? 0)%Z then None
    else if (index <? Z.of_nat (length ids))%Z
    then option_map TerminalTab (nth_error ids (Z.to_nat index))
    else if (index =? Z.of_nat (length ids))%Z then Some NewTabPlaceholder
    else None.
Proof.
  unfold widget_at, tabs_then_placeholder.
  destruct (index <? 0)%Z eqn:E0; [reflexivity|]. apply Z.ltb_ge in E0.
  destruct (index <? Z.of_nat (length ids))%Z eqn:E1.
  - apply Z.ltb_lt in E1.
    rewrite nth_error_app1 by (rewrite length_map; lia).
    apply nth_error_map.
  - apply Z.ltb_ge in E1.
    rewrite nth_error_app2 by (rewrite length_map; lia).
    rewrite length_map.
    destruct (index =? Z.of_nat (length ids))%Z eqn:E2.
    + apply Z.eqb_eq in E2.
      replace (Z.to_nat index - length ids)%nat with 0%nat by lia.
      reflexivity.
    + apply Z.eqb_neq in E2.
      destruct (Z.to_nat index - length ids)%nat as [|[|n]] eqn:En;
        [lia|reflexivity|reflexivity].
Qed.

Lemma indexOf_tab (ids : list nat) (i k : nat) (rest : list Page) :
  NoDup ids -> nth_error ids i = Some k ->
  indexOf (TerminalTab k) (map TerminalTab ids ++ rest) = Z.of_nat i.
Proof.
  revert i. induction ids as [|a ids IH]; intros i Hnd Hk;
    [destruct i; discriminate Hk|].
  inversion Hnd as [|? ? Ha Hnd']; subst.
  cbn [map app indexOf page_eqb].
  destruct i as [|i]; cbn in Hk.
  - injection Hk as ->. now rewrite Nat.eqb_refl.
  - assert (a <> k) by (intros ->; apply Ha; eapply nth_error_In; eauto).
    destruct (a =? k)%nat eqn:E; [apply Nat.eqb_eq in E; contradiction|].
    rewrite (IH i Hnd' Hk).
    destruct (Z.of_nat i =? -1)%Z eqn:E'; lia.
Qed.

Lemma removeTab_tab (ids : list nat) (i : nat) :
  (i < length ids)%nat ->
  removeTab (Z.of_nat i) (tabs_then_placeholder ids) =
    tabs_then_placeholder (firstn i ids ++ skipn (S i) ids).
Proof.
  intros Hi. unfold removeTab, tabs_then_placeholder.
  destruct (Z.of_nat i <? 0)%Z eqn:E; [lia|]. rewrite Nat2Z.id.
  rewrite firstn_app, skipn_app, length_map, map_app, firstn_map, skipn_map.
  replace (i - length ids)%nat with 0%nat by lia.
  replace (S i - length ids)%nat with 0%nat by lia.
  cbn [firstn skipn]. rewrite app_nil_r. now rewrite <- app_assoc.
Qed.

Lemma removeTab_out_of_range (index : Z) (pages : list Page) :
  (index < 0 \/ Z.of_nat (length pages) <= index)%Z ->
  removeTab index pages = pages.
Proof.
  intros H. unfold removeTab.
  destruct (index <? 0)%Z eqn:E; [reflexivity|]. apply Z.ltb_ge in E.
  rewrite firstn_all2, skipn_all2 by lia. apply app_nil_r.
Qed.

Lemma first_terminal_tab_tabs (ids : list nat) :
  ids <> [] -> first_terminal_tab 0 (tabs_then_placeholder ids) = Some 0%Z.
Proof. destruct ids; [congruence | reflexivity]. Qed.

Lemma new_tab_tabs (tab : nat) (ids : list nat) :
  new_tab tab (tabs_then_placeholder ids) =
    {| pages_after := tabs_then_placeholder (ids ++ [tab]);
       set_current := Some (Z.of_nat (length ids));
       set_closable := Some (1 <? Z.of_nat (length ids) + 1)%Z |}.
Proof.
  unfold new_tab. rewrite indexOf_tabs_placeholder.
  destruct (Z.of_nat (length ids) =? -1)%Z eqn:E; [lia|].
  unfold insertTab.
  assert (Hlen : length (tabs_then_placeholder ids) = S (length ids)).
  { unfold tabs_then_placeholder. rewrite length_app, length_map. cbn. lia. }
  rewrite Hlen.
  destruct ((Z.of_nat (length ids) <? 0)
            || (Z.of_nat (S (length ids)) <? Z.of_nat (length ids)))%Z eqn:E';
    [lia|].
  rewrite Nat2Z.id.
  assert (Hp : firstn (length ids) (tabs_then_placeholder ids)
               ++ TerminalTab tab
                  :: skipn (length ids) (tabs_then_placeholder ids)
               = tabs_then_placeholder (ids ++ [tab])).
  { unfold tabs_then_placeholder.
    rewrite <- (length_map TerminalTab ids) at 1 2.
    rewrite firstn_exact, skipn_exact, map_app, <- app_assoc. reflexivity. }
  rewrite Hp. unfold update_tab_close_buttons.
  rewrite actual_tab_count_tabs, length_app. cbn [length].
  do 3 f_equal. lia.
Qed.

Lemma close_tab_tabs (ids : list nat) (index : Z) :
  ids <> [] -> NoDup ids ->
  pages_after (close_tab index (tabs_then_placeholder ids)) =
    if ((0 <=? index) && (index <? Z.of_nat (length ids))
        && (2 <=? Z.of_nat (length ids)))%Z
    then tabs_then_placeholder
           (firstn (Z.to_nat index) ids ++ skipn (S (Z.to_nat index)) ids)
    else tabs_then_placeholder ids.
Proof.
  intros Hne Hnd. unfold close_tab.
  rewrite widget_at_tabs, actual_tab_count_tabs.
  assert (Hlen : length (tabs_then_placeholder ids) = S (length ids)).
  { unfold tabs_then_placeholder. rewrite length_app, length_map. cbn. lia. }
  destruct (index <? 0)%Z eqn:E0.
  - replace (0 <=? index)%Z with false by lia. cbn [andb].
    destruct (Z.of_nat (length ids) <=? 1)%Z; [reflexivity|].
    cbn [pages_after]. apply removeTab_out_of_range. lia.
  - replace (0 <=? index)%Z with true by lia. cbn [andb].
    destruct (index <? Z.of_nat (length ids))%Z eqn:E1.
    + apply Z.ltb_lt in E1.
      destruct (nth_error ids (Z.to_nat index)) as [k|] eqn:Ek;
        [|apply nth_error_None in Ek; lia].
      cbn [option_map].
      destruct (Z.of_nat (length ids) <=? 1)%Z eqn:E2.
      * replace (2 <=? Z.of_nat (length ids))%Z with false by lia.
        reflexivity.
      * replace (2 <=? Z.of_nat (length ids))%Z with true by lia.
        cbn [pages_after]. unfold tabs_then_placeholder at 1 2.
        rewrite (indexOf_tab ids (Z.to_nat index) k _ Hnd Ek).
        destruct (Z.of_nat (Z.to_nat index) =? -1)%Z eqn:E3; [lia|].
        cbn [negb]. apply removeTab_tab. lia.
    + cbn [andb].
      destruct (index =? Z.of_nat (length ids))%Z eqn:E2; [reflexivity|].
      destruct (Z.of_nat (length ids) <=? 1)%Z; [reflexivity|].
      cbn [pages_after]. apply removeTab_out_of_range. lia.
Qed.

Lemma NoDup_remove_nth (A : Type) (l : list A) (i : nat) :
  NoDup l -> NoDup (firstn i l ++ skipn (S i) l).
Proof.
  intros H. rewrite <- (firstn_skipn i l) in H.
  destruct (skipn i l) as [|x r] eqn:E.
  - rewrite app_nil_r in H.
    assert (Hs : skipn (S i) l = []).
    { apply skipn_all2. apply (f_equal (@length A)) in E.
      rewrite length_skipn in E. cbn in E. lia. }
    now rewrite Hs, app_nil_r.
  - assert (Hs : skipn (S i) l = r).
    { change (S i) with (1 + i)%nat. rewrite <- skipn_skipn, E. reflexivity. }
    rewrite Hs. eapply NoDup_remove_1; eauto.
Qed.

Lemma incl_remove_nth (A : Type) (l : list A) (i : nat) :
  incl (firstn i l ++ skipn (S i) l) l.
Proof.
  revert i. induction l as [|a l IH]; intros [|i] x Hx; cbn in *;
    try contradiction.
  - now right.
  - destruct Hx as [Hx|Hx]; [now left | right; exact (IH i x Hx)].
Qed.

Lemma NoDup_app_disjoint (A : Type) (l1 l2 : list A) (x : A) :
  NoDup (l1 ++ l2) -> In x l1 -> ~ In x l2.
Proof.
  induction l1 as [|a l1 IH]; cbn; intros Hnd Hx; [contradiction|].
  inversion Hnd as [|? ? Ha Hnd']; subst.
  destruct Hx as [->|Hx]; [|now apply IH].
  intros H2. apply Ha, in_or_app. now right.
Qed.

Lemma remove_nth_not_nil (A : Type) (l : list A) (i : nat) :
  (2 <= length l)%nat -> firstn i l ++ skipn (S i) l <> [].
Proof.
  intros Hl H. apply (f_equal (@length A)) in H.
  rewrite length_app, length_firstn, length_skipn in H. cbn in H. lia.
Qed.

(** Every event keeps the shape of the tab widget: terminal tabs without a
    repeated object, then the placeholder. *)
Lemma tab_event_tabs (e : TabEvent) (ids : list nat) :
  ids <> [] -> NoDup ids ->
  (forall t, In t (created_by e) -> ~ In t ids) ->
  exists ids',
    pages_after (tab_event e (tabs_then_placeholder ids))
      = tabs_then_placeholder ids'
    /\ ids' <> [] /\ NoDup ids' /\ incl ids' (ids ++ created_by e).
Proof.
  intros Hne Hnd Hfresh.
  assert (Hnew : forall tab, created_by e = [tab] ->
            exists ids',
              tabs_then_placeholder (ids ++ [tab]) = tabs_then_placeholder ids'
              /\ ids' <> [] /\ NoDup ids' /\ incl ids' (ids ++ created_by e)).
  { intros tab Hc. exists (ids ++ [tab]). rewrite Hc.
    split; [reflexivity|]. split; [now destruct ids|].
    split; [|apply incl_refl].
    apply NoDup_app; [exact Hnd | repeat constructor; intros [] |].
    intros x Hx [<-|[]]. revert Hx. apply Hfresh. rewrite Hc. now left. }
  assert (Hsame : exists ids',
            tabs_then_placeholder ids = tabs_then_placeholder ids'
            /\ ids' <> [] /\ NoDup ids' /\ incl ids' (ids ++ created_by e)).
  { exists ids. repeat split; try assumption. now apply incl_appl, incl_refl. }
  destruct e as [tab|index tab|index]; cbn [tab_event].
  - rewrite new_tab_tabs. cbn [pages_after]. now apply Hnew.
  - unfold on_tab_changed.
    destruct (widget_at (tabs_then_placeholder ids) index) as [[|k]|];
      cbn [pages_after]; try exact Hsame.
    rewrite new_tab_tabs. cbn [pages_after]. now apply Hnew.
  - rewrite close_tab_tabs by assumption.
    destruct ((0 <=? index) && (index <? Z.of_nat (length ids))
              && (2 <=? Z.of_nat (length ids)))%Z eqn:E; [|exact Hsame].
    exists (firstn (Z.to_nat index) ids ++ skipn (S (Z.to_nat index)) ids).
    split; [reflexivity|].
    split; [apply remove_nth_not_nil; lia|].
    split; [now apply NoDup_remove_nth|].
    apply incl_appl, incl_remove_nth.
Qed.

(** X25: what [close_tab] closes.  With the terminal tabs left of the
    placeholder, a request closes the page at [index] exactly when [index]
    names a terminal tab and there are at least two of them: that page alone
    is removed, the first tab is made current and the close buttons stay
    when two tabs or more are left.  Any other request, for the placeholder,
    for the only terminal tab or for an index out of range, leaves every
    page where it is. *)
Theorem close_tab_closes_one_of_several (ids : list nat) (index : Z) :
  ids <> [] -> NoDup ids ->
  let update := close_tab index (tabs_then_placeholder ids) in
  if ((0 <=? index) && (index <? Z.of_nat (length ids))
      && (2 <=? Z.of_nat (length ids)))%Z
  then pages_after update =
         tabs_then_placeholder
           (firstn (Z.to_nat index) ids ++ skipn (S (Z.to_nat index)) ids)
       /\ set_current update = Some 0%Z
       /\ set_closable update = Some (3 <=? Z.of_nat (length ids))%Z
  else pages_after update = tabs_then_placeholder ids.
Proof.
  intros Hne Hnd update. subst update.
  pose proof (close_tab_tabs ids index Hne Hnd) as Hp.
  destruct ((0 <=? index) && (index <? Z.of_nat (length ids))
            && (2 <=? Z.of_nat (length ids)))%Z eqn:E; [|exact Hp].
  split; [exact Hp|].
  assert (Hrem : firstn (Z.to_nat index) ids ++ skipn (S (Z.to_nat index)) ids
                 <> []) by (apply remove_nth_not_nil; lia).
  assert (Hlen : length (firstn (Z.to_nat index) ids
                         ++ skipn (S (Z.to_nat index)) ids)
                 = (length ids - 1)%nat).
  { rewrite length_app, length_firstn, length_skipn. lia. }
  revert Hp. unfold close_tab.
  rewrite widget_at_tabs, actual_tab_count_tabs.
  replace (index <? 0)%Z with false by lia.
  replace (index <? Z.of_nat (length ids))%Z with true by lia.
  destruct (nth_error ids (Z.to_nat index)) as [k|] eqn:Ek;
    [|apply nth_error_None in Ek; lia].
  cbn [option_map].
  replace (Z.of_nat (length ids) <=? 1)%Z with false by lia.
  cbn [pages_after set_current set_closable]. intros ->.
  split; [now apply first_terminal_tab_tabs|].
  unfold update_tab_close_buttons. rewrite actual_tab_count_tabs, Hlen.
  f_equal. lia.
Qed.

Lemma close_tab_closes_one_of_several_witness :
  pages_after (close_tab 1 (tabs_then_placeholder three_tabs))
    = tabs_then_placeholder [1; 3]%nat
  /\ set_current (close_tab 1 (tabs_then_placeholder three_tabs)) = Some 0%Z
  /\ set_closable (close_tab 1 (tabs_then_placeholder three_tabs))
     = Some true.
Proof.
  assert (Hne : three_tabs <> []) by discriminate.
  assert (Hnd : NoDup three_tabs) by (repeat constructor; cbn; lia).
  exact (close_tab_closes_one_of_several three_tabs 1 Hne Hnd).
Defined.

(** X26: the tab widget keeps its shape.  From the state that [__init__]
    leaves, whatever tabs are opened, chosen and closed, each new tab being
    a new object, the pages are terminal tabs followed by the placeholder as
    the last page: there is always at least one terminal tab, no tab occurs
    twice, and the placeholder is never closed. *)
Theorem tab_widget_keeps_its_shape (first : nat) (es : list TabEvent) :
  NoDup (first :: created es) ->
  exists ids,
    run_tab_events es (initial_pages first) = tabs_then_placeholder ids
    /\ ids <> [] /\ NoDup ids.
Proof.
  intros Hnd.
  assert (Hgen : forall es ids,
            ids <> [] -> NoDup ids -> NoDup (created es) ->
            (forall t, In t (created es) -> ~ In t ids) ->
            exists ids',
              run_tab_events es (tabs_then_placeholder ids)
                = tabs_then_placeholder ids'
              /\ ids' <> [] /\ NoDup ids').
  { clear. induction es as [|e es IH]; intros ids Hne Hnd Hc Hfresh.
    - exists ids. now repeat split.
    - change (created (e :: es)) with (created_by e ++ created es) in *.
      destruct (tab_event_tabs e ids Hne Hnd) as (ids1 & Hp & Hne1 & Hnd1 & Hin).
      { intros t Ht. apply Hfresh, in_or_app. now left. }
      cbn [run_tab_events fold_left]. rewrite Hp.
      apply (IH ids1 Hne1 Hnd1).
      + now apply NoDup_app_remove_l in Hc.
      + intros t Ht Hin1. apply Hin in Hin1. apply in_app_or in Hin1.
        destruct Hin1 as [Hin1|Hin1].
        * revert Hin1. apply Hfresh, in_or_app. now right.
        * exact (NoDup_app_disjoint _ _ _ t Hc Hin1 Ht). }
  inversion Hnd as [|? ? Hfirst Hc]; subst.
  change (initial_pages first) with (tabs_then_placeholder [first]).
  apply Hgen.
  - discriminate.
  - repeat constructor. intros [].
  - exact Hc.
  - intros t Ht [<-|[]]. exact (Hfirst Ht).
Qed.

Lemma tab_widget_keeps_its_shape_witness :
  exists ids,
    run_tab_events [NewTab 2; CloseTab 0; TabChanged 1 3; CloseTab 2; CloseTab 1]
      (initial_pages 1) = tabs_then_placeholder ids
    /\ ids <> [] /\ NoDup ids.
Proof.
  apply (tab_widget_keeps_its_shape 1
           [NewTab 2; CloseTab 0; TabChanged 1 3; CloseTab 2; CloseTab 1]).
  repeat constructor; cbn; lia.
Defined.

(** ** The name of a pasted copy *)

Lemma decimal_inj (n m : nat) : decimal n = decimal m -> n = m.
Proof.
  unfold decimal. intros H.
  apply (f_equal string_of_list_ascii) in H.
  rewrite !string_of_list_ascii_of_string in H.
  apply (f_equal DecimalString.NilEmpty.uint_of_string) in H.
  rewrite !DecimalString.NilEmpty.usu in H. injection H as H.
  now apply DecimalNat.Unsigned.to_uint_inj.
Qed.

Lemma numbered_name_inj (stem suffixes : list ascii) (j k : nat) :
  numbered_name stem suffixes j = numbered_name stem suffixes k -> j = k.
Proof.
  unfold numbered_name. intros H.
  apply app_inv_head in H. apply app_inv_head in H.
  change (?d ++ ")" :: suffixes) with (d ++ (")" :: suffixes)) in H.
  apply app_inv_tail in H. now apply decimal_inj.
Qed.

Lemma forallb_false (A : Type) (f : A -> bool) (l : list A) :
  forallb f l = false -> exists x, In x l /\ f x = false.
Proof.
  induction l as [|a l IH]; cbn; [discriminate|].
  destruct (f a) eqn:E; cbn.
  - intros H. destruct (IH H) as (x & Hx & Hf). exists x. auto.
  - intros _. exists a. auto.
Qed.

Section UniqueDestinationFacts.

Variable path_exists : list ascii -> bool.
Variable path_name : list ascii -> list ascii.
Variable path_suffixes : list ascii -> list (list ascii).

Lemma unique_loop_finds (stem suffixes : list ascii) (fuel counter k : nat) :
  (counter <= k < counter + fuel)%nat ->
  path_exists (numbered_name stem suffixes k) = false ->
  exists k',
    (counter <= k' <= k)%nat
    /\ unique_loop path_exists fuel counter stem suffixes
       = Some (numbered_name stem suffixes k')
    /\ path_exists (numbered_name stem suffixes k') = false
    /\ forall j, (counter <= j < k')%nat ->
                 path_exists (numbered_name stem suffixes j) = true.
Proof.
  revert counter. induction fuel as [|fuel IH]; intros counter Hk Hfree;
    [lia|].
  cbn [unique_loop].
  destruct (path_exists (numbered_name stem suffixes counter)) eqn:E;
    cbn [negb].
  - assert (Hne : counter <> k) by (intros ->; congruence).
    destruct (IH (S counter)) as (k' & Hk' & Hloop & Hf & Hall);
      [lia | exact Hfree |].
    exists k'. split; [lia|]. split; [exact Hloop|]. split; [exact Hf|].
    intros j Hj. destruct (Nat.eq_dec j counter) as [->|Hjc]; [exact E|].
    apply Hall. lia.
  - exists counter. split; [lia|]. split; [reflexivity|]. split; [exact E|].
    intros j Hj. lia.
Qed.

Lemma some_number_is_free (entries : list (list ascii))
    (stem suffixes : list ascii) :
  (forall n, path_exists n = true -> In n entries) ->
  exists k, (1 <= k < 1 + S (length entries))%nat
            /\ path_exists (numbered_name stem suffixes k) = false.
Proof.
  intros Hfinite.
  set (names := map (numbered_name stem suffixes)
                  (seq 1 (S (length entries)))).
  destruct (forallb path_exists names) eqn:E.
  - exfalso.
    assert (Hnd : NoDup names).
    { subst names. generalize (seq_NoDup (S (length entries)) 1).
      generalize (seq 1 (S (length entries))). intros l Hl.
      induction Hl as [|a l Ha Hl IH]; cbn [map]; constructor; [|exact IH].
      intros Hin. apply in_map_iff in Hin. destruct Hin as (b & Hb & Hin).
      apply numbered_name_inj in Hb. now subst b. }
    assert (Hincl : incl names entries).
    { intros n Hn. apply Hfinite. rewrite forallb_forall in E. now apply E. }
    pose proof (NoDup_incl_length Hnd Hincl) as Hlen.
    subst names. rewrite length_map, length_seq in Hlen. lia.
  - destruct (forallb_false _ _ _ E) as (n & Hn & Hf).
    subst names. apply in_map_iff in Hn. destruct Hn as (k & <- & Hk).
    apply in_seq in Hk. exists k. split; [lia | exact Hf].
Qed.

(** X27: [_unique_destination] finds a name that is free.  In a directory
    with finitely many entries the loop ends, within one round more than
    there are entries: the answer is the name itself when nothing of that
    name exists, and otherwise the numbered name with the least counter from
    1 on that does not exist; in both cases nothing exists under the
    answer. *)
Theorem unique_destination_is_free (entries : list (list ascii))
    (name : list ascii) :
  (forall n, path_exists n = true -> In n entries) ->
  exists answer,
    unique_destination path_exists path_name path_suffixes
      (S (length entries)) name = Some answer
    /\ path_exists answer = false
    /\ (if path_exists name
        then exists k,
               (1 <= k <= S (length entries))%nat
               /\ answer = numbered_name
                             (stem_of path_name path_suffixes name)
                             (joined_suffixes path_suffixes name) k
               /\ forall j, (1 <= j < k)%nat ->
                    path_exists
                      (numbered_name (stem_of path_name path_suffixes name)
                         (joined_suffixes path_suffixes name) j) = true
        else answer = name).
Proof.
  intros Hfinite. unfold unique_destination.
  destruct (path_exists name) eqn:E; cbn [negb].
  - destruct (some_number_is_free entries
                (stem_of path_name path_suffixes name)
                (joined_suffixes path_suffixes name) Hfinite)
      as (k & Hk & Hfree).
    destruct (unique_loop_finds _ _ _ 1 k Hk Hfree)
      as (k' & Hk' & Hloop & Hf & Hall).
    eexists. split; [exact Hloop|]. split; [exact Hf|].
    exists k'. split; [lia|]. split; [reflexivity | exact Hall].
  - exists name. split; [reflexivity|]. split; [exact E | reflexivity].
Qed.

End UniqueDestinationFacts.

Lemma unique_destination_is_free_witness :
  exists answer,
    unique_destination (listed notes_and_copy) (fun n => n) suffixes_of_name
      3 (list_ascii_of_string "notes.tar.gz") = Some answer
    /\ listed notes_and_copy answer = false
    /\ exists k,
         (1 <= k <= 3)%nat
         /\ answer = numbered_name (list_ascii_of_string "notes")
                       (list_ascii_of_string ".tar.gz") k
         /\ forall j, (1 <= j < k)%nat ->
              listed notes_and_copy
                (numbered_name (list_ascii_of_string "notes")
                   (list_ascii_of_string ".tar.gz") j) = true.
Proof.
  assert (Hfinite : forall n, listed notes_and_copy n = true ->
                              In n notes_and_copy).
  { intros n Hn. unfold listed in Hn. apply existsb_exists in Hn.
    destruct Hn as (x & Hx & Heq). apply text_eqb_eq in Heq. now subst n. }
  exact (unique_destination_is_free (listed notes_and_copy) (fun n => n)
           suffixes_of_name notes_and_copy
           (list_ascii_of_string "notes.tar.gz") Hfinite).
Defined.

(** ** The title of a tab *)

Lemma rfind_none (c : ascii) (s : list ascii) :
  Forall (fun x => Ascii.eqb x c = false) s -> rfind c s = (-1)%Z.
Proof.
  induction 1 as [|x s Hx _ IH]; [reflexivity|].
  cbn [rfind]. now rewrite IH, Hx.
Qed.

Lemma rfind_last (c : ascii) (a b : list ascii) :
  Forall (fun x => Ascii.eqb x c = false) b ->
  rfind c (a ++ c :: b) = Z.of_nat (length a).
Proof.
  intros Hb. induction a as [|x a IH].
  - cbn [app rfind length]. now rewrite (rfind_none c b Hb), Ascii.eqb_refl.
  - cbn [app rfind length]. rewrite IH.
    destruct (Z.of_nat (length a) =? -1)%Z eqn:E; lia.
Qed.

Lemma basename_last (a b : list ascii) :
  Forall (fun x => Ascii.eqb x "/" = false) b ->
  basename (a ++ "/" :: b) = b.
Proof.
  intros Hb. unfold basename. rewrite (rfind_last "/" a b Hb).
  replace (Z.to_nat (Z.of_nat (length a) + 1)) with (length (a ++ ["/"]))
    by (rewrite length_app; cbn; lia).
  change (a ++ "/" :: b) with (a ++ ["/"] ++ b). rewrite app_assoc.
  apply skipn_exact.
Qed.

Lemma basename_plain (b : list ascii) :
  Forall (fun x => Ascii.eqb x "/" = false) b -> basename b = b.
Proof.
  intros Hb. unfold basename. now rewrite (rfind_none "/" b Hb).
Qed.

(** X28: the title of a tab is the last component of its directory.  For a
    path that ends with a name, the tab shows the name; a path that ends
    with a slash, as the root directory does, is shown whole; the empty path
    gives the word Terminal; so the title is never empty. *)
Theorem tab_title_is_last_component :
  (forall directory name : list ascii,
     name <> [] -> Forall (fun x => Ascii.eqb x "/" = false) name ->
     tab_title (directory ++ "/" :: name) = name /\ tab_title name = name)
  /\ (forall directory : list ascii,
        tab_title (directory ++ ["/"]) = directory ++ ["/"])
  /\ tab_title [] = list_ascii_of_string "Terminal"
  /\ (forall path : list ascii, tab_title path <> []).
Proof.
  split; [|split; [|split]].
  - intros directory name Hne Hname. unfold tab_title.
    rewrite basename_last, basename_plain by exact Hname.
    destruct name; [congruence|]. now split.
  - intros directory. unfold tab_title.
    rewrite basename_last by constructor. cbn [is_empty negb].
    now destruct directory.
  - reflexivity.
  - intros path. unfold tab_title.
    destruct (basename path) as [|c r]; cbn [is_empty negb]; [|discriminate].
    destruct path; cbn [is_empty negb]; discriminate.
Qed.

(** ** Permission presets *)

Lemma land_low_bits (mode : Z) :
  (0 <= mode <= 511)%Z -> Z.land mode 511 = mode.
Proof.
  intros H. change 511%Z with (Z.ones 9).
  rewrite Z.land_ones by lia. apply Z.mod_small.
  change (2 ^ 9)%Z with 512%Z. lia.
Qed.

Lemma land_high_bits (mode : Z) :
  (0 <= mode <= 511)%Z -> Z.land mode (Z.lnot 511) = 0%Z.
Proof.
  intros H. rewrite <- (land_low_bits mode H) at 1.
  rewrite <- Z.land_assoc.
  replace (Z.land 511 (Z.lnot 511)) with 0%Z by reflexivity.
  apply Z.land_0_r.
Qed.

(** X29: a permission preset replaces the nine permission bits and nothing
    else.  For a mode within 0o777, as the five presets of the menu are, the
    mode given to [os.chmod] has exactly the permission bits of the preset,
    and all other bits, the file type, set-user-id, set-group-id and the
    sticky bit, as [os.stat] read them; applying the preset a second time
    changes nothing.  On a symbolic link no mode is changed. *)
Theorem permission_preset_sets_nine_bits (current_mode mode : Z) :
  (0 <= mode <= 511)%Z ->
  exists m,
    apply_permission_preset false (Some current_mode) true mode
      = PermissionsUpdated m
    /\ Z.land m 511 = mode
    /\ Z.land m (Z.lnot 511) = Z.land current_mode (Z.lnot 511)
    /\ apply_permission_preset false (Some m) true mode
       = PermissionsUpdated m
    /\ (forall st_mode chmod_ok,
          apply_permission_preset true st_mode chmod_ok mode
          = LinkNotSupported)
    /\ Forall (fun preset => 0 <= preset <= 511)%Z permission_presets.
Proof.
  intros Hmode. exists (new_mode current_mode mode).
  assert (Hlow : Z.land (new_mode current_mode mode) 511 = mode).
  { unfold new_mode. rewrite Z.land_lor_distr_l, <- Z.land_assoc.
    replace (Z.land (Z.lnot 511) 511) with 0%Z by reflexivity.
    rewrite Z.land_0_r, Z.lor_0_l. exact (land_low_bits mode Hmode). }
  assert (Hhigh : Z.land (new_mode current_mode mode) (Z.lnot 511)
                  = Z.land current_mode (Z.lnot 511)).
  { unfold new_mode. rewrite Z.land_lor_distr_l, <- Z.land_assoc.
    rewrite Z.land_diag, (land_high_bits mode Hmode). apply Z.lor_0_r. }
  split; [reflexivity|]. split; [exact Hlow|]. split; [exact Hhigh|].
  split.
  - cbn [apply_permission_preset]. f_equal.
    unfold new_mode at 1. now rewrite Hhigh.
  - split; [reflexivity|]. unfold permission_presets.
    repeat constructor; lia.
Qed.

Lemma permission_preset_sets_nine_bits_witness :
  exists m,
    apply_permission_preset false (Some 35236%Z) true 493%Z
      = PermissionsUpdated m
    /\ Z.land m 511 = 493%Z
    /\ Z.land m (Z.lnot 511) = Z.land 35236 (Z.lnot 511)
    /\ apply_permission_preset false (Some m) true 493%Z
       = PermissionsUpdated m
    /\ (forall st_mode chmod_ok,
          apply_permission_preset true st_mode chmod_ok 493%Z
          = LinkNotSupported)
    /\ Forall (fun preset => 0 <= preset <= 511)%Z permission_presets.
Proof. apply (permission_preset_sets_nine_bits 35236 493). lia. Defined.

(** ** The repository of a path *)

Lemma rstrip_slash_prefix (s : list ascii) :
  exists rest, s = rstrip_slash s ++ rest.
Proof.
  unfold rstrip_slash.
  destruct (lstrip_suffix (Ascii.eqb "/") (rev s)) as [a Ha].
  exists (rev a). rewrite <- rev_app_distr, <- Ha. now rewrite rev_involutive.
Qed.

Lemma dirname_prefix (p : list ascii) : exists rest, p = dirname p ++ rest.
Proof.
  unfold dirname.
  set (head := firstn (Z.to_nat (rfind "/" p + 1)) p).
  assert (Hhead : p = head ++ skipn (Z.to_nat (rfind "/" p + 1)) p)
    by (symmetry; apply firstn_skipn).
  destruct (negb (is_empty head)
            && negb (text_eqb head (repeat "/" (length head)))).
  - destruct (rstrip_slash_prefix head) as [rest Hrest].
    exists (rest ++ skipn (Z.to_nat (rfind "/" p + 1)) p).
    now rewrite app_assoc, <- Hrest.
  - eexists. exact Hhead.
Qed.

Lemma dirname_shorter (p : list ascii) :
  dirname p <> p -> (length (dirname p) < length p)%nat.
Proof.
  intros Hne. destruct (dirname_prefix p) as [rest Hrest].
  destruct rest as [|c rest]; [rewrite app_nil_r in Hrest; congruence|].
  rewrite Hrest at 2. rewrite length_app. cbn. lia.
Qed.

Lemma iter_dirname_prefix (k : nat) (p : list ascii) :
  exists rest, p = Nat.iter k dirname p ++ rest.
Proof.
  induction k as [|k [rest IH]]; [exists []; cbn; now rewrite app_nil_r|].
  rewrite Nat.iter_succ.
  destruct (dirname_prefix (Nat.iter k dirname p)) as [rest' Hrest'].
  exists (rest' ++ rest). now rewrite app_assoc, <- Hrest'.
Qed.

Lemma iter_dirname_fixed (k : nat) (p : list ascii) :
  dirname p = p -> Nat.iter k dirname p = p.
Proof.
  intros H. induction k as [|k IH]; [reflexivity|].
  rewrite Nat.iter_succ. now rewrite IH.
Qed.

Section GitRootFacts.

Variable abspath : list ascii -> list ascii.
Variable isfile : list ascii -> bool.
Variable isdir : list ascii -> bool.

Lemma git_root_loop_finds (fuel : nat) (candidate : list ascii) :
  (length candidate < fuel)%nat ->
  exists answer,
    git_root_loop isdir fuel candidate = Some answer
    /\ match answer with
       | Some root =>
           isdir (path_join root dot_git) = true
           /\ exists k,
                root = Nat.iter k dirname candidate
                /\ forall j, (j < k)%nat ->
                     isdir (path_join (Nat.iter j dirname candidate) dot_git)
                     = false
       | None =>
           forall k,
             isdir (path_join (Nat.iter k dirname candidate) dot_git) = false
       end.
Proof.
  revert candidate. induction fuel as [|fuel IH]; intros candidate Hlen;
    [lia|].
  cbn [git_root_loop].
  destruct (isdir (path_join candidate dot_git)) eqn:Egit.
  - exists (Some candidate). split; [reflexivity|]. split; [exact Egit|].
    exists 0%nat. split; [reflexivity|]. intros j Hj. lia.
  - destruct (text_eqb (dirname candidate) candidate) eqn:Etop.
    + apply text_eqb_eq in Etop. exists None. split; [reflexivity|].
      intros k. now rewrite iter_dirname_fixed.
    + apply text_eqb_neq in Etop.
      pose proof (dirname_shorter candidate Etop) as Hshort.
      destruct (IH (dirname candidate)) as (answer & Hloop & Hanswer); [lia|].
      exists answer. split; [exact Hloop|].
      destruct answer as [root|].
      * destruct Hanswer as (Hroot & k & Hk & Hbefore).
        split; [exact Hroot|]. exists (S k).
        split; [now rewrite Nat.iter_succ_r|].
        intros [|j] Hj; [exact Egit|].
        rewrite Nat.iter_succ_r. apply Hbefore. lia.
      * intros [|k]; [exact Egit|].
        rewrite Nat.iter_succ_r. apply Hanswer.
Qed.

(** X30: [_git_root_for_path] finds the nearest repository.  The walk up
    the directories ends, within one round more than the starting path has
    characters.  When it answers a directory, that directory holds [.git],
    it is a prefix of the starting path reached by taking the parent some
    number of times, and no directory passed on the way holds [.git]; when
    it answers nothing, no directory from the starting path upwards holds
    [.git]. *)
Theorem git_root_is_nearest_repository (path : list ascii) :
  let start := start_of_search abspath isfile path in
  exists answer,
    git_root_for_path abspath isfile isdir (S (length start)) path
      = Some answer
    /\ match answer with
       | Some root =>
           isdir (path_join root dot_git) = true
           /\ (exists rest, start = root ++ rest)
           /\ exists k,
                root = Nat.iter k dirname start
                /\ forall j, (j < k)%nat ->
                     isdir (path_join (Nat.iter j dirname start) dot_git)
                     = false
       | None =>
           forall k,
             isdir (path_join (Nat.iter k dirname start) dot_git) = false
       end.
Proof.
  intros start. unfold git_root_for_path. fold start.
  destruct (git_root_loop_finds (S (length start)) start)
    as (answer & Hloop & Hanswer); [lia|].
  exists answer. split; [exact Hloop|].
  destruct answer as [root|]; [|exact Hanswer].
  destruct Hanswer as (Hroot & k & Hk & Hbefore).
  split; [exact Hroot|]. split; [|now exists k].
  rewrite Hk. apply iter_dirname_prefix.
Qed.

End GitRootFacts.
